(** * N2Window: floating windows of the N2 diagram viewer

    A shallow embedding of [openmdao/visualization/n2_viewer/src/N2Window.js]
    (classes [N2Window], [N2WindowDraggable], [N2WindowResizable]) and the
    properties of its geometry, stacking, drag and resize behaviour.

    Conventions of the embedding
    - JavaScript numbers are modelled by [Js.number]: [NaN] or an integer.
      The embedding covers layouts on the pixel grid: the rectangles
      [getBoundingClientRect] returns, the pointer positions and the
      minimum sizes are whole numbers of pixels, on which the arithmetic of
      the source is exact. On fractional rectangles the source computes
      with rounding; [Double] holds the resize arithmetic in IEEE doubles
      for that case.
    - JavaScript strings are [string] (sequences of 8-bit characters).
    - Object literals used as dictionaries ([startSize], [newSize],
      [this.min], [dirVals]) are [gmap string _].
    - The DOM subtree owned by a window is a record of [Dom.Element]s; every
      element carries its inline style declarations, its [class] attribute,
      its [innerHTML] and the listeners registered through d3's [on].
    - Closures registered as listeners are defunctionalised ([Listener]); the
      variables they capture are the constructor arguments, the mutable ones
      included.
    - Quantities the browser computes from layout ([getBoundingClientRect],
      [scrollWidth], ...) are inputs of the operation that reads them. *)

From Stdlib Require Import ZArith String Ascii List Bool Lia.
From Stdlib Require Import Sorted DecimalString DecimalPos DecimalZ PrimFloat.
From stdpp Require Import gmap strings list fin_maps.

Local Open Scope string_scope.
Local Open Scope Z_scope.

(** ** JavaScript values *)

Module Js.

(** A JavaScript number: [NaN], or a (finite) integer. *)
Inductive number := NaN | Num (z : Z).

Definition add (a b : number) : number :=
  match a, b with Num x, Num y => Num (x + y) | _, _ => NaN end.

Definition sub (a b : number) : number :=
  match a, b with Num x, Num y => Num (x - y) | _, _ => NaN end.

Definition mul (a b : number) : number :=
  match a, b with Num x, Num y => Num (x * y) | _, _ => NaN end.

(** [a < b] and [a > b]: false as soon as one side is [NaN]. *)
Definition lt (a b : number) : bool :=
  match a, b with Num x, Num y => x <? y | _, _ => false end.

Definition gt (a b : number) : bool :=
  match a, b with Num x, Num y => y <? x | _, _ => false end.

(** [String(n)]: decimal digits, with a leading minus sign below zero. *)
Definition ToString (n : number) : string :=
  match n with
  | NaN => "NaN"
  | Num z => NilZero.string_of_int (Z.to_int z)
  end.

(** [Number(s)] on the strings a numeric CSS property can hold: a signed
    decimal integer literal is its value, the empty string is [0], every
    other string ([auto], [inherit], [12px], ...) is [NaN]. *)
Definition StringToNumber (s : string) : number :=
  match s with
  | "" => Num 0
  | _ => match NilZero.int_of_string s with
         | Some d => Num (Z.of_int d)
         | None => NaN
         end
  end.

(** A property read [o[k]] used as an operand: [undefined] becomes [NaN]. *)
Definition rd (o : gmap string number) (k : string) : number :=
  default NaN (o !! k).

(** An array read [a[i]] used as an operand. *)
Definition rdi (a : list number) (i : nat) : number :=
  default NaN (a !! i).

(** The template literal [`${o[k]}px`]. *)
Definition px (v : option number) : string :=
  match v with
  | None => "undefinedpx"
  | Some n => ToString n +:+ "px"
  end.

(** Truthiness of an optional string argument: [null], [undefined] and the
    empty string are falsy. *)
Definition truthy (s : option string) : bool :=
  match s with
  | None | Some "" => false
  | Some _ => true
  end.

(** [\s] of regular expressions and of [String.prototype.trim], on 8-bit
    characters: TAB, LF, VT, FF, CR, space and the no-break space. *)
Definition is_space (c : ascii) : bool :=
  let n := nat_of_ascii c in
  ((9 <=? n)%nat && (n <=? 13)%nat) || (n =? 32)%nat || (n =? 160)%nat.

(** Line terminators, which [.] does not match. *)
Definition is_line_terminator (c : ascii) : bool :=
  let n := nat_of_ascii c in (n =? 10)%nat || (n =? 13)%nat.

(** [s.split(sep)] for a one-character separator. *)
Fixpoint split (sep : ascii) (s : string) : list string :=
  match s with
  | EmptyString => [EmptyString]
  | String c s' =>
      if Ascii.eqb c sep then EmptyString :: split sep s'
      else match split sep s' with
           | [] => [String c EmptyString]
           | w :: ws => String c w :: ws
           end
  end.

(** The maximal runs of characters that are not separators, in order:
    [s.trim().split(/\s+/)] for [sp := is_space] when [s] has such a run,
    and the tokens of a [class] attribute for ASCII white space. *)
Fixpoint tokens (sp : ascii -> bool) (s : string) : list string :=
  match s with
  | EmptyString => []
  | String c s' =>
      if sp c then tokens sp s'
      else
        match s' with
        | EmptyString => [String c EmptyString]
        | String c' _ =>
            if sp c' then String c EmptyString :: tokens sp s'
            else match tokens sp s' with
                 | t :: r => String c t :: r
                 | [] => [String c EmptyString]
                 end
        end
  end.

(** No character of [s] is a separator. *)
Fixpoint no_sep (sp : ascii -> bool) (s : string) : bool :=
  match s with
  | EmptyString => true
  | String c s' => negb (sp c) && no_sep sp s'
  end.

(** A token: a non-empty string without a separator. *)
Definition is_word (sp : ascii -> bool) (s : string) : Prop :=
  s <> EmptyString /\ no_sep sp s = true.

(** [a.join(' ')]. *)
Fixpoint join (l : list string) : string :=
  match l with
  | [] => ""
  | [x] => x
  | x :: r => x +:+ " " +:+ join r
  end.

(** Does [s] start with [p]? *)
Fixpoint starts_with (p s : string) : bool :=
  match p, s with
  | EmptyString, _ => true
  | String a p', String b s' => Ascii.eqb a b && starts_with p' s'
  | String _ _, EmptyString => false
  end.

Fixpoint drop (n : nat) (s : string) : string :=
  match n, s with
  | O, _ => s
  | S n', String _ s' => drop n' s'
  | S _, EmptyString => EmptyString
  end.

(** The longest prefix of [s] matched by [\S*]. *)
Fixpoint non_space_run (s : string) : string :=
  match s with
  | EmptyString => EmptyString
  | String c s' => if is_space c then EmptyString else String c (non_space_run s')
  end.

Definition has_line_terminator (s : string) : bool :=
  existsb is_line_terminator (list_ascii_of_string s).

Definition is_digit (c : ascii) : bool :=
  let n := nat_of_ascii c in (48 <=? n)%nat && (n <=? 57)%nat.

Fixpoint digit_run (s : string) : string :=
  match s with
  | EmptyString => EmptyString
  | String c s' => if is_digit c then String c (digit_run s') else EmptyString
  end.

Fixpoint skip_space (s : string) : string :=
  match s with
  | EmptyString => EmptyString
  | String c s' => if is_space c then skip_space s' else s
  end.

(** [parseInt(s)] in base ten: leading white space, an optional sign, then
    the longest run of digits; [NaN] when there is no digit. *)
Definition parseInt (s : string) : number :=
  let s := skip_space s in
  let '(neg, body) :=
    match s with
    | String "-" r => (true, r)
    | String "+" r => (false, r)
    | _ => (false, s)
    end in
  match digit_run body with
  | EmptyString => NaN
  | ds => match NilZero.int_of_string ds with
          | Some d => Num (if neg then - Z.of_int d else Z.of_int d)
          | None => NaN
          end
  end.

End Js.

(** ** Listeners

    The closures the source registers with d3's [on], one constructor per
    function literal, with the variables each one captures. [self] is the
    window object the closure refers to (its address in the heap of window
    objects). *)

Inductive Listener :=
  (** [e => { self.close(); }] of the [N2Window] constructor. *)
  | CloseClick (self : nat)
  (** The [mousedown] function of [_setupDrag]. *)
  | DragMouseDown (self : nat)
  (** The [mousemove] arrow function of a drag: captures [dragDiv] (the root
      of [self]), [dragStart] and the variable [newTrans]. *)
  | DragMouseMove (self : nat) (dragStart : Z * Z) (newTrans : Z * Z)
  (** The [mouseup] arrow function of a drag. *)
  | DragMouseUp (self : nat)
  (** The [mousedown] function of one resizer of [_setupResizers]: captures
      [dirs]. *)
  | ResizeMouseDown (self : nat) (dirs : list string)
  (** The [mousemove] arrow function of a resize: captures [dirs],
      [startSize], [dragStart] and the variables [newPos] and [newSize]. *)
  | ResizeMouseMove (self : nat) (dirs : list string)
      (startSize : gmap string Js.number) (dragStart : Z * Z)
      (newPos : list Js.number) (newSize : gmap string Js.number)
  (** The [mouseup] arrow function of a resize. *)
  | ResizeMouseUp (self : nat).

(** ** The DOM and the d3 selection methods the source calls *)

Module Dom.

(** [DOMRect], as [getBoundingClientRect] returns it for a layout on the
    pixel grid: the origin and the (non-negative) dimensions, whole numbers
    of pixels; [right] and [bottom] are derived. *)
Record DOMRect := mkRect { x : Z; y : Z; width : Z; height : Z }.

Definition top (r : DOMRect) : Z := y r.
Definition left (r : DOMRect) : Z := x r.
Definition right (r : DOMRect) : Z := x r + width r.
Definition bottom (r : DOMRect) : Z := y r + height r.

(** What the source reads of a mouse event ([d3.event] or [event]). *)
Record MouseEvent := mkEvent { pageX : Z; pageY : Z; clientX : Z; clientY : Z }.

(** An element: the inline style declarations, the value style sheets give
    to a property that has no inline declaration, the [class] attribute,
    its content, and the listeners d3 holds for the element by event type.
    The content is held as markup that parses to it, [innerHTML]: the
    string last given to [selection.html(value)], or the markup of the
    template. *)
Record Element := mkElement {
  style_decl : gmap string string;
  sheet : gmap string string;
  class_attr : string;
  innerHTML : string;
  listeners : gmap string Listener
}.

Definition with_style (f : gmap string string -> gmap string string) (e : Element) : Element :=
  mkElement (f (style_decl e)) (sheet e) (class_attr e) (innerHTML e) (listeners e).

Definition with_class (f : string -> string) (e : Element) : Element :=
  mkElement (style_decl e) (sheet e) (f (class_attr e)) (innerHTML e) (listeners e).

(** [selection.html(value)]: the content becomes what [value] parses to. *)
Definition with_html (h : string) (e : Element) : Element :=
  mkElement (style_decl e) (sheet e) (class_attr e) h (listeners e).

(** The characters that keep a string from being plain text of an element:
    [<] and [&] start markup and character references, the parser drops
    NUL and turns CR into LF, and the serialiser writes [>] and the
    no-break space as character references. *)
Definition is_markup_char (c : ascii) : bool :=
  let n := nat_of_ascii c in
  (n =? 60)%nat || (n =? 38)%nat || (n =? 62)%nat || (n =? 160)%nat
  || (n =? 0)%nat || (n =? 13)%nat.

Definition plain_text (s : string) : bool :=
  forallb (fun c => negb (is_markup_char c)) (list_ascii_of_string s).

(** [selection.html()]: the serialisation of the content. Of markup that
    is plain text the parser makes one text node (none of the empty
    string), which the serialiser writes back as it is. On other markup
    the model does not follow the parser: [None]. *)
Definition html (e : Element) : option string :=
  if plain_text (innerHTML e) then Some (innerHTML e) else None.

Definition with_listeners (f : gmap string Listener -> gmap string Listener) (e : Element) : Element :=
  mkElement (style_decl e) (sheet e) (class_attr e) (innerHTML e) (f (listeners e)).

(** [selection.style(name)]: the inline value, or else the computed one. *)
Definition style (name : string) (e : Element) : string :=
  match style_decl e !! name with
  | Some v => match v with "" => default "" (sheet e !! name) | _ => v end
  | None => default "" (sheet e !! name)
  end.

(** [selection.style(name, value)] for a string or number [value]: the
    declaration is recorded under [name] as it is given. This is what the
    style object of the DOM does with a longhand property and a value it
    gives back as written ([kept] below); the DOM discards a value that is
    not valid for the property, and stores a shorthand as its longhands,
    which this definition does not follow. The statements that depend on
    the difference say so by [longhand] and [kept]. *)
Definition set_style (name value : string) (e : Element) : Element :=
  with_style (insert name value) e.

(** Longhand properties no two of which share a declaration. *)
Definition longhands : list string :=
  ["top"; "right"; "bottom"; "left"; "width"; "height"; "z-index"; "cursor"].

Definition longhand (name : string) : bool :=
  existsb (String.eqb name) longhands.

(** Declarations the style object gives back as written: for the four
    offsets a whole number of pixels of at most six digits, for the two
    sizes one that is not negative, for [z-index] a whole number of at
    most six digits, each in its decimal form. *)
Definition kept (name value : string) : bool :=
  match Js.parseInt value with
  | Js.Num n =>
      (Z.abs n <=? 999999) &&
      (if existsb (String.eqb name) ["top"; "right"; "bottom"; "left"]
       then String.eqb value (Js.ToString (Js.Num n) +:+ "px")
       else if existsb (String.eqb name) ["width"; "height"]
       then (0 <=? n) && String.eqb value (Js.ToString (Js.Num n) +:+ "px")
       else if String.eqb name "z-index"
       then String.eqb value (Js.ToString (Js.Num n))
       else false)
  | Js.NaN => false
  end.

(** [selection.style(name, null)]. *)
Definition remove_style (name : string) (e : Element) : Element :=
  with_style (delete name) e.

(** ASCII whitespace, which separates the tokens of a [class] attribute. *)
Definition is_ascii_whitespace (c : ascii) : bool :=
  let n := nat_of_ascii c in
  (n =? 9)%nat || (n =? 10)%nat || (n =? 12)%nat || (n =? 13)%nat || (n =? 32)%nat.

Definition contains (t : string) (ts : list string) : bool :=
  existsb (String.eqb t) ts.

(** [classList.add(t)] and [classList.remove(t)] on a token set. *)
Definition add_token (ts : list string) (t : string) : list string :=
  if contains t ts then ts else ts ++ [t].

Definition remove_token (ts : list string) (t : string) : list string :=
  List.filter (fun u => negb (String.eqb t u)) ts.

(** The token set of [classList]: the tokens of the attribute, each one
    appended unless it is there already. *)
Definition token_set (attr : string) : list string :=
  fold_left add_token (Js.tokens is_ascii_whitespace attr) [].

(** [selection.classed(names)]: are all the names in the class list? *)
Definition classed (names : string) (e : Element) : bool :=
  forallb (fun t => contains t (token_set (class_attr e)))
          (Js.tokens Js.is_space names).

(** [selection.classed(names, value)]: add or remove every name, then
    write the token set back to the attribute. *)
Definition set_classed (names : string) (value : bool) (e : Element) : Element :=
  let names := Js.tokens Js.is_space names in
  with_class (fun attr =>
    Js.join (fold_left (if value then add_token else remove_token) names
                       (token_set attr))) e.

(** [selection.on(type, listener)] and [selection.on(type, null)]. *)
Definition on (type : string) (l : option Listener) (e : Element) : Element :=
  with_listeners (match l with
                  | Some f => insert type f
                  | None => delete type
                  end) e.

(** An element as [cloneNode] copies it: attributes and content, no
    listeners. *)
Definition cloned (e : Element) : Element :=
  with_listeners (fun _ => ∅) e.

(** A fresh [div] with the given [class] attribute. *)
Definition div (cls : string) : Element :=
  mkElement ∅ ∅ cls "" ∅.

End Dom.

(** ** The window objects *)

(** The class an object was constructed by. *)
Inductive ClassTag := Base | Draggable | Resizable.

(** What the constructor clones: the elements of the template (or of the
    window named by [cloneId]) the window keeps a reference to. *)
Record Template := mkTemplate {
  t_window : Dom.Element;
  t_header : Dom.Element;
  t_title : Dom.Element;
  t_closeButton : Dom.Element;
  t_footer : Dom.Element;
  t_contents : Dom.Element
}.

(** An instance. [_window], [_header], [_title], [_closeButton] and
    [_footer] are the selections the constructor stores ([_main] and [_body]
    are stored too, and only measured or appended to); [contents] is the
    [div.window-contents] that [theme] and [sizeToContent] select again on
    every call; [resizers] are the children of the [div.resize] that
    [_setupResizers] appends, by handle name; [min] is [this.min];
    [in_document] tells whether the root is still in the document.
    [active] is the property [move] reads: [None] is [undefined]. *)
Record N2Window := mkWindow {
  class_of : ClassTag;
  id_attr : string;
  _window : Dom.Element;
  _header : Dom.Element;
  _title : Dom.Element;
  _closeButton : Dom.Element;
  _footer : Dom.Element;
  contents : Dom.Element;
  resizers : list (string * Dom.Element);
  min : gmap string Js.number;
  active : option bool;
  in_document : bool
}.

Definition on_window (f : Dom.Element -> Dom.Element) (w : N2Window) : N2Window :=
  mkWindow (class_of w) (id_attr w) (f (_window w)) (_header w) (_title w) (_closeButton w)
           (_footer w) (contents w) (resizers w) (min w) (active w) (in_document w).

Definition on_header (f : Dom.Element -> Dom.Element) (w : N2Window) : N2Window :=
  mkWindow (class_of w) (id_attr w) (_window w) (f (_header w)) (_title w) (_closeButton w)
           (_footer w) (contents w) (resizers w) (min w) (active w) (in_document w).

Definition on_title (f : Dom.Element -> Dom.Element) (w : N2Window) : N2Window :=
  mkWindow (class_of w) (id_attr w) (_window w) (_header w) (f (_title w)) (_closeButton w)
           (_footer w) (contents w) (resizers w) (min w) (active w) (in_document w).

Definition on_closeButton (f : Dom.Element -> Dom.Element) (w : N2Window) : N2Window :=
  mkWindow (class_of w) (id_attr w) (_window w) (_header w) (_title w) (f (_closeButton w))
           (_footer w) (contents w) (resizers w) (min w) (active w) (in_document w).

Definition on_footer (f : Dom.Element -> Dom.Element) (w : N2Window) : N2Window :=
  mkWindow (class_of w) (id_attr w) (_window w) (_header w) (_title w) (_closeButton w)
           (f (_footer w)) (contents w) (resizers w) (min w) (active w) (in_document w).

Definition on_contents (f : Dom.Element -> Dom.Element) (w : N2Window) : N2Window :=
  mkWindow (class_of w) (id_attr w) (_window w) (_header w) (_title w) (_closeButton w)
           (_footer w) (f (contents w)) (resizers w) (min w) (active w) (in_document w).

Definition with_resizers (r : list (string * Dom.Element)) (w : N2Window) : N2Window :=
  mkWindow (class_of w) (id_attr w) (_window w) (_header w) (_title w) (_closeButton w)
           (_footer w) (contents w) r (min w) (active w) (in_document w).

Definition with_min (m : gmap string Js.number) (w : N2Window) : N2Window :=
  mkWindow (class_of w) (id_attr w) (_window w) (_header w) (_title w) (_closeButton w)
           (_footer w) (contents w) (resizers w) m (active w) (in_document w).

(** [selection.remove()] on the root. *)
Definition removed (w : N2Window) : N2Window :=
  mkWindow (class_of w) (id_attr w) (_window w) (_header w) (_title w) (_closeButton w)
           (_footer w) (contents w) (resizers w) (min w) (active w) false.

(** The static fields of [N2Window] that change: [zIndex], an integer
    without bound here (the source notes that the counter stays far below
    the largest [z-index] a browser accepts). [assigned] is a history
    variable, read by no operation: the values [bringToFront] has written
    to a [z-index], latest first. *)
Record Registry := mkRegistry { zIndex : Z; assigned : list Z }.

(** What a method returns: [this], a string, or nothing. [RHtml markup] is
    the string [selection.html()] returns for the content that [markup]
    parses to, where the model does not compute it. *)
Inductive Ret := RThis | RString (s : string) | RHtml (markup : string) | RUndefined.

(** What the browser measures when [_getPos] runs: the bounding rectangles
    of the container and of the root of the window. *)
Record Layout := mkLayout { parentPos : Dom.DOMRect; childPos : Dom.DOMRect }.

(** What [sizeToContent] measures. *)
Record Measures := mkMeasures {
  bodyScrollWidth : Z;
  bodyScrollHeight : Z;
  headerScrollHeight : Z;
  footerScrollHeight : Z
}.

(** ** Methods of [N2Window] *)

(** [_getPos]: the four sides of the window relative to the container. *)
Definition _getPos (l : Layout) : gmap string Js.number :=
  let parentPos := parentPos l in
  let childPos := childPos l in
  list_to_map
    [ ("top", Js.Num (Dom.top childPos - Dom.top parentPos));
      ("right", Js.Num (Dom.right parentPos - Dom.right childPos));
      ("bottom", Js.Num (Dom.bottom parentPos - Dom.bottom childPos));
      ("left", Js.Num (Dom.left childPos - Dom.left parentPos));
      ("width", Js.Num (Dom.width childPos));
      ("height", Js.Num (Dom.height childPos));
      ("parentWidth", Js.Num (Dom.width parentPos));
      ("parentHeight", Js.Num (Dom.height parentPos)) ].

(** [bringToFront(force)]. *)
Definition bringToFront (force : bool) (st : Registry * N2Window) : Registry * N2Window :=
  let '(reg, this) := st in
  if force || Js.lt (Js.StringToNumber (Dom.style "z-index" (_window this)))
                    (Js.Num (zIndex reg))
  then
    let z := zIndex reg + 1 in
    (mkRegistry z (z :: assigned reg),
     on_window (Dom.set_style "z-index" (Js.ToString (Js.Num z))) this)
  else (reg, this).

(** [get hidden]. *)
Definition hidden (this : N2Window) : bool :=
  Dom.classed "window-inactive" (_window this).

(** [set hidden(hide)]. *)
Definition set_hidden (hide : bool) (st : Registry * N2Window) : Registry * N2Window :=
  let '(reg, this) := if negb hide then bringToFront false st else st in
  (reg, on_window (Dom.set_classed "window-inactive" hide) this).

Definition show (st : Registry * N2Window) : Ret * (Registry * N2Window) :=
  (RThis, set_hidden false st).

Definition hide (st : Registry * N2Window) : Ret * (Registry * N2Window) :=
  (RThis, set_hidden true st).

(** [title(newTitle = null)]. *)
Definition title (newTitle : option string) (this : N2Window) : Ret * N2Window :=
  if Js.truthy newTitle
  then (RThis, on_title (Dom.with_html (default "" newTitle)) this)
  else (match Dom.html (_title this) with
        | Some s => RString s
        | None => RHtml (Dom.innerHTML (_title this))
        end, this).

(** The rightmost place of [s] where [window-theme-\S+] matches, and the
    text it matches there with [\S+] taken as long as possible. *)
Fixpoint last_theme_match (s : string) : option string :=
  match s with
  | EmptyString => None
  | String c s' =>
      match last_theme_match s' with
      | Some m => Some m
      | None =>
          if Js.starts_with "window-theme-" s then
            match Js.non_space_run (Js.drop 13 s) with
            | EmptyString => None
            | run => Some ("window-theme-" +:+ run)
            end
          else None
      end
  end.

(** [classes.replace(/^.*(window-theme-\S+).*$/, "$1")]: the pattern has to
    match the whole string, which a line terminator anywhere prevents; the
    greedy [.*] in front makes the group match at the rightmost place; a
    string that does not match is returned as it is. *)
Definition replace_theme (classes : string) : string :=
  if Js.has_line_terminator classes then classes
  else default classes (last_theme_match classes).

(** [theme(newTheme = null)]. *)
Definition theme (newTheme : option string) (this : N2Window) : Ret * N2Window :=
  let classes := Dom.class_attr (contents this) in
  let curTheme := replace_theme classes in
  if Js.truthy newTheme
  then (RThis,
        on_contents (fun c =>
          Dom.set_classed ("window-theme-" +:+ default "" newTheme) true
            (Dom.set_classed ("window-theme-" +:+ curTheme) false c)) this)
  else (RString curTheme, this).

(** [set(opt, val)]. *)
Definition set (opt val : string) (this : N2Window) : N2Window :=
  if String.eqb opt "title" then snd (title (Some val) this)
  else if String.eqb opt "theme" then snd (theme (Some val) this)
  else on_window (Dom.set_style opt val) this.

(** [setList(options)]: the properties of [options] in their order. *)
Definition setList (options : list (string * string)) (this : N2Window) : N2Window :=
  fold_left (fun w o => set (fst o) (snd o) w) options this.

(** [_setPos(newPos)]. *)
Definition _setPos (newPos : gmap string Js.number) (this : N2Window) : N2Window :=
  fold_left (fun w s => set s (Js.px (newPos !! s)) w)
            ["top"; "right"; "bottom"; "left"; "width"; "height"] this.

(** [close()] of [N2Window]. *)
Definition N2Window_close (this : N2Window) : N2Window :=
  removed (on_closeButton (Dom.on "click" None) this).

(** [close()] of [N2WindowDraggable], which [N2WindowResizable] inherits. *)
Definition N2WindowDraggable_close (this : N2Window) : N2Window :=
  N2Window_close (on_header (Dom.on "mousedown" None) this).

(** [this.close()], by the class of [this]. *)
Definition close (this : N2Window) : N2Window :=
  match class_of this with
  | Base => N2Window_close this
  | Draggable | Resizable => N2WindowDraggable_close this
  end.

Definition hideCloseButton (this : N2Window) : N2Window :=
  on_closeButton (Dom.set_classed "window-inactive" true) this.

Definition showCloseButton (this : N2Window) : N2Window :=
  on_closeButton (Dom.set_classed "window-inactive" false) this.

Definition showFooter (this : N2Window) : N2Window :=
  on_footer (Dom.set_classed "window-inactive" false) this.

Definition ribbonColor (color : string) (this : N2Window) : N2Window :=
  on_footer (Dom.set_style "background-color" color)
    (on_header (Dom.set_style "background-color" color) this).

(** [!this.active]. *)
Definition not_active (this : N2Window) : bool :=
  match active this with
  | Some true => false
  | _ => true
  end.

(** [move(event, offset = 15)]. [innerWidth] and [innerHeight] are those of
    the browser window; [event.clientX < window.innerWidth / 2] is compared
    after doubling both sides. *)
Definition move (event : Dom.MouseEvent) (offset : option Z) (l : Layout)
    (innerWidth innerHeight : Z) (this : N2Window) : Ret * N2Window :=
  let offset := Js.Num (default 15 offset) in
  if not_active this then (RUndefined, this)
  else
    let pos := _getPos l in
    let pos :=
      if 2 * Dom.clientX event <? innerWidth then
        let pos := <["left" := Js.add (Js.Num (Dom.pageX event)) offset]> pos in
        <["right" := Js.add (Js.rd pos "left") (Js.rd pos "width")]> pos
      else
        let pos := <["right" := Js.sub (Js.Num (Dom.pageX event)) offset]> pos in
        <["left" := Js.sub (Js.rd pos "right") (Js.rd pos "width")]> pos in
    let pos :=
      if 2 * Dom.clientY event <? innerHeight then
        let pos := <["top" := Js.add (Js.Num (Dom.pageY event)) offset]> pos in
        <["bottom" := Js.add (Js.rd pos "top") (Js.rd pos "height")]> pos
      else
        let pos := <["bottom" := Js.sub (Js.Num (Dom.pageY event)) offset]> pos in
        <["top" := Js.sub (Js.rd pos "bottom") (Js.rd pos "height")]> pos in
    (RThis, _setPos pos this).

(** [sizeToContent()]. *)
Definition sizeToContent (m : Measures) (this : N2Window) : N2Window :=
  let contentWidth := Js.Num (bodyScrollWidth m) in
  let contentHeight := Js.Num (bodyScrollHeight m) in
  let headerHeight := Js.Num (headerScrollHeight m) in
  let footerHeight :=
    if Dom.classed "window-inactive" (_footer this)
    then Js.parseInt (Dom.style "border-radius" (contents this))
    else Js.Num (footerScrollHeight m) in
  let totalHeight :=
    Js.add (Js.add (Js.add contentHeight headerHeight) footerHeight) (Js.Num 2) in
  setList [ ("width", Js.ToString contentWidth +:+ "px");
            ("height", Js.ToString totalHeight +:+ "px") ] this.

(** ** Construction *)

(** The constructor of [N2Window], for an object of class [c] allocated at
    [self]; [newId] is the [id] given to the clone (the argument, or the
    generated one). *)
Definition N2Window_constructor (c : ClassTag) (self : nat) (newId : string)
    (tpl : Template) (reg : Registry) : Registry * N2Window :=
  let this :=
    mkWindow c newId
      (Dom.cloned (t_window tpl)) (Dom.cloned (t_header tpl))
      (Dom.cloned (t_title tpl)) (Dom.cloned (t_closeButton tpl))
      (Dom.cloned (t_footer tpl)) (Dom.cloned (t_contents tpl))
      [] ∅ None true in
  let this := on_closeButton (Dom.on "click" (Some (CloseClick self))) this in
  bringToFront true (reg, this).

(** [_setupDrag()]: the header becomes the drag handle. *)
Definition _setupDrag (self : nat) (this : N2Window) : N2Window :=
  on_header (fun h =>
    Dom.on "mousedown" (Some (DragMouseDown self))
      (Dom.set_classed "window-draggable-header" true h)) this.

Definition N2WindowDraggable_constructor (c : ClassTag) (self : nat) (newId : string)
    (tpl : Template) (reg : Registry) : Registry * N2Window :=
  let '(reg, this) := N2Window_constructor c self newId tpl reg in
  (reg, _setupDrag self this).

(** [resizerClassNames], in the order of the object literal. *)
Definition resizerClassNames : list (string * string) :=
  [ ("top", "horizontal"); ("top-right", "corner"); ("right", "vertical");
    ("bottom-right", "corner"); ("bottom", "horizontal");
    ("bottom-left", "corner"); ("left", "vertical"); ("top-left", "corner") ].

(** An entry of [dirVals]. *)
Record DirVal := mkDirVal { mult : Z; idx : nat; dv_min : string }.

Definition dirVals : gmap string DirVal :=
  list_to_map
    [ ("top", mkDirVal 1 1 "height");
      ("right", mkDirVal (-1) 0 "width");
      ("bottom", mkDirVal (-1) 1 "height");
      ("left", mkDirVal 1 0 "width") ].

(** [_setupResizers()]: one [div] per handle, each with its own [mousedown]
    listener. *)
Definition _setupResizers (self : nat) (this : N2Window) : N2Window :=
  fold_left (fun w nc =>
      let name := fst nc in
      let resizer := Dom.div ("rsz-" +:+ name +:+ " rsz-" +:+ snd nc) in
      let dirs := Js.split "-" name in
      with_resizers
        (resizers w ++ [(name, Dom.on "mousedown" (Some (ResizeMouseDown self dirs)) resizer)])
        w)
    resizerClassNames this.

Definition N2WindowResizable_constructor (self : nat) (newId : string)
    (tpl : Template) (minWidth minHeight : option Z) (reg : Registry)
    : Registry * N2Window :=
  let '(reg, this) := N2WindowDraggable_constructor Resizable self newId tpl reg in
  let this :=
    with_min (list_to_map [ ("width", Js.Num (default 200 minWidth));
                            ("height", Js.Num (default 200 minHeight)) ]) this in
  (reg, _setupResizers self this).

(** [set minWidth(val)] and [set minHeight(val)]. *)
Definition set_minWidth (val : Z) (this : N2Window) : N2Window :=
  with_min (<["width" := Js.Num val]> (min this)) this.

Definition set_minHeight (val : Z) (this : N2Window) : N2Window :=
  with_min (<["height" := Js.Num val]> (min this)) this.

(** ** The resize computation *)

(** One turn of the loop over [dirs] in the [mousemove] listener of a
    resize. [None]: [dirVals] has no entry for the direction and reading
    [dv.min] raises. *)
Definition resize_dir (startSize self_min : gmap string Js.number)
    (newPos : list Js.number) (newSize : gmap string Js.number) (dir : string)
    : option (gmap string Js.number) :=
  dv ← dirVals !! dir;
  let dimLimit :=
    Js.sub (Js.add (Js.rd startSize dir) (Js.rd startSize (dv_min dv)))
           (Js.rd self_min (dv_min dv)) in
  let newVal :=
    Js.add (Js.rd startSize dir) (Js.mul (Js.rdi newPos (idx dv)) (Js.Num (mult dv))) in
  Some (<[dir := if Js.gt newVal dimLimit then dimLimit else newVal]> newSize).

Fixpoint resize_dirs (startSize self_min : gmap string Js.number)
    (newPos : list Js.number) (newSize : gmap string Js.number) (dirs : list string)
    : option (gmap string Js.number) :=
  match dirs with
  | [] => Some newSize
  | dir :: rest =>
      newSize ← resize_dir startSize self_min newPos newSize dir;
      resize_dirs startSize self_min newPos newSize rest
  end.

(** The pointer delta [newPos] of a [mousemove]. *)
Definition pointer_delta (dragStart : Z * Z) (event : Dom.MouseEvent) : list Js.number :=
  [ Js.Num (Dom.pageX event - fst dragStart); Js.Num (Dom.pageY event - snd dragStart) ].

(** The body of the [mousemove] listener of a resize up to the call of
    [_setPos]: the object [newSize] it has built. *)
Definition resize_newSize (dirs : list string) (startSize self_min : gmap string Js.number)
    (dragStart : Z * Z) (newSize : gmap string Js.number) (event : Dom.MouseEvent)
    : option (gmap string Js.number) :=
  let newPos := pointer_delta dragStart event in
  let newSize := startSize ∪ newSize in
  newSize ← resize_dirs startSize self_min newPos newSize dirs;
  let newSize :=
    <["width" := Js.sub (Js.rd startSize "parentWidth")
                        (Js.add (Js.rd newSize "right") (Js.rd newSize "left"))]> newSize in
  let newSize :=
    <["height" := Js.sub (Js.rd startSize "parentHeight")
                         (Js.add (Js.rd newSize "top") (Js.rd newSize "bottom"))]> newSize in
  Some newSize.

(** ** The process: all windows, the registry, the listeners on [window] *)

Record Process := mkProcess {
  registry : Registry;
  heap : gmap nat N2Window;
  window_listeners : gmap string Listener
}.

(** The state before any window exists: [static zIndex = 10]. *)
Definition initial : Process := mkProcess (mkRegistry 10 []) ∅ ∅.

(** Run a method that may touch the registry on the object at [self]. *)
Definition call (self : nat) (m : Registry * N2Window -> Registry * N2Window)
    (p : Process) : Process :=
  match heap p !! self with
  | Some this =>
      let '(reg, this) := m (registry p, this) in
      mkProcess reg (<[self := this]> (heap p)) (window_listeners p)
  | None => p
  end.

(** Run a method that only touches the object. *)
Definition call_on (self : nat) (m : N2Window -> N2Window) (p : Process) : Process :=
  call self (fun st => (fst st, m (snd st))) p.

(** [d3.select(window).on(type, listener)]. *)
Definition window_on (type : string) (l : option Listener) (p : Process) : Process :=
  mkProcess (registry p) (heap p)
    (match l with
     | Some f => <[type := f]> (window_listeners p)
     | None => delete type (window_listeners p)
     end).

(** The template literal of the drag transform. *)
Definition translate (t : Z * Z) : string :=
  "translate(" +:+ Js.ToString (Js.Num (fst t)) +:+ "px, "
               +:+ Js.ToString (Js.Num (snd t)) +:+ "px)".

(** Run a listener; [event] is [d3.event], [l] is what the browser would
    measure if the listener calls [_getPos]. The two [mousemove] listeners
    assign the variables of their closure ([newTrans]; [newPos] and
    [newSize]): the closure registered on [window] is replaced by the one
    holding the new values. When the loop of a resize raises, [_setPos] is
    not reached and nothing is applied. *)
Definition invoke (f : Listener) (event : Dom.MouseEvent) (l : Layout)
    (p : Process) : Process :=
  match f with
  | CloseClick self => call_on self close p
  | DragMouseDown self =>
      let p := call self (bringToFront false) p in
      let p := call_on self (fun this =>
                 on_header (Dom.set_style "cursor" "grabbing")
                   (on_window (Dom.set_style "cursor" "grabbing") this)) p in
      let dragStart := (Dom.pageX event, Dom.pageY event) in
      window_on "mouseup" (Some (DragMouseUp self))
        (window_on "mousemove" (Some (DragMouseMove self dragStart (0, 0))) p)
  | DragMouseMove self dragStart _ =>
      let newTrans := (Dom.pageX event - fst dragStart, Dom.pageY event - snd dragStart) in
      let p := call_on self (on_window (Dom.set_style "transform" (translate newTrans))) p in
      window_on "mousemove" (Some (DragMouseMove self dragStart newTrans)) p
  | DragMouseUp self =>
      let p := call_on self (_setPos (_getPos l)) p in
      let p := call_on self (fun this =>
                 on_header (Dom.set_style "cursor" "grab")
                   (on_window (Dom.remove_style "transform")
                      (on_window (Dom.set_style "cursor" "auto") this))) p in
      window_on "mouseup" None (window_on "mousemove" None p)
  | ResizeMouseDown self dirs =>
      let startSize := _getPos l in
      let p := call self (bringToFront false) p in
      let dragStart := (Dom.pageX event, Dom.pageY event) in
      window_on "mouseup" (Some (ResizeMouseUp self))
        (window_on "mousemove"
           (Some (ResizeMouseMove self dirs startSize dragStart
                    [Js.Num 0; Js.Num 0] ∅)) p)
  | ResizeMouseMove self dirs startSize dragStart _ newSize =>
      match heap p !! self with
      | Some this =>
          match resize_newSize dirs startSize (min this) dragStart newSize event with
          | Some newSize =>
              let p := call_on self (_setPos newSize) p in
              window_on "mousemove"
                (Some (ResizeMouseMove self dirs startSize dragStart
                         (pointer_delta dragStart event) newSize)) p
          | None => p
          end
      | None => p
      end
  | ResizeMouseUp _ =>
      window_on "mouseup" None (window_on "mousemove" None p)
  end.

(** Where a DOM event can be delivered. *)
Inductive Target :=
  | OnWindow
  | OnCloseButton (w : nat)
  | OnHeader (w : nat)
  | OnResizer (w : nat) (name : string).

(** The listeners d3 holds for a target. *)
Definition listeners_of (p : Process) (t : Target) : gmap string Listener :=
  match t with
  | OnWindow => window_listeners p
  | OnCloseButton w =>
      match heap p !! w with
      | Some this => Dom.listeners (_closeButton this)
      | None => ∅
      end
  | OnHeader w =>
      match heap p !! w with
      | Some this => Dom.listeners (_header this)
      | None => ∅
      end
  | OnResizer w name =>
      match heap p !! w with
      | Some this =>
          match List.find (fun r => String.eqb (fst r) name) (resizers this) with
          | Some r => Dom.listeners (snd r)
          | None => ∅
          end
      | None => ∅
      end
  end.

(** What the host application and the browser can do to the process: the
    constructors and methods of the three classes, and the delivery of a
    DOM event to an element of a window or to [window]. *)
Inductive Action :=
  | ANew (c : ClassTag) (newId : string) (tpl : Template) (minWidth minHeight : option Z)
  | ABringToFront (w : nat) (force : bool)
  | AShow (w : nat)
  | AHide (w : nat)
  | ATitle (w : nat) (newTitle : option string)
  | ATheme (w : nat) (newTheme : option string)
  | ASet (w : nat) (opt val : string)
  | ASetList (w : nat) (options : list (string * string))
  | AClose (w : nat)
  | AHideCloseButton (w : nat)
  | AShowCloseButton (w : nat)
  | AShowFooter (w : nat)
  | ARibbonColor (w : nat) (color : string)
  | AMove (w : nat) (event : Dom.MouseEvent) (offset : option Z) (l : Layout)
      (innerWidth innerHeight : Z)
  | ASizeToContent (w : nat) (m : Measures)
  | ASetMinWidth (w : nat) (val : Z)
  | ASetMinHeight (w : nat) (val : Z)
  | ADispatch (t : Target) (type : string) (event : Dom.MouseEvent) (l : Layout).

(** The address [new] gives to the next object. *)
Definition next_address (p : Process) : nat := fresh (dom (heap p)).

(** [new C(newId, cloneId, minWidth, minHeight)] for the class [c], the
    object being allocated at [self]. *)
Definition new (c : ClassTag) (self : nat) (newId : string) (tpl : Template)
    (minWidth minHeight : option Z) (reg : Registry) : Registry * N2Window :=
  match c with
  | Base => N2Window_constructor Base self newId tpl reg
  | Draggable => N2WindowDraggable_constructor Draggable self newId tpl reg
  | Resizable => N2WindowResizable_constructor self newId tpl minWidth minHeight reg
  end.

Definition construct (c : ClassTag) (newId : string) (tpl : Template)
    (minWidth minHeight : option Z) (p : Process) : Process :=
  let self := next_address p in
  let '(reg, this) := new c self newId tpl minWidth minHeight (registry p) in
  mkProcess reg (<[self := this]> (heap p)) (window_listeners p).

Definition step (p : Process) (a : Action) : Process :=
  match a with
  | ANew c newId tpl minWidth minHeight => construct c newId tpl minWidth minHeight p
  | ABringToFront w force => call w (bringToFront force) p
  | AShow w => call w (fun st => snd (show st)) p
  | AHide w => call w (fun st => snd (hide st)) p
  | ATitle w newTitle => call_on w (fun this => snd (title newTitle this)) p
  | ATheme w newTheme => call_on w (fun this => snd (theme newTheme this)) p
  | ASet w opt val => call_on w (set opt val) p
  | ASetList w options => call_on w (setList options) p
  | AClose w => call_on w close p
  | AHideCloseButton w => call_on w hideCloseButton p
  | AShowCloseButton w => call_on w showCloseButton p
  | AShowFooter w => call_on w showFooter p
  | ARibbonColor w color => call_on w (ribbonColor color) p
  | AMove w event offset l innerWidth innerHeight =>
      call_on w (fun this => snd (move event offset l innerWidth innerHeight this)) p
  | ASizeToContent w m => call_on w (sizeToContent m) p
  | ASetMinWidth w val =>
      call_on w (fun this =>
        match class_of this with Resizable => set_minWidth val this | _ => this end) p
  | ASetMinHeight w val =>
      call_on w (fun this =>
        match class_of this with Resizable => set_minHeight val this | _ => this end) p
  | ADispatch t type event l =>
      match listeners_of p t !! type with
      | Some f => invoke f event l p
      | None => p
      end
  end.

(** A history of the process. *)
Definition run (p : Process) (actions : list Action) : Process :=
  fold_left step actions p.

(** [selection.style(name)] on the root of the window at [w]. *)
Definition style_of (p : Process) (w : nat) (name : string) : option string :=
  this ← heap p !! w; Some (Dom.style name (_window this)).

(** The [z-index] of the window at [w]. *)
Definition z_index_of (p : Process) (w : nat) : option string :=
  style_of p w "z-index".

(** ** Sample data

    A template in the shape of [#window-template] and the measurements of a
    300 by 300 window at (100, 100) of a 1000 by 800 container. *)

Definition sample_template : Template :=
  mkTemplate
    (Dom.mkElement ∅ ∅ "window-inactive" "" ∅)
    (Dom.mkElement ∅ ∅ "window-header" "" ∅)
    (Dom.mkElement ∅ ∅ "window-title" "" ∅)
    (Dom.mkElement ∅ ∅ "window-close-button" "" ∅)
    (Dom.mkElement ∅ ∅ "window-footer window-inactive" "" ∅)
    (Dom.mkElement ∅ {["border-radius" := "5px"]}
                   "window-contents window-theme-light" "" ∅).

Definition sample_layout : Layout :=
  mkLayout (Dom.mkRect 0 0 1000 800) (Dom.mkRect 100 100 300 300).

(** The same container with a window 300 wide and only 100 high. *)
Definition low_layout : Layout :=
  mkLayout (Dom.mkRect 0 0 1000 800) (Dom.mkRect 100 100 300 100).

Definition mouse_at (x y : Z) : Dom.MouseEvent := Dom.mkEvent x y x y.

(** A window of [N2Window] and one of [N2WindowResizable], as [wintest]
    creates them. *)
Definition sample_base : Process :=
  run initial [ANew Base "myWin" sample_template None None].

Definition sample_resizable : Process :=
  run initial [ANew Resizable "myWin3" sample_template None None].

Definition sample_window : N2Window :=
  snd (N2Window_constructor Base 0 "myWin" sample_template (mkRegistry 10 [])).

(** ** Statements about the methods and the histories of the process *)

(** What the specification says of [title(newTitle)], for every string: it
    makes [newTitle] the content of the title and returns the window. *)
Definition title_sets_every_string : Prop :=
  forall (newTitle : string) (this : N2Window),
    fst (title (Some newTitle) this) = RThis /\
    Dom.innerHTML (_title (snd (title (Some newTitle) this))) = newTitle.

(** The theme classes of a [class] attribute. *)
Definition theme_classes (attr : string) : list string :=
  List.filter (Js.starts_with "window-theme-") (Dom.token_set attr).

(** The registry after [N2Window.zIndex++] and the write of the new value
    to a [z-index]. *)
Definition bump (reg : Registry) : Registry :=
  mkRegistry (zIndex reg + 1) (zIndex reg + 1 :: assigned reg).


(** A method [m] keeps the property [Q] of the window at an address,
    whatever the registry. *)
Definition keeps (Q : Registry -> nat -> N2Window -> Prop)
    (m : N2Window -> N2Window) : Prop :=
  forall reg w this, Q reg w this -> Q reg w (m this).

(** [Q] holds of every window of the process. *)
Definition holds (Q : Registry -> nat -> N2Window -> Prop) (p : Process) : Prop :=
  map_Forall (fun w this => Q (registry p) w this) (heap p).

(** The style properties an action writes through [set] and [setList] are
    among the [allowed] ones. *)
Definition action_allowed (allowed : string -> Prop) (a : Action) : Prop :=
  match a with
  | ASet _ opt _ => allowed opt
  | ASetList _ options => Forall (fun o => allowed (fst o)) options
  | _ => True
  end.







(** ** The resize step as the specification words it

    The names of the eight handles, the edges a handle controls, and the
    geometry of one step: for every controlled edge the candidate offset
    [startOffset + sign * delta], capped at
    [startOffset + startDimension - minDimension]; the other edges as
    captured at pointer-down; width and height derived from the container
    and the two opposite offsets. *)

Definition handles : list string := map fst resizerClassNames.

Definition controls (name dir : string) : bool :=
  existsb (String.eqb dir) (Js.split "-" name).

Definition spec_edge (name dir : string) (startOffset startDimension minDimension
    delta sign : Z) : Z :=
  if controls name dir
  then Z.min (startOffset + sign * delta) (startOffset + startDimension - minDimension)
  else startOffset.

(** The six fields of a geometry, in the order [_setPos] writes them. *)
Record Geometry := mkGeometry {
  g_top : Z; g_right : Z; g_bottom : Z; g_left : Z; g_width : Z; g_height : Z
}.

(** The offsets and dimensions [_getPos] computes, as integers. *)
Definition measured (l : Layout) : Geometry :=
  mkGeometry
    (Dom.top (childPos l) - Dom.top (parentPos l))
    (Dom.right (parentPos l) - Dom.right (childPos l))
    (Dom.bottom (parentPos l) - Dom.bottom (childPos l))
    (Dom.left (childPos l) - Dom.left (parentPos l))
    (Dom.width (childPos l))
    (Dom.height (childPos l)).

Definition spec_resize (name : string) (l0 : Layout) (minWidth minHeight : Z)
    (dragStart : Z * Z) (event : Dom.MouseEvent) : Geometry :=
  let s := measured l0 in
  let dx := Dom.pageX event - fst dragStart in
  let dy := Dom.pageY event - snd dragStart in
  let t := spec_edge name "top" (g_top s) (g_height s) minHeight dy 1 in
  let r := spec_edge name "right" (g_right s) (g_width s) minWidth dx (-1) in
  let b := spec_edge name "bottom" (g_bottom s) (g_height s) minHeight dy (-1) in
  let l := spec_edge name "left" (g_left s) (g_width s) minWidth dx 1 in
  mkGeometry t r b l
    (Dom.width (parentPos l0) - (r + l))
    (Dom.height (parentPos l0) - (t + b)).

(** The object [o] holds the six fields of [g]. *)
Definition holds_geometry (o : gmap string Js.number) (g : Geometry) : Prop :=
  o !! "top" = Some (Js.Num (g_top g)) /\
  o !! "right" = Some (Js.Num (g_right g)) /\
  o !! "bottom" = Some (Js.Num (g_bottom g)) /\
  o !! "left" = Some (Js.Num (g_left g)) /\
  o !! "width" = Some (Js.Num (g_width g)) /\
  o !! "height" = Some (Js.Num (g_height g)).

(** The inline styles of the root of [this] are those [_setPos] writes for
    [g]. *)
Definition written (this : N2Window) (g : Geometry) : Prop :=
  let style := Dom.style_decl (_window this) in
  style !! "top" = Some (Js.ToString (Js.Num (g_top g)) +:+ "px") /\
  style !! "right" = Some (Js.ToString (Js.Num (g_right g)) +:+ "px") /\
  style !! "bottom" = Some (Js.ToString (Js.Num (g_bottom g)) +:+ "px") /\
  style !! "left" = Some (Js.ToString (Js.Num (g_left g)) +:+ "px") /\
  style !! "width" = Some (Js.ToString (Js.Num (g_width g)) +:+ "px") /\
  style !! "height" = Some (Js.ToString (Js.Num (g_height g)) +:+ "px").

(** [this.min] holds the two minimum sizes. *)
Definition min_is (this : N2Window) (minWidth minHeight : Z) : Prop :=
  min this !! "width" = Some (Js.Num minWidth) /\
  min this !! "height" = Some (Js.Num minHeight).

(** A resize of the window at [w] by the handle [name] is in progress: the
    [mousemove] listener on [window] is the one the [mousedown] listener of
    that handle registered, with the geometry measured at pointer-down. *)
Definition resizing (p : Process) (w : nat) (name : string) (l0 : Layout)
    (dragStart : Z * Z) (minWidth minHeight : Z) : Prop :=
  In name handles /\
  (exists newPos newSize,
     window_listeners p !! "mousemove"
       = Some (ResizeMouseMove w (Js.split "-" name) (_getPos l0) dragStart
                 newPos newSize)) /\
  (exists this, heap p !! w = Some this /\ min_is this minWidth minHeight).

(** A drag of the window at [w] is in progress. *)
Definition dragging (p : Process) (w : nat) (dragStart : Z * Z) : Prop :=
  (exists newTrans,
     window_listeners p !! "mousemove" = Some (DragMouseMove w dragStart newTrans)) /\
  window_listeners p !! "mouseup" = Some (DragMouseUp w) /\
  is_Some (heap p !! w).

(** The width follows from the container and the horizontal offsets, the
    height from the container and the vertical ones. *)
Definition consistent (container : Dom.DOMRect) (g : Geometry) : Prop :=
  g_width g = Dom.width container - g_left g - g_right g /\
  g_height g = Dom.height container - g_top g - g_bottom g.

(** What the specification says of every resize step, for every handle
    and every geometry at pointer-down: both dimensions are at or above the
    minimum. *)
Definition resize_never_below_minimum : Prop :=
  forall (name : string) (l0 : Layout) (minWidth minHeight : Z) (dragStart : Z * Z)
         (newSize : gmap string Js.number) (event : Dom.MouseEvent),
    In name handles ->
    exists geom g,
      resize_newSize (Js.split "-" name) (_getPos l0)
        (list_to_map [("width", Js.Num minWidth); ("height", Js.Num minHeight)])
        dragStart newSize event = Some geom /\
      holds_geometry geom g /\
      minWidth <= g_width g /\ minHeight <= g_height g.

(** [this.min] as the constructor of [N2WindowResizable] leaves it by
    default. *)
Definition default_min : gmap string Js.number :=
  list_to_map [("width", Js.Num 200); ("height", Js.Num 200)].

(** The [mousemove] events of a pointer path. *)
Definition mousemoves (path : list (Dom.MouseEvent * Layout)) : list Action :=
  map (fun m => ADispatch OnWindow "mousemove" (fst m) (snd m)) path.

(** A resizable window that has been made 100 high, and the pointer going
    down on its right handle. *)
Definition low_resize : Process :=
  run initial
    [ ANew Resizable "myWin3" sample_template None None;
      ASetList 0%nat [("width", "300px"); ("height", "100px");
                      ("top", "100px"); ("left", "100px")];
      AShow 0%nat;
      ADispatch (OnResizer 0%nat "right") "mousedown" (mouse_at 400 150) low_layout ].

(** The pointer going down on the header of a draggable window. *)
Definition sample_drag : Process :=
  run initial
    [ ANew Draggable "myWin2" sample_template None None;
      AShow 0%nat;
      ADispatch (OnHeader 0%nat) "mousedown" (mouse_at 150 110) sample_layout ].

(** ** Well-formed states

    The listeners on the elements of the window at [w] are the ones its
    constructor registered (or none, once detached), each referring to [w];
    a window with resizers has its two minimum sizes. *)
Definition wf_window (w : nat) (this : N2Window) : Prop :=
  (forall type f, Dom.listeners (_closeButton this) !! type = Some f ->
                  f = CloseClick w) /\
  (forall type f, Dom.listeners (_header this) !! type = Some f ->
                  f = DragMouseDown w) /\
  Forall (fun r =>
            In (fst r) handles /\
            forall type f, Dom.listeners (snd r) !! type = Some f ->
                           f = ResizeMouseDown w (Js.split "-" (fst r)))
         (resizers this) /\
  (resizers this <> [] -> exists minWidth minHeight, min_is this minWidth minHeight).

(** The listeners on [window] are those of no interaction, of one drag or
    of one resize. *)
Definition pointer_ok (p : Process) : Prop :=
  (forall type, type <> "mousemove" -> type <> "mouseup" ->
                window_listeners p !! type = None) /\
  ((window_listeners p !! "mousemove" = None /\
    window_listeners p !! "mouseup" = None) \/
   (exists w dragStart, dragging p w dragStart) \/
   (exists w name l0 dragStart newPos newSize this,
      window_listeners p !! "mousemove"
        = Some (ResizeMouseMove w (Js.split "-" name) (_getPos l0) dragStart
                  newPos newSize) /\
      window_listeners p !! "mouseup" = Some (ResizeMouseUp w) /\
      In name handles /\
      heap p !! w = Some this /\ resizers this <> [])).

Definition wf (p : Process) : Prop :=
  holds (fun _ w this => wf_window w this) p /\ pointer_ok p.

(** ** The resize arithmetic in doubles

    The same lines of the [mousemove] listener of a resize and of
    [_getPos], on IEEE 754 doubles, which is what the source computes with
    when the rectangles are not on the pixel grid. *)

Module Double.

Local Open Scope float_scope.

Record DOMRect := mkRect { x : float; y : float; width : float; height : float }.

Definition top (r : DOMRect) : float := y r.
Definition left (r : DOMRect) : float := x r.
Definition right (r : DOMRect) : float := x r + width r.
Definition bottom (r : DOMRect) : float := y r + height r.

(** The fields of [posInfo]. *)
Record Pos := mkPos {
  p_top : float; p_right : float; p_bottom : float; p_left : float;
  p_width : float; p_height : float; p_parentWidth : float; p_parentHeight : float
}.

Definition _getPos (parentPos childPos : DOMRect) : Pos :=
  mkPos (top childPos - top parentPos) (right parentPos - right childPos)
        (bottom parentPos - bottom childPos) (left childPos - left parentPos)
        (width childPos) (height childPos) (width parentPos) (height parentPos).

(** One turn of the loop over [dirs]: the new offset of the edge that
    starts at [start], for the pointer delta [delta]. *)
Definition edge (start startDim minDim delta mult : float) : float :=
  let dimLimit := start + startDim - minDim in
  let newVal := start + delta * mult in
  if dimLimit <? newVal then dimLimit else newVal.

(** The [width] and [height] the listener of the right handle passes to
    [_setPos]: [dirs] is [right], whose entry of [dirVals] has [mult] -1,
    [idx] 0 and [min] [width]. *)
Definition right_handle (startSize : Pos) (minWidth dx : float) : float * float :=
  let newRight := edge (p_right startSize) (p_width startSize) minWidth dx (-1) in
  (p_parentWidth startSize - (newRight + p_left startSize),
   p_parentHeight startSize - (p_top startSize + p_bottom startSize)).

End Double.

(** ** Further accessors and invariants *)

(** [get minWidth] and [get minHeight] of [N2WindowResizable]: the fields
    of [this.min]; [None] is [undefined]. *)
Definition get_minWidth (this : N2Window) : option Js.number := min this !! "width".

Definition get_minHeight (this : N2Window) : option Js.number :=
  min this !! "height".

(** The window at [w] has the [click] listener of its constructor on its
    close button exactly as long as it is in the document. *)
Definition close_click_ok (w : nat) (this : N2Window) : Prop :=
  Dom.listeners (_closeButton this) !! "click"
    = if in_document this then Some (CloseClick w) else None.

(** The object after the assignment [this.active = true], which code
    outside the three classes can make. *)
Definition activated (this : N2Window) : N2Window :=
  mkWindow (class_of this) (id_attr this) (_window this) (_header this) (_title this)
           (_closeButton this) (_footer this) (contents this) (resizers this)
           (min this) (Some true) (in_document this).


(** [wintest()], run in the process [p]. The three constructors are
    called without arguments: [id1], [id2], [id3] are the ids generated for
    the clones of the template [tpl]. [body.html(content)] changes the
    body, of which the classes only read the scroll sizes: [m1], [m2],
    [m3] are what [sizeToContent] measures in each window afterwards. *)
Definition wintest (id1 id2 id3 : string) (tpl : Template) (m1 m2 m3 : Measures)
    (p : Process) : Process :=
  let myWin := next_address p in
  let p :=
    run p [ ANew Base id1 tpl None None;
            ASetList myWin
              [ ("width", "300px"); ("height", "300px");
                ("title", "This is a very, very, very, very long title indeed");
                ("top", "100px"); ("left", "10px") ];
            AShow myWin;
            ASizeToContent myWin m1 ] in
  let myWin2 := next_address p in
  let p :=
    run p [ ANew Draggable id2 tpl None None;
            ASetList myWin2
              [ ("width", "300px"); ("height", "300px"); ("title", "Draggable Window");
                ("top", "100px"); ("left", "350px") ];
            AShow myWin2;
            ASizeToContent myWin2 m2 ] in
  let myWin3 := next_address p in
  run p [ ANew Resizable id3 tpl None None;
          ASetList myWin3
            [ ("width", "300px"); ("height", "300px"); ("title", "Resizable Window");
              ("top", "100px"); ("left", "700px") ];
          AShowFooter myWin3;
          AShow myWin3;
          ASizeToContent myWin3 m3 ].

(** The two colours [ribbonColor] sets: the inline [background-color] of
    the header and of the footer. *)
Definition ribbon (this : N2Window) : option string * option string :=
  (Dom.style_decl (_header this) !! "background-color",
   Dom.style_decl (_footer this) !! "background-color").

(** The action is a call of [ribbonColor] on the window at [w]. *)
Definition is_ribbonColor (w : nat) (a : Action) : bool :=
  match a with
  | ARibbonColor w' _ => Nat.eqb w' w
  | _ => false
  end.

(** ** Options of [set] and [setList] that the style object keeps *)

(** A name [set] handles by itself, or a longhand property. *)
Definition option_name_ok (o : string * string) : bool :=
  String.eqb (fst o) "title" || String.eqb (fst o) "theme" || Dom.longhand (fst o).

(** An option whose value is found again as given: a title without
    markup, a theme, or a declaration the style object keeps. *)
Definition option_kept (o : string * string) : bool :=
  (String.eqb (fst o) "title" && Dom.plain_text (snd o))
  || String.eqb (fst o) "theme"
  || Dom.kept (fst o) (snd o).

(** The six fields of [newPos] that [_setPos] reads are numbers the style
    object keeps. *)
Definition newPos_kept (newPos : gmap string Js.number) : bool :=
  forallb (fun k => Dom.kept k (Js.px (newPos !! k)))
          ["top"; "right"; "bottom"; "left"; "width"; "height"].

(** * Properties *)

(** ** JavaScript numbers and strings *)

Lemma ToString_nonempty (z : Z) : Js.ToString (Js.Num z) <> "".
Proof.
  destruct z as [|q|q]; cbn; try discriminate.
  pose proof (Unsigned.to_uint_nonnil q) as Hq.
  destruct (Pos.to_uint q); cbn; congruence.
Qed.

Lemma StringToNumber_ToString (z : Z) :
  Js.StringToNumber (Js.ToString (Js.Num z)) = Js.Num z.
Proof.
  pose proof (ToString_nonempty z) as Hne.
  unfold Js.StringToNumber.
  destruct (Js.ToString (Js.Num z)) as [|c r] eqn:Hs; [congruence|].
  rewrite <- Hs. unfold Js.ToString.
  rewrite NilZero.isi.
  - now rewrite DecimalZ.of_to.
  - destruct z as [|q|q]; cbn; try discriminate.
    intros [= Hq]. now apply (Unsigned.to_uint_nonnil q).
  - destruct z as [|q|q]; cbn; try discriminate.
    intros [= Hq]. now apply (Unsigned.to_uint_nonnil q).
Qed.


(** ** Class lists *)

Lemma tokens_word_app (sp : ascii -> bool) (t rest : string) :
  Js.is_word sp t ->
  (rest = "" \/ exists c r, rest = String c r /\ sp c = true) ->
  Js.tokens sp (t +:+ rest) = t :: Js.tokens sp rest.
Proof.
  intros [Hne Hns] Hrest. induction t as [|c t IH]; [congruence|].
  cbn in Hns. apply andb_prop in Hns as [Hc Ht].
  apply negb_true_iff in Hc.
  destruct t as [|d t'].
  - change (String c "" +:+ rest) with (String c rest).
    destruct Hrest as [-> | (c' & r & -> & Hc')]; cbn [Js.tokens]; rewrite Hc;
      [reflexivity|now rewrite Hc'].
  - assert (Hd : sp d = false).
    { cbn in Ht. apply andb_prop in Ht as [Hd _]. now apply negb_true_iff. }
    specialize (IH ltac:(discriminate) Ht).
    change (Js.tokens sp (String c (String d t') +:+ rest))
      with (if sp c then Js.tokens sp (String d t' +:+ rest)
            else if sp d then String c EmptyString :: Js.tokens sp (String d t' +:+ rest)
                 else match Js.tokens sp (String d t' +:+ rest) with
                      | t :: r => String c t :: r
                      | [] => [String c EmptyString]
                      end).
    rewrite Hc, Hd, IH. reflexivity.
Qed.

Lemma append_empty_r (s : string) : s +:+ "" = s.
Proof.
  induction s as [|c s IH]; [reflexivity|].
  change (String c s +:+ "") with (String c (s +:+ "")). now rewrite IH.
Qed.

Lemma tokens_join (sp : ascii -> bool) (ts : list string) :
  sp " "%char = true ->
  Forall (Js.is_word sp) ts ->
  Js.tokens sp (Js.join ts) = ts.
Proof.
  intros Hsp Hall. induction Hall as [|t ts Ht Hall IH]; [reflexivity|].
  destruct ts as [|u ts].
  - cbn [Js.join]. rewrite <- (append_empty_r t) at 1.
    rewrite tokens_word_app; [reflexivity|exact Ht|now left].
  - change (Js.join (t :: u :: ts)) with (t +:+ String " " (Js.join (u :: ts))).
    rewrite tokens_word_app; [|exact Ht|right; eauto].
    f_equal. cbn [Js.tokens]. rewrite Hsp. exact IH.
Qed.

Lemma tokens_words (sp : ascii -> bool) (s : string) :
  Forall (Js.is_word sp) (Js.tokens sp s).
Proof.
  induction s as [|c s IH]; [constructor|].
  assert (Hone : sp c = false -> Js.is_word sp (String c EmptyString)).
  { intros Hc. split; [discriminate|]. cbn. now rewrite Hc. }
  destruct s as [|d s'].
  - cbn [Js.tokens]. destruct (sp c) eqn:Hc; [constructor|]. constructor; [auto|constructor].
  - change (Js.tokens sp (String c (String d s')))
      with (if sp c then Js.tokens sp (String d s')
            else if sp d then String c EmptyString :: Js.tokens sp (String d s')
                 else match Js.tokens sp (String d s') with
                      | t :: r => String c t :: r
                      | [] => [String c EmptyString]
                      end).
    destruct (sp c) eqn:Hc; [exact IH|].
    destruct (sp d) eqn:Hd; [constructor; auto|].
    destruct (Js.tokens sp (String d s')) as [|t r]; [constructor; [auto|constructor]|].
    inversion IH as [|? ? [Hne Hns] Hr]; subst. constructor; [|exact Hr].
    split; [discriminate|]. cbn. now rewrite Hc, Hns.
Qed.

Lemma contains_app (t : string) (l k : list string) :
  Dom.contains t (l ++ k) = Dom.contains t l || Dom.contains t k.
Proof. unfold Dom.contains. apply existsb_app. Qed.

Lemma contains_fold_add (t : string) (l acc : list string) :
  Dom.contains t (fold_left Dom.add_token l acc)
    = Dom.contains t acc || Dom.contains t l.
Proof.
  revert acc. induction l as [|u l IH]; intros acc; cbn [fold_left].
  - cbn. now rewrite orb_false_r.
  - rewrite IH. unfold Dom.add_token.
    destruct (Dom.contains u acc) eqn:Hu.
    + cbn [Dom.contains existsb]. fold (Dom.contains t l).
      destruct (String.eqb_spec t u) as [-> | Hne]; cbn.
      * rewrite Hu. reflexivity.
      * reflexivity.
    + rewrite contains_app. cbn [Dom.contains existsb].
      fold (Dom.contains t l) (Dom.contains t acc).
      rewrite orb_false_r, orb_assoc. reflexivity.
Qed.

Lemma contains_token_set (t attr : string) :
  Dom.contains t (Dom.token_set attr)
    = Dom.contains t (Js.tokens Dom.is_ascii_whitespace attr).
Proof. unfold Dom.token_set. now rewrite contains_fold_add. Qed.

Lemma fold_add_words (sp : ascii -> bool) (l acc : list string) :
  Forall (Js.is_word sp) l -> Forall (Js.is_word sp) acc ->
  Forall (Js.is_word sp) (fold_left Dom.add_token l acc).
Proof.
  revert acc. induction l as [|u l IH]; intros acc Hl Hacc; [exact Hacc|].
  inversion Hl; subst. cbn [fold_left]. apply IH; [assumption|].
  unfold Dom.add_token. destruct (Dom.contains u acc); [exact Hacc|].
  apply Forall_app. split; [exact Hacc|]. constructor; [assumption|constructor].
Qed.

Lemma token_set_words (attr : string) :
  Forall (Js.is_word Dom.is_ascii_whitespace) (Dom.token_set attr).
Proof.
  unfold Dom.token_set. apply fold_add_words; [apply tokens_words|constructor].
Qed.

Lemma remove_token_words (sp : ascii -> bool) (ts : list string) (t : string) :
  Forall (Js.is_word sp) ts -> Forall (Js.is_word sp) (Dom.remove_token ts t).
Proof.
  intros H. unfold Dom.remove_token.
  apply Forall_forall. intros u Hu.
  apply list_elem_of_In, filter_In in Hu as [Hu _].
  apply (proj1 (Forall_forall _ _) H). now apply list_elem_of_In.
Qed.

Lemma contains_remove_token (ts : list string) (t : string) :
  Dom.contains t (Dom.remove_token ts t) = false.
Proof.
  unfold Dom.contains, Dom.remove_token.
  induction ts as [|u ts IH]; [reflexivity|].
  cbn [List.filter]. destruct (String.eqb t u) eqn:Htu; cbn [negb]; [exact IH|].
  cbn [existsb]. now rewrite Htu, IH.
Qed.

(** After [classed(name, false)] for a single class [name], the element
    does not have the class. *)
Lemma classed_after_remove (name : string) (e : Dom.Element) :
  Js.tokens Js.is_space name = [name] ->
  Dom.classed name (Dom.set_classed name false e) = false.
Proof.
  intros Hname. unfold Dom.classed, Dom.set_classed, Dom.with_class.
  rewrite Hname. cbn [Dom.class_attr forallb fold_left].
  rewrite andb_true_r, contains_token_set, tokens_join.
  - apply contains_remove_token.
  - reflexivity.
  - apply remove_token_words, token_set_words.
Qed.

(** ** The process *)

Lemma call_on_lookup (self : nat) (m : N2Window -> N2Window) (p : Process) (this : N2Window) :
  heap p !! self = Some this ->
  call_on self m p
    = mkProcess (registry p) (<[self := m this]> (heap p)) (window_listeners p).
Proof. intros H. unfold call_on, call. rewrite H. reflexivity. Qed.

Lemma call_lookup (self : nat) (m : Registry * N2Window -> Registry * N2Window)
    (p : Process) (this : N2Window) :
  heap p !! self = Some this ->
  call self m p
    = mkProcess (fst (m (registry p, this)))
                (<[self := snd (m (registry p, this))]> (heap p)) (window_listeners p).
Proof.
  intros H. unfold call. rewrite H. destruct (m (registry p, this)). reflexivity.
Qed.

Lemma call_absent (self : nat) (m : Registry * N2Window -> Registry * N2Window)
    (p : Process) :
  heap p !! self = None -> call self m p = p.
Proof. intros H. unfold call. rewrite H. reflexivity. Qed.

(** ** The registry *)

Lemma style_set_style (name value : string) (e : Dom.Element) :
  value <> "" -> Dom.style name (Dom.set_style name value e) = value.
Proof.
  intros Hne. unfold Dom.style, Dom.set_style, Dom.with_style.
  cbn [Dom.style_decl]. rewrite lookup_insert_eq.
  destruct value; congruence.
Qed.

Lemma bringToFront_cases (force : bool) (reg : Registry) (this : N2Window) :
  bringToFront force (reg, this) = (reg, this) \/
  bringToFront force (reg, this)
    = (bump reg,
       on_window (Dom.set_style "z-index" (Js.ToString (Js.Num (zIndex reg + 1)))) this).
Proof.
  unfold bringToFront.
  destruct (force || _); [right|left]; reflexivity.
Qed.

Lemma bringToFront_force (reg : Registry) (this : N2Window) :
  bringToFront true (reg, this)
    = (bump reg,
       on_window (Dom.set_style "z-index" (Js.ToString (Js.Num (zIndex reg + 1)))) this).
Proof. reflexivity. Qed.


Lemma registry_call_on (self : nat) (m : N2Window -> N2Window) (p : Process) :
  registry (call_on self m p) = registry p.
Proof. unfold call_on, call. destruct (heap p !! self); reflexivity. Qed.

Lemma registry_window_on (type : string) (l : option Listener) (p : Process) :
  registry (window_on type l p) = registry p.
Proof. reflexivity. Qed.

Lemma registry_call_bringToFront (self : nat) (force : bool) (p : Process) :
  registry (call self (bringToFront force) p) = registry p \/
  registry (call self (bringToFront force) p) = bump (registry p).
Proof.
  unfold call. destruct (heap p !! self) as [this|]; [|now left].
  destruct (bringToFront_cases force (registry p) this) as [-> | ->]; cbn; auto.
Qed.

Lemma registry_invoke (f : Listener) (event : Dom.MouseEvent) (l : Layout) (p : Process) :
  registry (invoke f event l p) = registry p \/
  registry (invoke f event l p) = bump (registry p).
Proof.
  destruct f; cbn [invoke];
    rewrite ?registry_window_on, ?registry_call_on;
    try (now left); try apply registry_call_bringToFront.
  destruct (heap p !! self); [|now left].
  destruct (resize_newSize _ _ _ _ _ _); [|now left].
  rewrite registry_window_on, registry_call_on. now left.
Qed.

Lemma registry_step (p : Process) (a : Action) :
  registry (step p a) = registry p \/ registry (step p a) = bump (registry p).
Proof.
  destruct a; cbn [step]; rewrite ?registry_call_on; try (now left).
  - right. unfold construct.
    destruct c; unfold new, N2WindowResizable_constructor,
      N2WindowDraggable_constructor, N2Window_constructor;
      rewrite bringToFront_force; reflexivity.
  - apply registry_call_bringToFront.
  - unfold call. destruct (heap p !! w) as [this|]; [|now left].
    unfold show, set_hidden. cbn [negb snd].
    destruct (bringToFront_cases false (registry p) this) as [-> | ->]; cbn; auto.
  - unfold call. destruct (heap p !! w) as [this|]; [|now left].
    cbn. now left.
  - destruct (listeners_of p t !! type); [apply registry_invoke|now left].
Qed.

Lemma run_snoc (p : Process) (actions : list Action) (a : Action) :
  run p (actions ++ [a]) = step (run p actions) a.
Proof. unfold run. now rewrite fold_left_app. Qed.

(** An invariant of the initial state that every step preserves holds
    after every history; [ok] restricts the actions considered. *)
Lemma run_invariant (I : Process -> Prop) (ok : Action -> Prop) :
  I initial ->
  (forall p a, ok a -> I p -> I (step p a)) ->
  forall actions, Forall ok actions -> I (run initial actions).
Proof.
  intros H0 Hstep actions. induction actions as [|a actions IH] using rev_ind.
  - intros _. exact H0.
  - intros Hok. apply Forall_app in Hok as [Hok Ha].
    rewrite run_snoc. apply Hstep; [now inversion Ha|now apply IH].
Qed.



Lemma new_registry c self newId tpl minWidth minHeight (reg : Registry) :
  fst (new c self newId tpl minWidth minHeight reg) = bump reg.
Proof. destruct c; reflexivity. Qed.

Lemma call_set_hidden (self : nat) (hide : bool) (p : Process) :
  call self (set_hidden hide) p
    = call_on self (on_window (Dom.set_classed "window-inactive" hide))
        (if hide then p else call self (bringToFront false) p).
Proof.
  unfold call_on, call, set_hidden.
  destruct (heap p !! self) as [this|] eqn:Hs.
  - destruct hide; cbn [negb].
    + rewrite Hs. reflexivity.
    + destruct (bringToFront false (registry p, this)) as [reg this'].
      cbn [heap registry window_listeners]. rewrite lookup_insert_eq.
      cbn [fst snd]. now rewrite insert_insert_eq.
  - destruct hide; rewrite Hs; reflexivity.
Qed.

(** ** Invariants of the windows

    A property [Q] of the window at an address, relative to the registry,
    that the constructors establish and the updates made by the methods and
    the listeners keep, is kept by every step. [allowed] tells to which
    style properties of the root a write keeps [Q]; [unused] tells for which
    addresses the constructors establish [Q]. *)

Section Preservation.

Variable Q : Registry -> nat -> N2Window -> Prop.
Variable allowed : string -> Prop.
Variable unused : nat -> Prop.

Hypothesis allowed_internal :
  Forall allowed
    ["top"; "right"; "bottom"; "left"; "width"; "height"; "cursor"; "transform"].
Hypothesis Q_bump : forall reg w this, Q reg w this -> Q (bump reg) w this.
Hypothesis Q_z_index : forall reg w this,
  Q reg w this ->
  Q (bump reg) w
    (on_window (Dom.set_style "z-index" (Js.ToString (Js.Num (zIndex reg + 1)))) this).
Hypothesis Q_new : forall c self newId tpl minWidth minHeight reg,
  unused self ->
  Q (bump reg) self (snd (new c self newId tpl minWidth minHeight reg)).
Hypothesis Q_style : forall k v, allowed k -> keeps Q (on_window (Dom.set_style k v)).
Hypothesis Q_unstyle : forall k, allowed k -> keeps Q (on_window (Dom.remove_style k)).
Hypothesis Q_classed : forall n b, keeps Q (on_window (Dom.set_classed n b)).
Hypothesis Q_header_style : forall k v, keeps Q (on_header (Dom.set_style k v)).
Hypothesis Q_header_off : keeps Q (on_header (Dom.on "mousedown" None)).
Hypothesis Q_title : forall f, keeps Q (on_title f).
Hypothesis Q_closeButton_off : keeps Q (on_closeButton (Dom.on "click" None)).
Hypothesis Q_closeButton_classed :
  forall n b, keeps Q (on_closeButton (Dom.set_classed n b)).
Hypothesis Q_footer : forall f, keeps Q (on_footer f).
Hypothesis Q_contents : forall f, keeps Q (on_contents f).
Hypothesis Q_set_minWidth : forall val, keeps Q (set_minWidth val).
Hypothesis Q_set_minHeight : forall val, keeps Q (set_minHeight val).
Hypothesis Q_removed : keeps Q removed.

Lemma keeps_compose (f g : N2Window -> N2Window) :
  keeps Q f -> keeps Q g -> keeps Q (fun this => f (g this)).
Proof. intros Hf Hg reg w this H. apply Hf, Hg, H. Qed.

Lemma keeps_title (newTitle : option string) :
  keeps Q (fun this => snd (title newTitle this)).
Proof.
  intros reg w this H. unfold title.
  destruct (Js.truthy newTitle); cbn [snd]; [now apply Q_title|exact H].
Qed.

Lemma keeps_theme (newTheme : option string) :
  keeps Q (fun this => snd (theme newTheme this)).
Proof.
  intros reg w this H. unfold theme.
  destruct (Js.truthy newTheme); cbn [snd]; [now apply Q_contents|exact H].
Qed.

Lemma keeps_set (opt val : string) : allowed opt -> keeps Q (set opt val).
Proof.
  intros Ha reg w this H. unfold set.
  destruct (String.eqb opt "title"); [now apply keeps_title|].
  destruct (String.eqb opt "theme"); [now apply keeps_theme|].
  now apply Q_style.
Qed.

Lemma keeps_setList (options : list (string * string)) :
  Forall (fun o => allowed (fst o)) options -> keeps Q (setList options).
Proof.
  unfold setList. induction options as [|o options IH]; intros Hall reg w this H.
  - exact H.
  - inversion Hall; subst. cbn [fold_left].
    apply IH; [assumption|]. now apply keeps_set.
Qed.

Lemma allowed_of_internal (k : string) :
  k ∈ ["top"; "right"; "bottom"; "left"; "width"; "height"; "cursor"; "transform"] ->
  allowed k.
Proof. apply (proj1 (Forall_forall _ _) allowed_internal). Qed.

Lemma keeps__setPos (newPos : gmap string Js.number) : keeps Q (_setPos newPos).
Proof.
  intros reg w this H. unfold _setPos. cbn [fold_left].
  repeat (apply keeps_set;
          [apply allowed_of_internal; repeat (first [left; reflexivity | right])|]).
  exact H.
Qed.

Lemma keeps_close : keeps Q close.
Proof.
  intros reg w this H. unfold close, N2WindowDraggable_close, N2Window_close.
  destruct (class_of this);
    repeat first [apply Q_removed | apply Q_closeButton_off | apply Q_header_off];
    exact H.
Qed.

Lemma keeps_move event offset l innerWidth innerHeight :
  keeps Q (fun this => snd (move event offset l innerWidth innerHeight this)).
Proof.
  intros reg w this H. unfold move.
  destruct (not_active this); cbn [snd]; [exact H|].
  now apply keeps__setPos.
Qed.

Lemma keeps_sizeToContent (m : Measures) : keeps Q (sizeToContent m).
Proof.
  intros reg w this H. unfold sizeToContent.
  apply keeps_setList; [|exact H].
  repeat constructor; cbn [fst];
    apply allowed_of_internal; repeat (first [left; reflexivity | right]).
Qed.

Lemma holds_window_on (type : string) (l : option Listener) (p : Process) :
  holds Q p -> holds Q (window_on type l p).
Proof. intros H. exact H. Qed.

Lemma holds_call_on (self : nat) (m : N2Window -> N2Window) (p : Process) :
  keeps Q m -> holds Q p -> holds Q (call_on self m p).
Proof.
  intros Hm H. unfold call_on, call.
  destruct (heap p !! self) as [this|] eqn:Hs; [|exact H].
  unfold holds. cbn [fst snd registry heap].
  apply map_Forall_insert_2; [|exact H].
  apply Hm. exact (H _ _ Hs).
Qed.

Lemma holds_bump (p : Process) (self : nat) (this : N2Window) :
  holds Q p -> heap p !! self = Some this ->
  holds Q (mkProcess (bump (registry p))
             (<[self := on_window (Dom.set_style "z-index"
                          (Js.ToString (Js.Num (zIndex (registry p) + 1)))) this]> (heap p))
             (window_listeners p)).
Proof.
  intros H Hs. unfold holds. cbn [registry heap].
  apply map_Forall_insert_2; [apply Q_z_index; exact (H _ _ Hs)|].
  intros w' this' Hw'. apply Q_bump. exact (H _ _ Hw').
Qed.

Lemma holds_bringToFront (self : nat) (force : bool) (p : Process) :
  holds Q p -> holds Q (call self (bringToFront force) p).
Proof.
  intros H. unfold call.
  destruct (heap p !! self) as [this|] eqn:Hs; [|exact H].
  destruct (bringToFront_cases force (registry p) this) as [-> | ->].
  - unfold holds. cbn [registry heap].
    apply map_Forall_insert_2; [exact (H _ _ Hs)|exact H].
  - now apply holds_bump.
Qed.

Lemma holds_set_hidden (self : nat) (hide : bool) (p : Process) :
  holds Q p -> holds Q (call self (set_hidden hide) p).
Proof.
  intros H. rewrite call_set_hidden.
  apply holds_call_on; [apply Q_classed|].
  destruct hide; [exact H|now apply holds_bringToFront].
Qed.

Lemma holds_construct c newId tpl minWidth minHeight (p : Process) :
  unused (next_address p) ->
  holds Q p -> holds Q (construct c newId tpl minWidth minHeight p).
Proof.
  intros Hu H. unfold construct.
  pose proof (Q_new c (next_address p) newId tpl minWidth minHeight (registry p) Hu)
    as Hnew.
  pose proof (new_registry c (next_address p) newId tpl minWidth minHeight (registry p))
    as Hreg.
  destruct (new c (next_address p) newId tpl minWidth minHeight (registry p))
    as [reg this]. cbn [fst snd] in Hnew, Hreg. subst reg.
  unfold holds. cbn [registry heap]. apply map_Forall_insert_2; [exact Hnew|].
  intros w' this' Hw'. apply Q_bump. exact (H _ _ Hw').
Qed.

Lemma holds_invoke (f : Listener) (event : Dom.MouseEvent) (l : Layout) (p : Process) :
  holds Q p -> holds Q (invoke f event l p).
Proof.
  intros H. destruct f; cbn [invoke].
  - apply holds_call_on; [apply keeps_close|exact H].
  - do 2 apply holds_window_on. apply holds_call_on.
    + apply (keeps_compose (on_header _) (on_window _));
        [apply Q_header_style|apply Q_style, allowed_of_internal].
      repeat (first [left; reflexivity | right]).
    + now apply holds_bringToFront.
  - apply holds_window_on, holds_call_on; [|exact H].
    apply Q_style, allowed_of_internal. repeat (first [left; reflexivity | right]).
  - do 2 apply holds_window_on. apply holds_call_on.
    + apply (keeps_compose (on_header _) (fun this => on_window _ (on_window _ this)));
        [apply Q_header_style|].
      apply (keeps_compose (on_window _) (on_window _));
        [apply Q_unstyle|apply Q_style]; apply allowed_of_internal;
        repeat (first [left; reflexivity | right]).
    + apply holds_call_on; [apply keeps__setPos|exact H].
  - do 2 apply holds_window_on. now apply holds_bringToFront.
  - destruct (heap p !! self); [|exact H].
    destruct (resize_newSize _ _ _ _ _ _); [|exact H].
    apply holds_window_on, holds_call_on; [apply keeps__setPos|exact H].
  - exact H.
Qed.

Lemma holds_step (p : Process) (a : Action) :
  unused (next_address p) ->
  action_allowed allowed a -> holds Q p -> holds Q (step p a).
Proof.
  intros Hu Ha H. destruct a; cbn [step].
  - now apply holds_construct.
  - now apply holds_bringToFront.
  - now apply (holds_set_hidden w false).
  - now apply (holds_set_hidden w true).
  - apply holds_call_on; [apply keeps_title|exact H].
  - apply holds_call_on; [apply keeps_theme|exact H].
  - apply holds_call_on; [now apply keeps_set|exact H].
  - apply holds_call_on; [now apply keeps_setList|exact H].
  - apply holds_call_on; [apply keeps_close|exact H].
  - apply holds_call_on; [apply Q_closeButton_classed|exact H].
  - apply holds_call_on; [apply Q_closeButton_classed|exact H].
  - apply holds_call_on; [apply Q_footer|exact H].
  - apply holds_call_on; [|exact H].
    apply (keeps_compose (on_footer _) (on_header _));
      [apply Q_footer|apply Q_header_style].
  - apply holds_call_on; [apply keeps_move|exact H].
  - apply holds_call_on; [apply keeps_sizeToContent|exact H].
  - apply holds_call_on; [|exact H].
    intros reg w' this Hq. destruct (class_of this); try exact Hq.
    now apply Q_set_minWidth.
  - apply holds_call_on; [|exact H].
    intros reg w' this Hq. destruct (class_of this); try exact Hq.
    now apply Q_set_minHeight.
  - destruct (listeners_of p t !! type); [now apply holds_invoke|exact H].
Qed.

Lemma holds_run (actions : list Action) :
  (forall self, unused self) ->
  Forall (action_allowed allowed) actions -> holds Q (run initial actions).
Proof.
  intros Hu. apply (run_invariant (holds Q) (action_allowed allowed)).
  - unfold holds. cbn. apply map_Forall_empty.
  - intros p a. apply holds_step, Hu.
Qed.

End Preservation.

(** ** [title] *)

(** C8 (as amended). For every non-empty string [newTitle],
    [title(newTitle)] makes [newTitle] the markup of the title and returns
    the window. When [newTitle] is plain text (it has none of [<], [&],
    [>], the no-break space, NUL and CR), [title()] then returns
    [newTitle]; for other strings it returns the serialisation of what the
    markup parses to, which need not be [newTitle]. [title()], and [title]
    of the empty string, never change the window, and return the same:
    the serialisation of the current title. *)
Theorem title_sets_non_empty (newTitle : string) (this : N2Window) :
  newTitle <> "" ->
  title (Some newTitle) this = (RThis, on_title (Dom.with_html newTitle) this) /\
  (Dom.plain_text newTitle = true ->
   title None (snd (title (Some newTitle) this))
     = (RString newTitle, snd (title (Some newTitle) this))) /\
  (Dom.plain_text newTitle = false ->
   title None (snd (title (Some newTitle) this))
     = (RHtml newTitle, snd (title (Some newTitle) this))) /\
  snd (title None this) = this /\
  title (Some "") this = title None this /\
  (forall s, Dom.html (_title this) = Some s -> title None this = (RString s, this)).
Proof.
  intros Hne.
  assert (Hset : title (Some newTitle) this
                 = (RThis, on_title (Dom.with_html newTitle) this)).
  { unfold title. destruct newTitle as [|c r]; [congruence|reflexivity]. }
  rewrite Hset. cbn [snd]. split; [reflexivity|].
  unfold title. cbn [Js.truthy snd on_title _title]. unfold Dom.html.
  cbn [Dom.with_html Dom.innerHTML].
  split; [intros ->; reflexivity|]. split; [intros ->; reflexivity|].
  split; [reflexivity|]. split; [reflexivity|].
  intros s Hs. now rewrite Hs.
Qed.

Lemma title_sets_non_empty_witness :
  "Resizable Window" <> "" /\
  Dom.plain_text "Resizable Window" = true /\
  title (Some "Resizable Window") sample_window
    = (RThis, on_title (Dom.with_html "Resizable Window") sample_window) /\
  title None (snd (title (Some "Resizable Window") sample_window))
    = (RString "Resizable Window", snd (title (Some "Resizable Window") sample_window)).
Proof.
  assert (Hne : "Resizable Window" <> "") by discriminate.
  split; [exact Hne|]. split; [reflexivity|].
  destruct (title_sets_non_empty "Resizable Window" sample_window Hne)
    as (Hset & Hget & _).
  split; [exact Hset|exact (Hget eq_refl)].
Defined.

(** A title with an ampersand is markup: the model does not say that
    [title()] returns it as it was given. *)
Example title_of_markup :
  Dom.plain_text "A & B" = false /\
  fst (title None (snd (title (Some "A & B") sample_window))) = RHtml "A & B".
Proof. split; reflexivity. Qed.

(** C8, the counterexample: the empty string is falsy, so [title("")] is
    the getter; it returns the current title, not the window, and stores
    nothing. *)
Lemma title_empty_string_is_getter : ~ title_sets_every_string.
Proof.
  intros H. destruct (H "" sample_window) as [Hret _].
  vm_compute in Hret. discriminate.
Qed.

(** ** [theme] *)

(** C4, at the failing input. The pattern captures the whole class name
    [window-theme-light], to which [theme] prepends [window-theme-] once
    more: the class it removes is not in the list, the previous theme class
    stays, and two theme classes are present afterwards. *)
Theorem theme_keeps_previous_class :
  let this := sample_window in
  Dom.class_attr (contents this) = "window-contents window-theme-light" /\
  fst (theme None this) = RString "window-theme-light" /\
  Dom.class_attr (contents (snd (theme (Some "dark") this)))
    = "window-contents window-theme-light window-theme-dark" /\
  theme_classes (Dom.class_attr (contents (snd (theme (Some "dark") this))))
    = ["window-theme-light"; "window-theme-dark"].
Proof. vm_compute. repeat split. Qed.

Lemma non_space_run_no_sep (s : string) :
  Js.no_sep Js.is_space (Js.non_space_run s) = true.
Proof.
  induction s as [|c s IH]; [reflexivity|].
  cbn [Js.non_space_run]. destruct (Js.is_space c) eqn:Hc; [reflexivity|].
  cbn [Js.no_sep]. now rewrite Hc, IH.
Qed.

(** What the pattern captures is [window-theme-] followed by at least one
    character, none of them white space. *)
Lemma last_theme_match_shape (s m : string) :
  last_theme_match s = Some m ->
  exists run, m = "window-theme-" +:+ run /\ run <> "" /\
              Js.no_sep Js.is_space run = true.
Proof.
  induction s as [|c s IH]; [discriminate|].
  cbn [last_theme_match]. destruct (last_theme_match s) as [m'|].
  - intros [= <-]. now apply IH.
  - destruct (Js.starts_with "window-theme-" (String c s)); [|discriminate].
    pose proof (non_space_run_no_sep (Js.drop 13 (String c s))) as Hrun.
    destruct (Js.non_space_run (Js.drop 13 (String c s))) as [|d r] eqn:Hr;
      [discriminate|].
    intros [= <-]. exists (String d r). repeat split; [discriminate|exact Hrun].
Qed.

Lemma no_sep_app (sp : ascii -> bool) (a b : string) :
  Js.no_sep sp (a +:+ b) = Js.no_sep sp a && Js.no_sep sp b.
Proof.
  induction a as [|c a IH]; [reflexivity|].
  change (String c a +:+ b) with (String c (a +:+ b)).
  cbn [Js.no_sep]. now rewrite IH, andb_assoc.
Qed.

Lemma tokens_single (sp : ascii -> bool) (t : string) :
  Js.is_word sp t -> Js.tokens sp t = [t].
Proof.
  intros H. rewrite <- (append_empty_r t) at 1.
  rewrite tokens_word_app; [reflexivity|exact H|now left].
Qed.

Lemma ascii_whitespace_is_space (c : ascii) :
  Dom.is_ascii_whitespace c = true -> Js.is_space c = true.
Proof.
  unfold Dom.is_ascii_whitespace, Js.is_space.
  generalize (nat_of_ascii c). intros n H.
  repeat (apply orb_prop in H as [H | H]); apply Nat.eqb_eq in H; subst; reflexivity.
Qed.

Lemma word_ascii (t : string) :
  Js.is_word Js.is_space t -> Js.is_word Dom.is_ascii_whitespace t.
Proof.
  intros [Hne Hns]. split; [exact Hne|]. clear Hne.
  induction t as [|c t IH]; [reflexivity|].
  cbn [Js.no_sep] in *. apply andb_prop in Hns as [Hc Ht].
  rewrite (IH Ht), andb_true_r.
  destruct (Dom.is_ascii_whitespace c) eqn:Hw; [|reflexivity].
  apply ascii_whitespace_is_space in Hw. now rewrite Hw in Hc.
Qed.

Lemma contains_token_set_join (t : string) (ts : list string) :
  Forall (Js.is_word Dom.is_ascii_whitespace) ts ->
  Dom.contains t (Dom.token_set (Js.join ts)) = Dom.contains t ts.
Proof.
  intros H. rewrite contains_token_set, tokens_join; [reflexivity|reflexivity|exact H].
Qed.

Lemma contains_remove_other (ts : list string) (t u : string) :
  t <> u -> Dom.contains t (Dom.remove_token ts u) = Dom.contains t ts.
Proof.
  intros Hne. unfold Dom.contains, Dom.remove_token.
  induction ts as [|v ts IH]; [reflexivity|].
  cbn [List.filter existsb].
  destruct (String.eqb_spec u v) as [<- | Huv]; cbn [negb].
  - rewrite IH. destruct (String.eqb_spec t u); [congruence|reflexivity].
  - cbn [existsb]. now rewrite IH.
Qed.

Lemma append_length (a b : string) :
  String.length (a +:+ b) = (String.length a + String.length b)%nat.
Proof.
  induction a as [|c a IH]; [reflexivity|].
  change (String c a +:+ b) with (String c (a +:+ b)). cbn. now rewrite IH.
Qed.

Lemma classed_word (t : string) (e : Dom.Element) :
  Js.is_word Js.is_space t ->
  Dom.classed t e = Dom.contains t (Dom.token_set (Dom.class_attr e)).
Proof.
  intros H. unfold Dom.classed. rewrite (tokens_single _ _ H).
  cbn [forallb]. apply andb_true_r.
Qed.

(** One class removed, then the classes of [names] added: a class other
    than the one removed is still there. *)
Lemma classed_after_replace (t removed names : string) (e : Dom.Element) :
  Js.is_word Js.is_space t ->
  Js.is_word Js.is_space removed ->
  t <> removed ->
  Dom.classed t e = true ->
  Dom.classed t (Dom.set_classed names true (Dom.set_classed removed false e)) = true.
Proof.
  intros Ht Hr Hne Hin. rewrite classed_word in * by exact Ht.
  unfold Dom.set_classed, Dom.with_class. cbn [Dom.class_attr].
  rewrite (tokens_single _ _ Hr). cbn [fold_left].
  rewrite contains_token_set_join.
  - rewrite contains_fold_add, contains_token_set_join.
    + rewrite contains_remove_other by exact Hne. now rewrite Hin.
    + apply remove_token_words, token_set_words.
  - apply fold_add_words; [|apply token_set_words].
    eapply Forall_impl; [apply tokens_words|]. apply word_ascii.
Qed.

(** The same in general. Whenever the pattern matches the class list, the
    class it captures, [cur], is what the getter returns, and [theme] with a
    new theme removes [window-theme-] followed by [cur], not [cur]: if
    [cur] is a class of the element before the call, it still is after it. *)
Theorem theme_never_removes_captured_class (newTheme cur : string) (this : N2Window) :
  newTheme <> "" ->
  Js.has_line_terminator (Dom.class_attr (contents this)) = false ->
  last_theme_match (Dom.class_attr (contents this)) = Some cur ->
  Dom.classed cur (contents this) = true ->
  fst (theme None this) = RString cur /\
  fst (theme (Some newTheme) this) = RThis /\
  Dom.classed cur (contents (snd (theme (Some newTheme) this))) = true.
Proof.
  intros Hnew Hlt Hm Hin.
  assert (Hcur : replace_theme (Dom.class_attr (contents this)) = cur).
  { unfold replace_theme. now rewrite Hlt, Hm. }
  destruct (last_theme_match_shape _ _ Hm) as (run & -> & Hrun & Hns).
  unfold theme. rewrite Hcur.
  destruct newTheme as [|c r]; [congruence|]. cbn [Js.truthy fst snd].
  split; [reflexivity|]. split; [reflexivity|].
  cbn [on_contents contents].
  apply classed_after_replace.
  - split; [discriminate|]. rewrite no_sep_app. now rewrite Hns.
  - split; [discriminate|]. rewrite !no_sep_app. now rewrite Hns.
  - intros Heq. apply (f_equal String.length) in Heq.
    rewrite !append_length in Heq. cbn in Heq. lia.
  - exact Hin.
Qed.

Lemma theme_never_removes_captured_class_witness :
  "dark" <> "" /\
  Dom.classed "window-theme-light" (contents sample_window) = true /\
  Dom.classed "window-theme-light"
    (contents (snd (theme (Some "dark") sample_window))) = true.
Proof.
  split; [discriminate|]. split; [vm_compute; reflexivity|].
  apply (theme_never_removes_captured_class "dark" "window-theme-light" sample_window);
    [discriminate|vm_compute; reflexivity..].
Defined.

(** ** [close] *)

(** C9, at the failing input: a resizable window that is created and
    closed. [close] is the one [N2WindowDraggable] defines: it detaches the
    [click] listener of the close button and the [mousedown] listener of the
    header and removes the root, but the [mousedown] listeners of the eight
    resizers, which refer to the window, stay registered. *)
Theorem close_leaves_resizer_listeners (p : Process) (newId : string) (tpl : Template)
    (minWidth minHeight : option Z) :
  let self := next_address p in
  let p' := step (step p (ANew Resizable newId tpl minWidth minHeight)) (AClose self) in
  (exists this, heap p' !! self = Some this /\ in_document this = false) /\
  listeners_of p' (OnCloseButton self) !! "click" = None /\
  listeners_of p' (OnHeader self) !! "mousedown" = None /\
  Forall (fun name =>
            listeners_of p' (OnResizer self name) !! "mousedown"
              = Some (ResizeMouseDown self (Js.split "-" name)))
         handles.
Proof.
  intros self p'. subst p'. cbn [step]. unfold construct, new. fold self.
  destruct (N2WindowResizable_constructor self newId tpl minWidth minHeight (registry p))
    as [reg this] eqn:Hc.
  erewrite call_on_lookup by (cbn [heap]; apply lookup_insert_eq).
  unfold listeners_of. cbn [heap]. rewrite !lookup_insert_eq.
  unfold N2WindowResizable_constructor, N2WindowDraggable_constructor,
    N2Window_constructor, bringToFront in Hc.
  cbn [orb] in Hc. injection Hc as <- <-.
  split; [eexists; split; reflexivity|].
  unfold close, N2WindowDraggable_close, N2Window_close, _setupResizers, _setupDrag.
  cbn [class_of with_min with_resizers fold_left resizerClassNames on_header
       on_closeButton removed _closeButton _header resizers fst snd app on_window].
  split; [apply lookup_delete_eq|].
  split; [apply lookup_delete_eq|].
  repeat constructor; vm_compute; reflexivity.
Qed.

(** The listener left behind can still be run: a [mousedown] delivered to
    a resizer of the closed window starts a resize of that window. *)
Example closed_window_resizer_runs :
  let p := run sample_resizable [AClose 0%nat] in
  (exists this, heap p !! 0%nat = Some this /\ in_document this = false) /\
  resizing (step p (ADispatch (OnResizer 0%nat "bottom-right") "mousedown"
                      (mouse_at 400 400) sample_layout))
    0%nat "bottom-right" sample_layout (400, 400) 200 200.
Proof.
  split; [eexists; split; vm_compute; reflexivity|].
  split; [vm_compute; tauto|]. split.
  - do 2 eexists. vm_compute. reflexivity.
  - eexists. split; [vm_compute; reflexivity|]. split; vm_compute; reflexivity.
Qed.

(** For the other two classes [close] leaves no listener on an element of
    the window. *)
Lemma close_detaches_base_and_draggable (p : Process) (c : ClassTag) (newId : string)
    (tpl : Template) (minWidth minHeight : option Z) (name : string) :
  c <> Resizable ->
  let self := next_address p in
  let p' := step (step p (ANew c newId tpl minWidth minHeight)) (AClose self) in
  listeners_of p' (OnCloseButton self) = ∅ /\
  listeners_of p' (OnHeader self) = ∅ /\
  listeners_of p' (OnResizer self name) = ∅.
Proof.
  intros Hc self p'. subst p'. cbn [step]. unfold construct. fold self.
  destruct c; [| |congruence];
    unfold new, N2WindowDraggable_constructor, N2Window_constructor;
    rewrite bringToFront_force;
    (erewrite call_on_lookup by (cbn [heap]; apply lookup_insert_eq));
    unfold listeners_of; cbn [heap]; rewrite !lookup_insert_eq;
    unfold close, N2WindowDraggable_close, N2Window_close, _setupDrag;
    cbn; rewrite ?delete_insert_eq, ?delete_empty; auto.
Qed.

(** ** [move] *)

Lemma every_action_allowed (actions : list Action) :
  Forall (action_allowed (fun _ => True)) actions.
Proof.
  apply Forall_forall. intros a _. destruct a; cbn; trivial.
  apply Forall_forall. trivial.
Qed.

(** No constructor and no method gives a window the property [active]. *)
Lemma active_undefined (actions : list Action) :
  holds (fun _ _ this => active this = None) (run initial actions).
Proof.
  apply (holds_run (fun _ _ this => active this = None) (fun _ => True) (fun _ => True));
    try (intros; intros ? ? ? ?; assumption); try (intros; assumption);
    try (repeat constructor).
  - intros c self newId tpl minWidth minHeight reg _. destruct c; reflexivity.
  - apply every_action_allowed.
Qed.

(** C10. After any history of the process, [move(event, offset)] on any
    window returns [undefined] and leaves the whole process as it is: the
    guard [!this.active] reads a property no code of the three classes
    assigns. *)
Theorem move_never_relocates (actions : list Action) (w : nat)
    (event : Dom.MouseEvent) (offset : option Z) (l : Layout)
    (innerWidth innerHeight : Z) :
  let p := run initial actions in
  step p (AMove w event offset l innerWidth innerHeight) = p /\
  forall this, heap p !! w = Some this ->
    move event offset l innerWidth innerHeight this = (RUndefined, this).
Proof.
  intros p.
  assert (Hmove : forall this, heap p !! w = Some this ->
            move event offset l innerWidth innerHeight this = (RUndefined, this)).
  { intros this Hw. pose proof (active_undefined actions _ _ Hw) as Ha.
    cbn in Ha. unfold move, not_active. now rewrite Ha. }
  split; [|exact Hmove].
  cbn [step]. destruct (heap p !! w) as [this|] eqn:Hw.
  - rewrite (call_on_lookup _ _ _ _ Hw), (Hmove _ eq_refl). cbn [snd].
    rewrite (insert_id _ _ _ Hw). now destruct p.
  - unfold call_on. now apply call_absent.
Qed.

Lemma move_never_relocates_sample :
  move (mouse_at 10 10) None sample_layout 1000 800 sample_window
    = (RUndefined, sample_window).
Proof.
  apply (proj2 (move_never_relocates [ANew Base "myWin" sample_template None None]
                  0%nat (mouse_at 10 10) None sample_layout 1000 800)).
  vm_compute. reflexivity.
Defined.

(** ** [bringToFront] and [show] *)

Lemma style_inline (name value : string) (e : Dom.Element) :
  Dom.style_decl e !! name = Some value -> value <> "" -> Dom.style name e = value.
Proof.
  intros H Hne. unfold Dom.style. rewrite H. destruct value; congruence.
Qed.









(** ** The resize step *)

Lemma getPos_holds (l : Layout) : holds_geometry (_getPos l) (measured l).
Proof. repeat split. Qed.

Lemma getPos_parent (l : Layout) :
  _getPos l !! "parentWidth" = Some (Js.Num (Dom.width (parentPos l))) /\
  _getPos l !! "parentHeight" = Some (Js.Num (Dom.height (parentPos l))).
Proof. split; reflexivity. Qed.

Lemma lookup_union_start (startSize newSize : gmap string Js.number)
    (k : string) (v : Js.number) :
  startSize !! k = Some v -> (startSize ∪ newSize) !! k = Some v.
Proof. intros H. now apply lookup_union_Some_l. Qed.

Lemma gt_min (a b : Z) :
  (if Js.gt (Js.Num a) (Js.Num b) then Js.Num b else Js.Num a) = Js.Num (Z.min a b).
Proof.
  cbn. destruct (Z.ltb_spec b a); f_equal; lia.
Qed.

Ltac eval_split :=
  repeat match goal with
  | |- context [Js.split ?a ?n] =>
      let v := eval vm_compute in (Js.split a n) in
      change (Js.split a n) with v
  end.

Ltac eval_dirVals :=
  repeat match goal with
  | |- context [dirVals !! ?d] =>
      let v := eval vm_compute in (dirVals !! d) in
      change (dirVals !! d) with v
  end.

Ltac eval_controls :=
  repeat match goal with
  | |- context [controls ?n ?d] =>
      let v := eval vm_compute in (controls n d) in
      change (controls n d) with v
  end.

Ltac lookups :=
  repeat first
    [ rewrite lookup_insert_eq
    | rewrite lookup_insert_ne by discriminate
    | erewrite lookup_union_start by eassumption ].

Ltac resize_case :=
  unfold resize_newSize; eval_split; unfold resize_dirs, resize_dir;
  eval_dirVals; cbn [mbind option_bind mult idx dv_min];
  eexists; split; [reflexivity|];
  unfold holds_geometry, spec_resize, spec_edge; eval_controls;
  cbn [g_top g_right g_bottom g_left g_width g_height];
  unfold Js.rd, Js.rdi, pointer_delta;
  cbn [lookup list_lookup];
  lookups;
  repeat match goal with
  | H : ?m !! ?k = Some _ |- context [?m !! ?k] => rewrite H
  end;
  cbn [from_option id Js.add Js.sub Js.mul];
  rewrite ?gt_min; cbn [Js.add Js.sub Js.mul];
  repeat split; try reflexivity;
  match goal with |- Some (Js.Num _) = Some (Js.Num _) => do 2 f_equal; lia end.

Lemma resize_newSize_spec (name : string) (l0 : Layout) (self_min : gmap string Js.number)
    (minWidth minHeight : Z) (dragStart : Z * Z) (newSize : gmap string Js.number)
    (event : Dom.MouseEvent) :
  In name handles ->
  self_min !! "width" = Some (Js.Num minWidth) ->
  self_min !! "height" = Some (Js.Num minHeight) ->
  exists geom,
    resize_newSize (Js.split "-" name) (_getPos l0) self_min dragStart newSize event
      = Some geom /\
    holds_geometry geom (spec_resize name l0 minWidth minHeight dragStart event).
Proof.
  intros Hin Hw Hh.
  destruct (getPos_holds l0) as (Ht & Hr & Hb & Hl & Hwd & Hht).
  destruct (getPos_parent l0) as (Hpw & Hph).
  unfold handles in Hin. cbn in Hin.
  repeat (destruct Hin as [<- | Hin]); try contradiction.
  - resize_case.
  - resize_case.
  - resize_case.
  - resize_case.
  - resize_case.
  - resize_case.
  - resize_case.
  - resize_case.
Qed.

Lemma measured_consistent (l : Layout) : consistent (parentPos l) (measured l).
Proof.
  unfold consistent, measured, Dom.right, Dom.left, Dom.top, Dom.bottom. cbn. lia.
Qed.

Lemma spec_resize_consistent (name : string) (l0 : Layout) (minWidth minHeight : Z)
    (dragStart : Z * Z) (event : Dom.MouseEvent) :
  consistent (parentPos l0) (spec_resize name l0 minWidth minHeight dragStart event).
Proof. unfold consistent, spec_resize. cbn. lia. Qed.

(** The geometry of [spec_resize]: a dimension the handle controls is at
    least its minimum, the other one is as measured at pointer-down. *)
Lemma spec_resize_minimum (name : string) (l0 : Layout) (minWidth minHeight : Z)
    (dragStart : Z * Z) (event : Dom.MouseEvent) :
  In name handles ->
  let g := spec_resize name l0 minWidth minHeight dragStart event in
  (if controls name "left" || controls name "right"
   then minWidth <= g_width g
   else g_width g = Dom.width (childPos l0)) /\
  (if controls name "top" || controls name "bottom"
   then minHeight <= g_height g
   else g_height g = Dom.height (childPos l0)) /\
  (minWidth <= Dom.width (childPos l0) -> minHeight <= Dom.height (childPos l0) ->
   minWidth <= g_width g /\ minHeight <= g_height g).
Proof.
  intros Hin. cbn zeta. unfold handles in Hin. cbn in Hin.
  repeat (destruct Hin as [<- | Hin]); try contradiction;
    unfold spec_resize, spec_edge; eval_controls;
    cbn [orb g_width g_height g_top g_right g_bottom g_left measured];
    unfold Dom.right, Dom.left, Dom.top, Dom.bottom;
    repeat split; lia.
Qed.

(** For each of the eight handles, every geometry at pointer-down, every
    pair of minimum sizes and every pointer position, the object the
    [mousemove] listener of a resize builds is the geometry of
    [spec_resize], in which a dimension the handle controls is at least its
    minimum and the other one is as measured at pointer-down. *)
Lemma resize_newSize_minimum
    (name : string) (l0 : Layout) (self_min : gmap string Js.number)
    (minWidth minHeight : Z) (dragStart : Z * Z) (newSize : gmap string Js.number)
    (event : Dom.MouseEvent) :
  In name handles ->
  self_min !! "width" = Some (Js.Num minWidth) ->
  self_min !! "height" = Some (Js.Num minHeight) ->
  exists geom,
    let g := spec_resize name l0 minWidth minHeight dragStart event in
    resize_newSize (Js.split "-" name) (_getPos l0) self_min dragStart newSize event
      = Some geom /\
    holds_geometry geom g /\
    (if controls name "left" || controls name "right"
     then minWidth <= g_width g
     else g_width g = Dom.width (childPos l0)) /\
    (if controls name "top" || controls name "bottom"
     then minHeight <= g_height g
     else g_height g = Dom.height (childPos l0)) /\
    (minWidth <= Dom.width (childPos l0) -> minHeight <= Dom.height (childPos l0) ->
     minWidth <= g_width g /\ minHeight <= g_height g).
Proof.
  intros Hin Hw Hh.
  destruct (resize_newSize_spec name l0 self_min minWidth minHeight dragStart
              newSize event Hin Hw Hh) as (geom & Hgeom & Hholds).
  exists geom. cbn zeta. split; [exact Hgeom|]. split; [exact Hholds|].
  exact (spec_resize_minimum name l0 minWidth minHeight dragStart event Hin).
Qed.

(** The right handle of the sample window, the pointer 500 to the left of
    where it went down. *)
Example resize_newSize_minimum_sample :
  In "right" handles /\
  exists geom,
    resize_newSize ["right"] (_getPos sample_layout) default_min
      (400, 200) ∅ (mouse_at (-100) 200) = Some geom /\
    geom !! "width" = Some (Js.Num 200).
Proof.
  assert (Hin : In "right" handles) by (vm_compute; tauto).
  split; [exact Hin|].
  destruct (resize_newSize_minimum "right" sample_layout
              default_min 200 200 (400, 200) ∅ (mouse_at (-100) 200) Hin
              ltac:(vm_compute; reflexivity) ltac:(vm_compute; reflexivity))
    as (geom & Hgeom & Hholds & _).
  exists geom. (split; [exact Hgeom|]).
  exact (proj1 (proj2 (proj2 (proj2 (proj2 Hholds))))).
Qed.

Lemma min_literal (minWidth minHeight : Z) :
  let m : gmap string Js.number :=
    list_to_map [("width", Js.Num minWidth); ("height", Js.Num minHeight)] in
  m !! "width" = Some (Js.Num minWidth) /\ m !! "height" = Some (Js.Num minHeight).
Proof. split; reflexivity. Qed.

(** C1, the counterexample: the right handle of a window that is 100 high
    at pointer-down, with a minimum height of 200. The handle controls no
    vertical edge: the height applied on every move is 100. *)
Lemma resize_keeps_height_below_minimum : ~ resize_never_below_minimum.
Proof.
  intros H.
  assert (Hin : In "right" handles) by (vm_compute; tauto).
  destruct (H "right" low_layout 200 200 (400, 150) ∅ (mouse_at 400 150) Hin)
    as (geom & g & Hgeom & Hholds & _ & Hheight).
  destruct (resize_newSize_spec "right" low_layout
              (list_to_map [("width", Js.Num 200); ("height", Js.Num 200)])
              200 200 (400, 150) ∅ (mouse_at 400 150) Hin
              (proj1 (min_literal 200 200)) (proj2 (min_literal 200 200)))
    as (geom' & Hgeom' & Hholds').
  rewrite Hgeom in Hgeom'. injection Hgeom' as <-.
  destruct Hholds as (_ & _ & _ & _ & _ & Hh).
  destruct Hholds' as (_ & _ & _ & _ & _ & Hh').
  rewrite Hh in Hh'. injection Hh' as Hh'.
  rewrite Hh' in Hheight. vm_compute in Hheight. now apply Hheight.
Qed.

(** Off the pixel grid the arithmetic of the listener rounds. A window
    300.2 wide and high at (100.1, 100.1) of a container 1000 by 800, the
    right handle dragged 500 to the left with a minimum width of 200: the
    width passed on is a rounding error below 200, and the height, which
    the handle does not control, is not the height measured. *)
Example resize_rounds_off_the_pixel_grid :
  let startSize :=
    Double._getPos (Double.mkRect 0 0 1000 800)
      (Double.mkRect 0x1.9066666666666p+6 0x1.9066666666666p+6
                     0x1.2c33333333333p+8 0x1.2c33333333333p+8)%float in
  let '(width, height) := Double.right_handle startSize 200 (-500) in
  (width <? 200)%float = true /\
  (height =? Double.p_height startSize)%float = false /\
  (0x1.8fep+7 <? width)%float = true.
Proof. vm_compute. repeat split. Qed.

(** ** Geometry applications *)

Lemma _setPos_unfold (newPos : gmap string Js.number) (this : N2Window) :
  _setPos newPos this
    = on_window (fun e =>
        Dom.set_style "height" (Js.px (newPos !! "height"))
          (Dom.set_style "width" (Js.px (newPos !! "width"))
             (Dom.set_style "left" (Js.px (newPos !! "left"))
                (Dom.set_style "bottom" (Js.px (newPos !! "bottom"))
                   (Dom.set_style "right" (Js.px (newPos !! "right"))
                      (Dom.set_style "top" (Js.px (newPos !! "top")) e))))))
        this.
Proof. reflexivity. Qed.

Lemma _setPos_written (newPos : gmap string Js.number) (g : Geometry) (this : N2Window) :
  holds_geometry newPos g -> written (_setPos newPos this) g.
Proof.
  intros (Ht & Hr & Hb & Hl & Hw & Hh). rewrite _setPos_unfold.
  unfold written. cbn [on_window _window Dom.set_style Dom.with_style Dom.style_decl].
  rewrite Ht, Hr, Hb, Hl, Hw, Hh. cbn [Js.px].
  repeat split; lookups; reflexivity.
Qed.

Lemma min__setPos (newPos : gmap string Js.number) (this : N2Window) :
  min (_setPos newPos this) = min this.
Proof. rewrite _setPos_unfold. reflexivity. Qed.

(** A style of the root other than the six of the geometry is not touched
    by [_setPos]. *)
Lemma _setPos_other (newPos : gmap string Js.number) (this : N2Window) (k : string) :
  ~ In k ["top"; "right"; "bottom"; "left"; "width"; "height"] ->
  Dom.style_decl (_window (_setPos newPos this)) !! k
    = Dom.style_decl (_window this) !! k.
Proof.
  intros Hk. rewrite _setPos_unfold.
  cbn [on_window _window Dom.set_style Dom.with_style Dom.style_decl].
  rewrite !lookup_insert_ne; [reflexivity|..]; intros <-; apply Hk; cbn; tauto.
Qed.

(** One [mousemove] of a resize: the geometry of [spec_resize] for this
    pointer position is written, and the resize is still in progress. *)
Lemma resizing_mousemove (p : Process) (w : nat) (name : string) (l0 : Layout)
    (dragStart : Z * Z) (minWidth minHeight : Z) (event : Dom.MouseEvent) (l : Layout) :
  resizing p w name l0 dragStart minWidth minHeight ->
  let p' := step p (ADispatch OnWindow "mousemove" event l) in
  resizing p' w name l0 dragStart minWidth minHeight /\
  exists this', heap p' !! w = Some this' /\
    written this' (spec_resize name l0 minWidth minHeight dragStart event).
Proof.
  intros (Hin & (newPos & newSize & Hl) & (this & Hw & Hmw & Hmh)) p'.
  subst p'. cbn [step listeners_of]. rewrite Hl. cbn [invoke]. rewrite Hw.
  destruct (resize_newSize_spec name l0 (min this) minWidth minHeight dragStart
              newSize event Hin Hmw Hmh) as (geom & -> & Hgeom).
  rewrite (call_on_lookup _ _ _ _ Hw).
  split.
  - split; [exact Hin|]. split.
    + do 2 eexists. cbn [window_on window_listeners]. apply lookup_insert_eq.
    + exists (_setPos geom this). cbn [window_on heap].
      split; [apply lookup_insert_eq|].
      unfold min_is. rewrite min__setPos. now split.
  - exists (_setPos geom this). cbn [window_on heap].
    split; [apply lookup_insert_eq|now apply _setPos_written].
Qed.

Lemma resizing_path (p : Process) (w : nat) (name : string) (l0 : Layout)
    (dragStart : Z * Z) (minWidth minHeight : Z) (path : list (Dom.MouseEvent * Layout)) :
  resizing p w name l0 dragStart minWidth minHeight ->
  resizing (run p (mousemoves path)) w name l0 dragStart minWidth minHeight.
Proof.
  revert p. induction path as [|[event l] path IH]; intros p H; [exact H|].
  cbn [mousemoves map run fold_left fst snd]. apply IH.
  now apply resizing_mousemove.
Qed.

(** While a resize is in progress, whatever path the pointer has taken,
    the geometry written after the last [mousemove] is the one
    [spec_resize] gives for that last pointer position. *)
Lemma resizing_last_move (p : Process) (w : nat) (name : string) (l0 : Layout)
    (dragStart : Z * Z) (minWidth minHeight : Z)
    (path : list (Dom.MouseEvent * Layout)) (event : Dom.MouseEvent) (l : Layout) :
  resizing p w name l0 dragStart minWidth minHeight ->
  let p' := run p (mousemoves (path ++ [(event, l)])) in
  exists this', heap p' !! w = Some this' /\
    written this' (spec_resize name l0 minWidth minHeight dragStart event).
Proof.
  intros H p'. subst p'. unfold mousemoves. rewrite map_app.
  unfold run. rewrite fold_left_app. cbn [map fold_left fst snd].
  apply resizing_mousemove. now apply resizing_path.
Qed.

Lemma heap_call_bringToFront (p : Process) (w : nat) (force : bool) (this : N2Window) :
  heap p !! w = Some this ->
  exists this', heap (call w (bringToFront force) p) !! w = Some this' /\
    min this' = min this /\
    window_listeners (call w (bringToFront force) p) = window_listeners p.
Proof.
  intros Hw. rewrite (call_lookup _ _ _ _ Hw).
  destruct (bringToFront_cases force (registry p) this) as [-> | ->];
    eexists; cbn [heap snd window_listeners];
    (split; [apply lookup_insert_eq|split; reflexivity]).
Qed.

(** Pointer-down on a handle starts a resize with the geometry measured at
    that moment. *)
Lemma resize_mousedown (p : Process) (w : nat) (name : string) (this : N2Window)
    (event : Dom.MouseEvent) (l0 : Layout) (minWidth minHeight : Z) :
  In name handles ->
  heap p !! w = Some this ->
  listeners_of p (OnResizer w name) !! "mousedown"
    = Some (ResizeMouseDown w (Js.split "-" name)) ->
  min_is this minWidth minHeight ->
  resizing (step p (ADispatch (OnResizer w name) "mousedown" event l0)) w name l0
    (Dom.pageX event, Dom.pageY event) minWidth minHeight.
Proof.
  intros Hin Hw Hl Hmin. cbn [step]. rewrite Hl. cbn [invoke].
  destruct (heap_call_bringToFront p w false this Hw) as (this' & Hw' & Hmin' & _).
  split; [exact Hin|]. split.
  - do 2 eexists. cbn [window_on window_listeners].
    rewrite lookup_insert_ne by discriminate. apply lookup_insert_eq.
  - exists this'. cbn [window_on heap]. split; [exact Hw'|].
    unfold min_is. now rewrite Hmin'.
Qed.

(** Every geometry [_setPos] writes during a resize or at the end of a
    drag is consistent with the container. *)
Lemma resizing_written_consistent (p : Process) (w : nat) (name : string) (l0 : Layout)
    (dragStart : Z * Z) (minWidth minHeight : Z) (event : Dom.MouseEvent) (l : Layout) :
  resizing p w name l0 dragStart minWidth minHeight ->
  exists this' g,
    heap (step p (ADispatch OnWindow "mousemove" event l)) !! w = Some this' /\
    written this' g /\ consistent (parentPos l0) g.
Proof.
  intros H.
  destruct (resizing_mousemove p w name l0 dragStart minWidth minHeight event l H)
    as (_ & this' & Hw & Hwr).
  exists this', (spec_resize name l0 minWidth minHeight dragStart event).
  split; [exact Hw|]. split; [exact Hwr|apply spec_resize_consistent].
Qed.

(** ** Dragging *)

(** Pointer-down on the header of a draggable window starts a drag. *)
Lemma drag_mousedown (p : Process) (w : nat) (this : N2Window) (event : Dom.MouseEvent)
    (l : Layout) :
  heap p !! w = Some this ->
  listeners_of p (OnHeader w) !! "mousedown" = Some (DragMouseDown w) ->
  dragging (step p (ADispatch (OnHeader w) "mousedown" event l)) w
    (Dom.pageX event, Dom.pageY event).
Proof.
  intros Hw Hl. cbn [step]. rewrite Hl. cbn [invoke].
  destruct (heap_call_bringToFront p w false this Hw) as (this' & Hw' & _ & _).
  rewrite (call_on_lookup _ _ _ _ Hw').
  split; [|split].
  - eexists. cbn [window_on window_listeners].
    rewrite lookup_insert_ne by discriminate. apply lookup_insert_eq.
  - cbn [window_on window_listeners]. apply lookup_insert_eq.
  - cbn [window_on heap]. rewrite lookup_insert_eq. eauto.
Qed.

(** What a [mousemove] and a [mouseup] do while a drag is in progress. *)
Lemma dragging_step (p : Process) (w : nat) (dragStart : Z * Z)
    (event : Dom.MouseEvent) (l : Layout) :
  dragging p w dragStart ->
  (let p' := step p (ADispatch OnWindow "mousemove" event l) in
   exists this,
     heap p !! w = Some this /\
     heap p' !! w
       = Some (on_window
                 (Dom.set_style "transform"
                    (translate (Dom.pageX event - fst dragStart,
                                Dom.pageY event - snd dragStart))) this) /\
     (forall this' k, heap p' !! w = Some this' -> k <> "transform" ->
        Dom.style_decl (_window this') !! k = Dom.style_decl (_window this) !! k) /\
     (forall w', w' <> w -> heap p' !! w' = heap p !! w') /\
     registry p' = registry p /\
     dragging p' w dragStart) /\
  (let p' := step p (ADispatch OnWindow "mouseup" event l) in
   exists this',
     heap p' !! w = Some this' /\
     written this' (measured l) /\
     consistent (parentPos l) (measured l) /\
     Dom.style_decl (_window this') !! "transform" = None /\
     window_listeners p' !! "mousemove" = None /\
     window_listeners p' !! "mouseup" = None).
Proof.
  intros ([newTrans Hmove] & Hup & [this Hw]). split.
  - cbn zeta. cbn [step listeners_of]. rewrite Hmove. cbn [invoke].
    rewrite (call_on_lookup _ _ _ _ Hw). cbn [window_on heap registry].
    exists this. split; [exact Hw|]. split; [apply lookup_insert_eq|].
    split; [|split; [|split]].
    + intros this' k Hw' Hk. rewrite lookup_insert_eq in Hw'. injection Hw' as <-.
      cbn. now rewrite lookup_insert_ne.
    + intros w' Hne. now rewrite lookup_insert_ne.
    + reflexivity.
    + split; [|split].
      * eexists. cbn [window_on window_listeners]. apply lookup_insert_eq.
      * cbn [window_on window_listeners]. now rewrite lookup_insert_ne.
      * cbn [window_on heap]. rewrite lookup_insert_eq. eauto.
  - cbn zeta. cbn [step listeners_of]. rewrite Hup. cbn [invoke].
    rewrite (call_on_lookup _ _ _ _ Hw).
    erewrite call_on_lookup by (cbn [heap]; apply lookup_insert_eq).
    eexists. cbn [window_on heap window_listeners].
    split; [apply lookup_insert_eq|].
    pose proof (_setPos_written (_getPos l) (measured l) this (getPos_holds l)) as Hwr.
    unfold written in *.
    cbn [on_header on_window _window Dom.set_style Dom.remove_style Dom.with_style
         Dom.style_decl].
    split; [|split; [|split; [|split]]].
    + rewrite !lookup_delete_ne by discriminate.
      rewrite !lookup_insert_ne by discriminate. exact Hwr.
    + apply measured_consistent.
    + apply lookup_delete_eq.
    + rewrite lookup_delete_ne by discriminate. apply lookup_delete_eq.
    + apply lookup_delete_eq.
Qed.

(** ** Well-formed states *)

Lemma next_address_unused (p : Process) : heap p !! next_address p = None.
Proof.
  unfold next_address. apply not_elem_of_dom. apply is_fresh.
Qed.

(** No step removes a window, and no step changes its resizers. *)
Lemma step_keeps_resizers (p : Process) (a : Action) :
  holds (fun _ w this' => forall this, heap p !! w = Some this ->
                                       resizers this' = resizers this) (step p a).
Proof.
  apply (holds_step _ (fun _ => True) (fun self => heap p !! self = None)).
  - repeat constructor.
  - intros reg w this H. exact H.
  - intros reg w this H. exact H.
  - intros c self newId tpl minWidth minHeight reg Hnone this Hthis. congruence.
  - intros k v _ reg w this H. exact H.
  - intros k _ reg w this H. exact H.
  - intros n b reg w this H. exact H.
  - intros k v reg w this H. exact H.
  - intros reg w this H. exact H.
  - intros f reg w this H. exact H.
  - intros reg w this H. exact H.
  - intros n b reg w this H. exact H.
  - intros f reg w this H. exact H.
  - intros f reg w this H. exact H.
  - intros val reg w this H. exact H.
  - intros val reg w this H. exact H.
  - intros reg w this H. exact H.
  - apply next_address_unused.
  - destruct a; cbn; trivial. apply Forall_forall. trivial.
  - intros w this Hw this0 Hw0. congruence.
Qed.

Lemma heap_call (self : nat) (m : Registry * N2Window -> Registry * N2Window)
    (p : Process) (w : nat) :
  is_Some (heap p !! w) -> is_Some (heap (call self m p) !! w).
Proof.
  intros Hw. unfold call. destruct (heap p !! self) as [this|] eqn:Hs; [|exact Hw].
  destruct (m (registry p, this)) as [reg this']. cbn [heap].
  destruct (decide (self = w)) as [-> | Hne].
  - rewrite lookup_insert_eq. eauto.
  - now rewrite lookup_insert_ne.
Qed.

Lemma heap_invoke (f : Listener) (event : Dom.MouseEvent) (l : Layout) (p : Process)
    (w : nat) :
  is_Some (heap p !! w) -> is_Some (heap (invoke f event l p) !! w).
Proof.
  intros Hw. destruct f; cbn [invoke window_on heap];
    unfold call_on; repeat apply heap_call; try exact Hw.
  destruct (heap p !! self); [|exact Hw].
  destruct (resize_newSize _ _ _ _ _ _); [|exact Hw].
  cbn [window_on heap]. now apply heap_call.
Qed.

Lemma heap_step (p : Process) (a : Action) (w : nat) :
  is_Some (heap p !! w) -> is_Some (heap (step p a) !! w).
Proof.
  intros Hw. destruct a; cbn [step]; unfold call_on; try (now apply heap_call).
  - unfold construct.
    destruct (new c (next_address p) newId tpl minWidth minHeight (registry p))
      as [reg this]. cbn [heap].
    rewrite lookup_insert_ne; [exact Hw|].
    intros Heq. rewrite <- Heq, next_address_unused in Hw. now destruct Hw.
  - destruct (listeners_of p t !! type); [now apply heap_invoke|exact Hw].
Qed.

Lemma step_frame (p : Process) (a : Action) (w : nat) (this : N2Window) :
  heap p !! w = Some this ->
  exists this', heap (step p a) !! w = Some this' /\ resizers this' = resizers this.
Proof.
  intros Hw. destruct (heap_step p a w ltac:(eauto)) as [this' Hw'].
  exists this'. split; [exact Hw'|].
  exact (step_keeps_resizers p a w this' Hw' this Hw).
Qed.

Lemma lookup_singleton_listener (type type' : string) (f g : Listener) :
  (<[type := g]> (∅ : gmap string Listener)) !! type' = Some f -> f = g.
Proof.
  intros H. apply lookup_insert_Some in H as [[_ H] | [_ H]]; [congruence|].
  now rewrite lookup_empty in H.
Qed.

Lemma wf_window_new (c : ClassTag) (self : nat) (newId : string) (tpl : Template)
    (minWidth minHeight : option Z) (reg : Registry) :
  wf_window self (snd (new c self newId tpl minWidth minHeight reg)).
Proof.
  destruct c; unfold new, N2WindowResizable_constructor, N2WindowDraggable_constructor,
    N2Window_constructor; rewrite bringToFront_force; cbn [snd];
    unfold _setupResizers, _setupDrag;
    cbn [fold_left resizerClassNames fst snd]; unfold wf_window.
  all: cbn [_closeButton _header resizers min with_resizers with_min on_header
            on_window on_closeButton app Dom.on Dom.with_listeners Dom.listeners
            Dom.cloned Dom.set_classed Dom.with_class Dom.div].
  all: split; [intros type f H; now apply lookup_singleton_listener in H|].
  all: split;
    [intros type f H;
     first [now apply lookup_singleton_listener in H|now rewrite lookup_empty in H]|].
  all: split.
  - constructor.
  - intros Hne. exfalso. apply Hne. reflexivity.
  - constructor.
  - intros Hne. exfalso. apply Hne. reflexivity.
  - repeat (apply Forall_cons; split;
            [split; [vm_compute; tauto|];
             intros type f H; cbn [fst snd Dom.listeners] in H;
             apply lookup_singleton_listener in H; exact H|]).
    constructor.
  - intros _. exists (default 200 minWidth), (default 200 minHeight).
    split; reflexivity.
Qed.

Lemma wf_window_step (p : Process) (a : Action) :
  holds (fun _ w this => wf_window w this) p ->
  holds (fun _ w this => wf_window w this) (step p a).
Proof.
  apply (holds_step _ (fun _ => True) (fun _ => True)).
  - repeat constructor.
  - intros reg w this H. exact H.
  - intros reg w this H. exact H.
  - intros c self newId tpl minWidth minHeight reg _. apply wf_window_new.
  - intros k v _ reg w this H. exact H.
  - intros k _ reg w this H. exact H.
  - intros n b reg w this H. exact H.
  - intros k v reg w this H. exact H.
  - intros reg w this (Hc & Hh & Hr & Hm). repeat split; try assumption.
    intros type f H. cbn in H. apply lookup_delete_Some in H as [_ H]. eauto.
  - intros f reg w this H. exact H.
  - intros reg w this (Hc & Hh & Hr & Hm). repeat split; try assumption.
    intros type f H. cbn in H. apply lookup_delete_Some in H as [_ H]. eauto.
  - intros n b reg w this H. exact H.
  - intros f reg w this H. exact H.
  - intros f reg w this H. exact H.
  - intros val reg w this (Hc & Hh & Hr & Hm). repeat split; try assumption.
    intros Hne. destruct (Hm Hne) as (mw & mh & Hmw & Hmh).
    exists val, mh. split; cbn; [apply lookup_insert_eq|].
    rewrite lookup_insert_ne by discriminate. exact Hmh.
  - intros val reg w this (Hc & Hh & Hr & Hm). repeat split; try assumption.
    intros Hne. destruct (Hm Hne) as (mw & mh & Hmw & Hmh).
    exists mw, val. split; cbn; [|apply lookup_insert_eq].
    rewrite lookup_insert_ne by discriminate. exact Hmw.
  - intros reg w this H. exact H.
  - exact I.
  - destruct a; cbn; trivial. apply Forall_forall. trivial.
Qed.

Lemma window_listeners_call (self : nat) (m : Registry * N2Window -> Registry * N2Window)
    (p : Process) :
  window_listeners (call self m p) = window_listeners p.
Proof.
  unfold call. destruct (heap p !! self); [|reflexivity].
  destruct (m _); reflexivity.
Qed.

Lemma window_listeners_call_on (self : nat) (m : N2Window -> N2Window) (p : Process) :
  window_listeners (call_on self m p) = window_listeners p.
Proof. apply window_listeners_call. Qed.

(** A step that leaves the listeners on [window] as they are keeps the
    interaction in progress. *)
Lemma pointer_ok_frame (p : Process) (a : Action) :
  window_listeners (step p a) = window_listeners p ->
  pointer_ok p -> pointer_ok (step p a).
Proof.
  intros Hl [Hother Hstate]. split; [now rewrite Hl|]. rewrite Hl.
  destruct Hstate as [Hidle | [(w & ds & (Hm & Hu & Hw)) | Hresize]].
  - now left.
  - right. left. exists w, ds. unfold dragging. rewrite Hl.
    split; [exact Hm|]. split; [exact Hu|]. now apply heap_step.
  - right. right.
    destruct Hresize as (w & name & l0 & ds & np & ns & this & Hm & Hu & Hin & Hw & Hr).
    destruct (step_frame p a w this Hw) as (this' & Hw' & Hr').
    exists w, name, l0, ds, np, ns, this'.
    repeat split; try assumption. now rewrite Hr'.
Qed.

Lemma listeners_of_resizer (p : Process) (w : nat) (name type : string) (f : Listener) :
  holds (fun _ w this => wf_window w this) p ->
  listeners_of p (OnResizer w name) !! type = Some f ->
  In name handles /\ f = ResizeMouseDown w (Js.split "-" name) /\
  exists this, heap p !! w = Some this /\ resizers this <> [].
Proof.
  intros Hwf. cbn [listeners_of].
  destruct (heap p !! w) as [this|] eqn:Hw; [|now rewrite lookup_empty].
  destruct (List.find _ (resizers this)) as [r|] eqn:Hfind; [|now rewrite lookup_empty].
  intros Hl. apply find_some in Hfind as [Hin Hname].
  apply String.eqb_eq in Hname. subst name.
  destruct (Hwf _ _ Hw) as (_ & _ & Hres & _).
  destruct (proj1 (List.Forall_forall _ _) Hres r Hin) as [Hh Hf].
  split; [exact Hh|]. split; [eapply Hf, Hl|].
  exists this. split; [reflexivity|]. intros Hnil. rewrite Hnil in Hin. exact Hin.
Qed.

Lemma pointer_ok_step (p : Process) (a : Action) :
  wf p -> pointer_ok (step p a).
Proof.
  intros [Hwf Hp].
  destruct a;
    try (apply pointer_ok_frame; [|exact Hp]; cbn [step];
         first [apply window_listeners_call_on | apply window_listeners_call]).
  - apply pointer_ok_frame; [|exact Hp]. cbn [step]. unfold construct.
    destruct (new _ _ _ _ _ _ _). reflexivity.
  - pose proof (heap_step p (ADispatch t type event l)) as Hdom.
    pose proof (step_frame p (ADispatch t type event l)) as Hframe.
    cbn [step] in *.
    destruct (listeners_of p t !! type) as [f|] eqn:Hl; [|exact Hp].
    destruct t as [|w|w|w name].
    + (* a listener on [window] *)
      destruct Hp as [Hother Hstate]. cbn [listeners_of] in Hl.
      destruct (decide (type = "mousemove")) as [-> | Hnm];
        [|destruct (decide (type = "mouseup")) as [-> | Hnu];
          [|rewrite (Hother _ Hnm Hnu) in Hl; discriminate]].
      * destruct Hstate as [[Hidle _] | [(w & ds & ([nt Hm] & Hu & Hw)) | Hresize]].
        -- congruence.
        -- rewrite Hm in Hl. injection Hl as <-. cbn [invoke] in *.
           split.
           ++ intros type0 Hx Hy. cbn [window_on window_listeners].
              rewrite lookup_insert_ne by congruence.
              rewrite window_listeners_call_on. now apply Hother.
           ++ right. left. exists w, ds. split; [|split].
              ** eexists. cbn [window_on window_listeners]. apply lookup_insert_eq.
              ** cbn [window_on window_listeners].
                 rewrite lookup_insert_ne by discriminate.
                 now rewrite window_listeners_call_on.
              ** now apply Hdom.
        -- destruct Hresize
             as (w & name & l0 & ds & np & ns & this & Hm & Hu & Hin & Hw & Hr).
           rewrite Hm in Hl. injection Hl as <-. cbn [invoke] in *.
           rewrite Hw in *.
           destruct (resize_newSize _ _ _ _ _ _) as [geom|];
             [|split; [exact Hother|]; right; right;
               exists w, name, l0, ds, np, ns, this; repeat split; assumption].
           destruct (Hframe w this Hw) as (this' & Hw' & Hr').
           split.
           ++ intros type0 Hx Hy. cbn [window_on window_listeners].
              rewrite lookup_insert_ne by congruence.
              rewrite window_listeners_call_on. now apply Hother.
           ++ right. right. exists w, name, l0, ds, (pointer_delta ds event), geom, this'.
              split; [cbn [window_on window_listeners]; apply lookup_insert_eq|].
              split; [cbn [window_on window_listeners];
                      rewrite lookup_insert_ne by discriminate;
                      now rewrite window_listeners_call_on|].
              split; [exact Hin|]. split; [exact Hw'|]. now rewrite Hr'.
      * assert (Hidle : forall q : Process,
                  window_listeners q = window_listeners p ->
                  pointer_ok (window_on "mouseup" None (window_on "mousemove" None q))).
        { intros q Hq. split.
          - intros type0 Hx Hy. cbn [window_on window_listeners].
            rewrite !lookup_delete_ne by congruence. rewrite Hq. now apply Hother.
          - left. cbn [window_on window_listeners]. split.
            + rewrite lookup_delete_ne by discriminate. apply lookup_delete_eq.
            + apply lookup_delete_eq. }
        destruct Hstate as [[_ Hidle'] | [(w & ds & ([nt Hm] & Hu & Hw)) | Hresize]].
        -- congruence.
        -- rewrite Hu in Hl. injection Hl as <-. cbn [invoke].
           apply Hidle. now rewrite !window_listeners_call_on.
        -- destruct Hresize
             as (w & name & l0 & ds & np & ns & this & Hm & Hu & Hin & Hw & Hr).
           rewrite Hu in Hl. injection Hl as <-. cbn [invoke].
           now apply Hidle.
    + (* the close button *)
      cbn [listeners_of] in Hl.
      destruct (heap p !! w) as [this|] eqn:Hw; [|now rewrite lookup_empty in Hl].
      destruct (Hwf _ _ Hw) as (Hc & _). rewrite (Hc _ _ Hl).
      apply (pointer_ok_frame p (AClose w)); [|exact Hp].
      apply window_listeners_call_on.
    + (* the header *)
      cbn [listeners_of] in Hl.
      destruct (heap p !! w) as [this|] eqn:Hw; [|now rewrite lookup_empty in Hl].
      destruct (Hwf _ _ Hw) as (_ & Hh & _). rewrite (Hh _ _ Hl) in *.
      cbn [invoke] in *. destruct Hp as [Hother _]. split.
      * intros type0 Hx Hy. cbn [window_on window_listeners].
        rewrite !lookup_insert_ne by congruence.
        rewrite window_listeners_call_on, window_listeners_call. now apply Hother.
      * right. left. exists w, (Dom.pageX event, Dom.pageY event). split; [|split].
        -- eexists. cbn [window_on window_listeners].
           rewrite lookup_insert_ne by discriminate. apply lookup_insert_eq.
        -- cbn [window_on window_listeners]. apply lookup_insert_eq.
        -- apply Hdom. rewrite Hw. eauto.
    + (* a resizer *)
      destruct (listeners_of_resizer p w name type f Hwf Hl)
        as (Hin & -> & this & Hw & Hr).
      destruct (Hframe w this Hw) as (this' & Hw' & Hr').
      cbn [invoke] in *. destruct Hp as [Hother _]. split.
      * intros type0 Hx Hy. cbn [window_on window_listeners].
        rewrite !lookup_insert_ne by congruence.
        rewrite window_listeners_call. now apply Hother.
      * right. right.
        exists w, name, l, (Dom.pageX event, Dom.pageY event),
               [Js.Num 0; Js.Num 0], ∅, this'.
        split; [cbn [window_on window_listeners];
                rewrite lookup_insert_ne by discriminate; apply lookup_insert_eq|].
        split; [cbn [window_on window_listeners]; apply lookup_insert_eq|].
        split; [exact Hin|]. split; [exact Hw'|]. now rewrite Hr'.
Qed.

(** Every state the process reaches is well formed. *)
Lemma wf_run (actions : list Action) : wf (run initial actions).
Proof.
  apply (run_invariant wf (fun _ => True)).
  - split.
    + unfold holds. cbn. apply map_Forall_empty.
    + split; [intros; apply lookup_empty|]. left. split; apply lookup_empty.
  - intros p a _ H. split; [apply wf_window_step, H|now apply pointer_ok_step].
  - apply Forall_forall. trivial.
Qed.

(** In every state the process reaches, a [mousemove] listener of a drag
    on [window] means a drag in progress, and a [mousemove] listener of a
    resize means a resize in progress by one of the eight handles, with the
    geometry measured at pointer-down. *)
Lemma reachable_dragging (actions : list Action) (w : nat) (dragStart newTrans : Z * Z) :
  let p := run initial actions in
  window_listeners p !! "mousemove" = Some (DragMouseMove w dragStart newTrans) ->
  dragging p w dragStart.
Proof.
  intros p Hm. destruct (wf_run actions) as [_ [_ Hstate]]. fold p in Hstate.
  destruct Hstate as [[Hidle _] | [(w' & ds & ([nt Hm'] & Hu & Hw)) | Hresize]].
  - congruence.
  - rewrite Hm in Hm'. injection Hm' as -> -> ->.
    split; [eauto|]. split; assumption.
  - destruct Hresize as (w' & name & l0 & ds & np & ns & this & Hm' & _). congruence.
Qed.

Lemma reachable_resizing (actions : list Action) (w : nat) (dirs : list string)
    (startSize : gmap string Js.number) (dragStart : Z * Z)
    (newPos : list Js.number) (newSize : gmap string Js.number) :
  let p := run initial actions in
  window_listeners p !! "mousemove"
    = Some (ResizeMouseMove w dirs startSize dragStart newPos newSize) ->
  exists name l0 minWidth minHeight,
    dirs = Js.split "-" name /\ startSize = _getPos l0 /\
    resizing p w name l0 dragStart minWidth minHeight.
Proof.
  intros p Hm. destruct (wf_run actions) as [Hwf [_ Hstate]]. fold p in Hwf, Hstate.
  destruct Hstate as [[Hidle _] | [(w' & ds & ([nt Hm'] & _)) | Hresize]].
  - congruence.
  - congruence.
  - destruct Hresize as (w' & name & l0 & ds & np & ns & this & Hm' & _ & Hin & Hw & Hr).
    rewrite Hm in Hm'. injection Hm' as -> -> -> -> -> ->.
    destruct (Hwf _ _ Hw) as (_ & _ & _ & Hmin).
    destruct (Hmin Hr) as (mw & mh & Hmin').
    exists name, l0, mw, mh. split; [reflexivity|]. split; [reflexivity|].
    split; [exact Hin|]. split; [eauto|]. eauto.
Qed.

Lemma reachable_drag_end (actions : list Action) (w : nat) :
  let p := run initial actions in
  window_listeners p !! "mouseup" = Some (DragMouseUp w) ->
  exists dragStart, dragging p w dragStart.
Proof.
  intros p Hu. destruct (wf_run actions) as [_ [_ Hstate]]. fold p in Hstate.
  destruct Hstate as [[_ Hidle] | [(w' & ds & (Hm & Hu' & Hw)) | Hresize]].
  - congruence.
  - rewrite Hu in Hu'. injection Hu' as ->. exists ds. repeat split; assumption.
  - destruct Hresize as (w' & name & l0 & ds & np & ns & this & _ & Hu' & _). congruence.
Qed.

(** ** Interactions, in every state the process reaches *)

(** C1 (as amended). For a layout on the pixel grid (the rectangles
    measured, the pointer positions and the two minimum sizes are whole
    numbers of pixels, as they are in this embedding): after any history
    of the process, while a resize is in progress (the [mousemove]
    listener on [window] is the one of a resize), the captured [dirs] are
    those of one of the eight handles and
    [startSize] is the geometry measured at pointer-down; whatever path the
    pointer takes from there, the geometry written on a [mousemove] is the
    one of [spec_resize]: each controlled edge is the candidate offset
    capped at [startOffset + startDimension - minDimension], width and
    height derived from the edges. A dimension the handle controls is then
    at least its minimum; a dimension it does not control keeps the value
    it had at pointer-down, so both dimensions respect the minimum whenever
    the window did at pointer-down. *)
Theorem resize_controlled_dimension_at_least_minimum (actions : list Action) (w : nat)
    (dirs : list string) (startSize : gmap string Js.number) (dragStart : Z * Z)
    (newPos : list Js.number) (newSize : gmap string Js.number)
    (path : list (Dom.MouseEvent * Layout)) (event : Dom.MouseEvent) (l : Layout) :
  let p := run initial actions in
  window_listeners p !! "mousemove"
    = Some (ResizeMouseMove w dirs startSize dragStart newPos newSize) ->
  exists name l0 minWidth minHeight this',
    In name handles /\ dirs = Js.split "-" name /\ startSize = _getPos l0 /\
    (exists this, heap p !! w = Some this /\ min_is this minWidth minHeight) /\
    heap (run p (mousemoves (path ++ [(event, l)]))) !! w = Some this' /\
    let g := spec_resize name l0 minWidth minHeight dragStart event in
    written this' g /\
    (if controls name "left" || controls name "right"
     then minWidth <= g_width g
     else g_width g = Dom.width (childPos l0)) /\
    (if controls name "top" || controls name "bottom"
     then minHeight <= g_height g
     else g_height g = Dom.height (childPos l0)) /\
    (minWidth <= Dom.width (childPos l0) -> minHeight <= Dom.height (childPos l0) ->
     minWidth <= g_width g /\ minHeight <= g_height g).
Proof.
  intros p Hm.
  destruct (reachable_resizing actions w dirs startSize dragStart newPos newSize Hm)
    as (name & l0 & mw & mh & -> & -> & Hres).
  fold p in Hres. pose proof Hres as (Hin & _ & Hthis).
  destruct (resizing_last_move p w name l0 dragStart mw mh path event l Hres)
    as (this' & Hw' & Hwr).
  exists name, l0, mw, mh, this'.
  split; [exact Hin|]. split; [reflexivity|]. split; [reflexivity|].
  split; [exact Hthis|]. split; [exact Hw'|]. cbn zeta. split; [exact Hwr|].
  exact (spec_resize_minimum name l0 mw mh dragStart event Hin).
Qed.

Lemma resize_controlled_dimension_at_least_minimum_witness :
  window_listeners low_resize !! "mousemove"
    = Some (ResizeMouseMove 0%nat ["right"] (_getPos low_layout) (400, 150)
              [Js.Num 0; Js.Num 0] ∅) /\
  exists name l0 minWidth minHeight this',
    In name handles /\ ["right"] = Js.split "-" name /\
    _getPos low_layout = _getPos l0 /\
    heap (run low_resize
            (mousemoves [(mouse_at 900 150, low_layout);
                         (mouse_at (-100) 150, low_layout)])) !! 0%nat = Some this' /\
    let g := spec_resize name l0 minWidth minHeight (400, 150) (mouse_at (-100) 150) in
    written this' g /\
    (if controls name "left" || controls name "right"
     then minWidth <= g_width g
     else g_width g = Dom.width (childPos l0)).
Proof.
  assert (Hm : window_listeners low_resize !! "mousemove"
               = Some (ResizeMouseMove 0%nat ["right"] (_getPos low_layout) (400, 150)
                         [Js.Num 0; Js.Num 0] ∅)) by (vm_compute; reflexivity).
  split; [exact Hm|].
  destruct (resize_controlled_dimension_at_least_minimum _ 0%nat _ _ _ _ _
              [(mouse_at 900 150, low_layout)] (mouse_at (-100) 150) low_layout Hm)
    as (name & l0 & mw & mh & this' & Hin & Hdirs & Hstart & _ & Hw' & Hwr & Hwd & _).
  exists name, l0, mw, mh, this'.
  exact (conj Hin (conj Hdirs (conj Hstart (conj Hw' (conj Hwr Hwd))))).
Defined.

(** C7. After any history of the process, if a resize is in progress (the
    [mousemove] listener on [window] is the one of a resize, with the
    captured [dirs], [startSize] and [dragStart]), then [dirs] are those of
    one of the eight handles, [startSize] is the geometry measured at
    pointer-down, and whatever path the pointer takes from there, the
    geometry written after the last [mousemove] is [spec_resize] of the
    handle, that geometry, the minimum sizes of the window, [dragStart] and
    the last pointer position: the positions in between and the values the
    listener has left in [newPos] and [newSize] play no part. *)
Theorem resize_last_move_decides (actions : list Action) (w : nat)
    (dirs : list string) (startSize : gmap string Js.number) (dragStart : Z * Z)
    (newPos : list Js.number) (newSize : gmap string Js.number)
    (path : list (Dom.MouseEvent * Layout)) (event : Dom.MouseEvent) (l : Layout) :
  let p := run initial actions in
  window_listeners p !! "mousemove"
    = Some (ResizeMouseMove w dirs startSize dragStart newPos newSize) ->
  exists name l0 minWidth minHeight this,
    In name handles /\ dirs = Js.split "-" name /\ startSize = _getPos l0 /\
    heap p !! w = Some this /\ min_is this minWidth minHeight /\
    exists this',
      heap (run p (mousemoves (path ++ [(event, l)]))) !! w = Some this' /\
      written this' (spec_resize name l0 minWidth minHeight dragStart event).
Proof.
  intros p Hm.
  destruct (reachable_resizing actions w dirs startSize dragStart newPos newSize Hm)
    as (name & l0 & mw & mh & -> & -> & Hres).
  fold p in Hres.
  pose proof Hres as (Hin & _ & this & Hw & Hmin).
  exists name, l0, mw, mh, this. repeat split; try assumption; try apply Hmin.
  exact (resizing_last_move p w name l0 dragStart mw mh path event l Hres).
Qed.

Lemma resize_last_move_decides_witness :
  window_listeners low_resize !! "mousemove"
    = Some (ResizeMouseMove 0%nat ["right"] (_getPos low_layout) (400, 150)
              [Js.Num 0; Js.Num 0] ∅) /\
  exists name l0 minWidth minHeight this',
    In name handles /\ ["right"] = Js.split "-" name /\
    _getPos low_layout = _getPos l0 /\
    heap (run low_resize
            (mousemoves [(mouse_at 900 150, low_layout); (mouse_at 0 0, low_layout);
                         (mouse_at 300 150, low_layout)])) !! 0%nat = Some this' /\
    written this' (spec_resize name l0 minWidth minHeight (400, 150) (mouse_at 300 150)).
Proof.
  assert (Hm : window_listeners low_resize !! "mousemove"
               = Some (ResizeMouseMove 0%nat ["right"] (_getPos low_layout) (400, 150)
                         [Js.Num 0; Js.Num 0] ∅)) by (vm_compute; reflexivity).
  split; [exact Hm|].
  destruct (resize_last_move_decides _ 0%nat _ _ _ _ _
              [(mouse_at 900 150, low_layout); (mouse_at 0 0, low_layout)]
              (mouse_at 300 150) low_layout Hm)
    as (name & l0 & mw & mh & this & Hin & Hdirs & Hstart & Hw & Hmin & this' & Hw' & Hwr).
  exists name, l0, mw, mh, this'.
  exact (conj Hin (conj Hdirs (conj Hstart (conj Hw' Hwr)))).
Defined.

(** C2. After any history of the process, every geometry [_setPos] writes
    is consistent with the container: the one a [mousemove] of a resize
    writes, with the container as measured at pointer-down (the one
    [startSize] holds), and the one the [mouseup] of a drag writes, with the
    container as measured at that moment. In both, [width] is the width of
    the container minus [left] and [right] and [height] its height minus
    [top] and [bottom], exactly. ([move], the third caller of [_setPos],
    never reaches the call.) *)
Theorem written_geometry_consistent (actions : list Action) (w : nat)
    (event : Dom.MouseEvent) (l : Layout) :
  let p := run initial actions in
  (forall dirs startSize dragStart newPos newSize,
     window_listeners p !! "mousemove"
       = Some (ResizeMouseMove w dirs startSize dragStart newPos newSize) ->
     exists l0 this' g,
       startSize = _getPos l0 /\
       heap (step p (ADispatch OnWindow "mousemove" event l)) !! w = Some this' /\
       written this' g /\ consistent (parentPos l0) g) /\
  (window_listeners p !! "mouseup" = Some (DragMouseUp w) ->
   exists this' g,
     heap (step p (ADispatch OnWindow "mouseup" event l)) !! w = Some this' /\
     written this' g /\ consistent (parentPos l) g).
Proof.
  intros p. split.
  - intros dirs startSize dragStart newPos newSize Hm.
    destruct (reachable_resizing actions w dirs startSize dragStart newPos newSize Hm)
      as (name & l0 & mw & mh & _ & -> & Hres).
    destruct (resizing_written_consistent _ w name l0 dragStart mw mh event l Hres)
      as (this' & g & H).
    exists l0, this', g. split; [reflexivity|exact H].
  - intros Hu. destruct (reachable_drag_end actions w Hu) as [ds Hd].
    destruct (proj2 (dragging_step _ w ds event l Hd)) as (this' & Hw & Hwr & Hc & _).
    exists this', (measured l). split; [exact Hw|]. split; [exact Hwr|exact Hc].
Qed.

Lemma written_geometry_consistent_witness :
  window_listeners low_resize !! "mousemove"
    = Some (ResizeMouseMove 0%nat ["right"] (_getPos low_layout) (400, 150)
              [Js.Num 0; Js.Num 0] ∅) /\
  window_listeners sample_drag !! "mouseup" = Some (DragMouseUp 0%nat) /\
  (exists l0 this' g,
     _getPos low_layout = _getPos l0 /\
     heap (step low_resize
             (ADispatch OnWindow "mousemove" (mouse_at 300 150) low_layout)) !! 0%nat
       = Some this' /\
     written this' g /\ consistent (parentPos l0) g) /\
  (exists this' g,
     heap (step sample_drag
             (ADispatch OnWindow "mouseup" (mouse_at 300 150) sample_layout)) !! 0%nat
       = Some this' /\
     written this' g /\ consistent (parentPos sample_layout) g).
Proof.
  assert (Hm : window_listeners low_resize !! "mousemove"
               = Some (ResizeMouseMove 0%nat ["right"] (_getPos low_layout) (400, 150)
                         [Js.Num 0; Js.Num 0] ∅)) by (vm_compute; reflexivity).
  assert (Hu : window_listeners sample_drag !! "mouseup" = Some (DragMouseUp 0%nat))
    by (vm_compute; reflexivity).
  split; [exact Hm|]. split; [exact Hu|]. split.
  - exact (proj1 (written_geometry_consistent _ 0%nat (mouse_at 300 150) low_layout)
             _ _ _ _ _ Hm).
  - exact (proj2 (written_geometry_consistent _ 0%nat (mouse_at 300 150) sample_layout)
             Hu).
Defined.

(** C5. After any history of the process, while a drag is in progress (the
    [mousemove] listener on [window] is the one of a drag), a [mousemove]
    writes the [transform] of the root, the translation by the pointer
    position minus the one at pointer-down, and changes nothing else: the
    window is otherwise the same object, every style of the root other than
    [transform] (the six of the geometry among them) is as before, the
    other windows and the registry are as before, and the drag is still in
    progress. A [mouseup] writes the geometry measured at that moment,
    clears the [transform] and detaches the [mousemove] and [mouseup]
    listeners. *)
Theorem drag_moves_transform_only (actions : list Action) (w : nat)
    (dragStart newTrans : Z * Z) (event : Dom.MouseEvent) (l : Layout) :
  let p := run initial actions in
  window_listeners p !! "mousemove" = Some (DragMouseMove w dragStart newTrans) ->
  (let p' := step p (ADispatch OnWindow "mousemove" event l) in
   exists this,
     heap p !! w = Some this /\
     heap p' !! w
       = Some (on_window
                 (Dom.set_style "transform"
                    (translate (Dom.pageX event - fst dragStart,
                                Dom.pageY event - snd dragStart))) this) /\
     (forall this' k, heap p' !! w = Some this' -> k <> "transform" ->
        Dom.style_decl (_window this') !! k = Dom.style_decl (_window this) !! k) /\
     (forall w', w' <> w -> heap p' !! w' = heap p !! w') /\
     registry p' = registry p /\
     dragging p' w dragStart) /\
  (let p' := step p (ADispatch OnWindow "mouseup" event l) in
   exists this',
     heap p' !! w = Some this' /\
     written this' (measured l) /\
     Dom.style_decl (_window this') !! "transform" = None /\
     window_listeners p' !! "mousemove" = None /\
     window_listeners p' !! "mouseup" = None).
Proof.
  intros p Hm.
  pose proof (reachable_dragging actions w dragStart newTrans Hm) as Hd. fold p in Hd.
  destruct (dragging_step p w dragStart event l Hd) as [Hmove Hup].
  split; [exact Hmove|].
  destruct Hup as (this' & Hw & Hwr & _ & Ht & Hlm & Hlu).
  exists this'. repeat split; try assumption; apply Hwr.
Qed.

Lemma drag_moves_transform_only_witness :
  window_listeners sample_drag !! "mousemove"
    = Some (DragMouseMove 0%nat (150, 110) (0, 0)) /\
  exists this,
    heap sample_drag !! 0%nat = Some this /\
    heap (step sample_drag
            (ADispatch OnWindow "mousemove" (mouse_at 180 100) sample_layout)) !! 0%nat
      = Some (on_window (Dom.set_style "transform" "translate(30px, -10px)") this).
Proof.
  assert (Hm : window_listeners sample_drag !! "mousemove"
               = Some (DragMouseMove 0%nat (150, 110) (0, 0)))
    by (vm_compute; reflexivity).
  split; [exact Hm|].
  destruct (proj1 (drag_moves_transform_only _ 0%nat _ _ (mouse_at 180 100)
                     sample_layout Hm))
    as (this & Hw & Hw' & _).
  exists this. split; [exact Hw|exact Hw'].
Defined.

(** ** Scenarios *)

Example split_handle_names :
  map (Js.split "-") handles
    = [ ["top"]; ["top"; "right"]; ["right"]; ["bottom"; "right"]; ["bottom"];
        ["bottom"; "left"]; ["left"]; ["top"; "left"] ].
Proof. reflexivity. Qed.

Example tokens_of_class_attribute :
  Dom.token_set "  window-contents  window-theme-light window-contents "
    = ["window-contents"; "window-theme-light"].
Proof. reflexivity. Qed.

Example number_to_string_and_back :
  Js.ToString (Js.Num (-15)) = "-15" /\
  Js.StringToNumber "12" = Js.Num 12 /\
  Js.StringToNumber "auto" = Js.NaN /\
  Js.parseInt "5px" = Js.Num 5.
Proof. repeat split. Qed.

(** A window is created, sized and placed with [setList], then shown: its
    styles read back as set, and it is not hidden. *)
Example scenario_setList_then_show :
  let p := run initial
             [ ANew Base "myWin" sample_template None None;
               ASetList 0%nat [("width", "300px"); ("height", "300px");
                               ("title", "This is a very long title indeed");
                               ("top", "100px"); ("left", "10px")];
               AShow 0%nat ] in
  hidden <$> heap p !! 0%nat = Some false /\
  style_of p 0%nat "top" = Some "100px" /\
  style_of p 0%nat "left" = Some "10px" /\
  style_of p 0%nat "width" = Some "300px" /\
  style_of p 0%nat "height" = Some "300px" /\
  (fun this => Dom.innerHTML (_title this)) <$> heap p !! 0%nat
    = Some "This is a very long title indeed".
Proof. vm_compute. repeat split. Qed.

(** The right handle of a window 300 wide, minimum width 200, dragged left
    by 500: the width written is 200. *)
Example scenario_right_handle_dragged_left :
  let p := run sample_resizable
             [ ADispatch (OnResizer 0%nat "right") "mousedown" (mouse_at 400 200)
                 sample_layout;
               ADispatch OnWindow "mousemove" (mouse_at (-100) 200) sample_layout;
               ADispatch OnWindow "mouseup" (mouse_at (-100) 200) sample_layout ] in
  style_of p 0%nat "width" = Some "200px" /\
  style_of p 0%nat "right" = Some "700px" /\
  style_of p 0%nat "left" = Some "100px" /\
  map_to_list (window_listeners p) = [].
Proof. vm_compute. repeat split. Qed.

(** Two windows created one after the other, the second shown after the
    first: the second is above. *)
Example scenario_second_window_on_top :
  let p := run initial
             [ ANew Base "first" sample_template None None;
               ANew Base "second" sample_template None None;
               AShow 0%nat; AShow 1%nat ] in
  z_index_of p 0%nat = Some "13" /\ z_index_of p 1%nat = Some "14" /\
  registry p = mkRegistry 14 [14; 13; 12; 11].
Proof. vm_compute. repeat split. Qed.

(** A [z-index] written through [set] is outside the registry: [show] then
    leaves it as it is when it is above [N2Window.zIndex]. *)
Example show_after_raw_z_index :
  let p := run initial
             [ ANew Base "myWin" sample_template None None;
               ASet 0%nat "z-index" "5000";
               AShow 0%nat ] in
  z_index_of p 0%nat = Some "5000" /\ zIndex (registry p) = 11.
Proof. vm_compute. repeat split. Qed.

(** A drag from pointer-down to pointer-up. *)
Example scenario_drag :
  let moved := run sample_drag
                 [ADispatch OnWindow "mousemove" (mouse_at 180 100) sample_layout] in
  let dropped := run moved
                   [ADispatch OnWindow "mouseup" (mouse_at 180 100)
                      (mkLayout (Dom.mkRect 0 0 1000 800) (Dom.mkRect 130 90 300 300))] in
  style_of moved 0%nat "transform" = Some "translate(30px, -10px)" /\
  style_of moved 0%nat "top" = Some "" /\
  style_of dropped 0%nat "transform" = Some "" /\
  style_of dropped 0%nat "top" = Some "90px" /\
  style_of dropped 0%nat "left" = Some "130px" /\
  style_of dropped 0%nat "right" = Some "570px" /\
  style_of dropped 0%nat "bottom" = Some "410px" /\
  style_of dropped 0%nat "cursor" = Some "auto" /\
  map_to_list (window_listeners dropped) = [].
Proof. vm_compute. repeat split. Qed.

(** The right handle of a window that is 100 high, minimum height 200: the
    height written on a move is 100. *)
Example scenario_low_window :
  let p := run low_resize
             [ADispatch OnWindow "mousemove" (mouse_at 500 150) low_layout] in
  style_of p 0%nat "height" = Some "100px" /\
  style_of p 0%nat "width" = Some "400px" /\
  (fun this => Js.rd (min this) "height") <$> heap p !! 0%nat = Some (Js.Num 200).
Proof. vm_compute. repeat split. Qed.

(** * Further properties of the constructors, methods and listeners *)

(** ** Class lists, continued *)

Lemma contains_add_token (ts : list string) (t : string) :
  Dom.contains t (Dom.add_token ts t) = true.
Proof.
  unfold Dom.add_token. destruct (Dom.contains t ts) eqn:Hc; [exact Hc|].
  rewrite contains_app. cbn. rewrite String.eqb_refl. now rewrite orb_true_r.
Qed.

Lemma classed_after_add (name : string) (e : Dom.Element) :
  Js.tokens Js.is_space name = [name] ->
  Dom.classed name (Dom.set_classed name true e) = true.
Proof.
  intros Hname.
  assert (Hw : Js.is_word Dom.is_ascii_whitespace name).
  { apply word_ascii. pose proof (tokens_words Js.is_space name) as H.
    rewrite Hname in H. now inversion H. }
  unfold Dom.classed, Dom.set_classed, Dom.with_class.
  rewrite Hname. cbn [Dom.class_attr forallb fold_left].
  rewrite andb_true_r, contains_token_set_join.
  - apply contains_add_token.
  - apply (fold_add_words _ [name]); [|apply token_set_words].
    constructor; [exact Hw|constructor].
Qed.

Lemma contains_In (t : string) (ts : list string) :
  Dom.contains t ts = true <-> In t ts.
Proof.
  unfold Dom.contains. rewrite existsb_exists. split.
  - intros (u & Hu & Heq). apply String.eqb_eq in Heq. now subst.
  - intros H. exists t. split; [exact H|apply String.eqb_refl].
Qed.

Lemma fold_add_nodup (ts acc : list string) :
  List.NoDup (acc ++ ts)%list -> fold_left Dom.add_token ts acc = (acc ++ ts)%list.
Proof.
  revert acc. induction ts as [|t ts IH]; intros acc Hnd; cbn [fold_left].
  - now rewrite app_nil_r.
  - assert (Hc : Dom.contains t acc = false).
    { destruct (Dom.contains t acc) eqn:Hc; [|reflexivity].
      apply contains_In in Hc. apply List.NoDup_remove_2 in Hnd.
      exfalso. apply Hnd, in_or_app. now left. }
    unfold Dom.add_token at 2. rewrite Hc.
    rewrite IH; rewrite <- app_assoc; [reflexivity|exact Hnd].
Qed.

Lemma NoDup_fold_add (l acc : list string) :
  List.NoDup acc -> List.NoDup (fold_left Dom.add_token l acc).
Proof.
  revert acc. induction l as [|t l IH]; intros acc Hnd; [exact Hnd|].
  cbn [fold_left]. apply IH. unfold Dom.add_token.
  destruct (Dom.contains t acc) eqn:Hc; [exact Hnd|].
  apply List.NoDup_app; [exact Hnd|repeat constructor; intros []|].
  intros u Hu [<- | []]. apply contains_In in Hu. congruence.
Qed.

Lemma NoDup_token_set (attr : string) : List.NoDup (Dom.token_set attr).
Proof. apply NoDup_fold_add. constructor. Qed.

(** A class list that has been written by [classList] is read back as it
    was written. *)
Lemma token_set_join (ts : list string) :
  Forall (Js.is_word Dom.is_ascii_whitespace) ts -> List.NoDup ts ->
  Dom.token_set (Js.join ts) = ts.
Proof.
  intros Hw Hnd. unfold Dom.token_set.
  rewrite tokens_join; [|reflexivity|exact Hw]. now apply fold_add_nodup.
Qed.

Lemma filter_filter_same {A : Type} (f : A -> bool) (l : list A) :
  List.filter f (List.filter f l) = List.filter f l.
Proof.
  induction l as [|a l IH]; [reflexivity|].
  cbn [List.filter]. destruct (f a) eqn:Ha; [|exact IH].
  cbn [List.filter]. now rewrite Ha, IH.
Qed.

Lemma NoDup_remove_token (ts : list string) (t : string) :
  List.NoDup ts -> List.NoDup (Dom.remove_token ts t).
Proof. intros H. unfold Dom.remove_token. now apply List.NoDup_filter. Qed.

Lemma set_classed_idem (name : string) (b : bool) (e : Dom.Element) :
  Js.tokens Js.is_space name = [name] ->
  Dom.set_classed name b (Dom.set_classed name b e) = Dom.set_classed name b e.
Proof.
  intros Hname.
  assert (Hw : Js.is_word Dom.is_ascii_whitespace name).
  { apply word_ascii. pose proof (tokens_words Js.is_space name) as H.
    rewrite Hname in H. now inversion H. }
  unfold Dom.set_classed, Dom.with_class. rewrite Hname.
  cbn [Dom.class_attr Dom.style_decl Dom.sheet Dom.innerHTML Dom.listeners fold_left].
  f_equal. f_equal.
  destruct b.
  - rewrite token_set_join.
    + unfold Dom.add_token at 1. now rewrite contains_add_token.
    + apply (fold_add_words _ [name]); [|apply token_set_words].
      constructor; [exact Hw|constructor].
    + apply (NoDup_fold_add [name]), NoDup_token_set.
  - rewrite token_set_join.
    + unfold Dom.remove_token. apply filter_filter_same.
    + apply remove_token_words, token_set_words.
    + apply NoDup_remove_token, NoDup_token_set.
Qed.

(** ** [show], [hide] and [bringToFront], called again *)

Lemma call_call (self : nat) (m1 m2 : Registry * N2Window -> Registry * N2Window)
    (p : Process) :
  call self m2 (call self m1 p) = call self (fun st => m2 (m1 st)) p.
Proof.
  unfold call. destruct (heap p !! self) as [this|] eqn:Hs.
  - destruct (m1 (registry p, this)) as [reg1 this1]. cbn [heap registry window_listeners].
    rewrite lookup_insert_eq. destruct (m2 (reg1, this1)) as [reg2 this2].
    now rewrite insert_insert_eq.
  - now rewrite Hs.
Qed.

Lemma call_ext (self : nat) (m1 m2 : Registry * N2Window -> Registry * N2Window)
    (p : Process) :
  (forall st, m1 st = m2 st) -> call self m1 p = call self m2 p.
Proof.
  intros H. unfold call. destruct (heap p !! self); [|reflexivity]. now rewrite H.
Qed.

Lemma bringToFront_again (force : bool) (st : Registry * N2Window) :
  bringToFront false (bringToFront force st) = bringToFront force st.
Proof.
  destruct st as [reg this].
  assert (Hbumped :
    bringToFront false
      (bump reg,
       on_window (Dom.set_style "z-index" (Js.ToString (Js.Num (zIndex reg + 1)))) this)
    = (bump reg,
       on_window (Dom.set_style "z-index" (Js.ToString (Js.Num (zIndex reg + 1)))) this)).
  { unfold bringToFront. cbn [orb on_window _window bump zIndex].
    rewrite style_set_style by apply ToString_nonempty.
    rewrite StringToNumber_ToString. cbn [Js.lt]. now rewrite Z.ltb_irrefl. }
  destruct force; [rewrite bringToFront_force; exact Hbumped|].
  assert (Hcases :
    bringToFront false (reg, this)
    = if Js.lt (Js.StringToNumber (Dom.style "z-index" (_window this)))
               (Js.Num (zIndex reg))
      then (bump reg,
            on_window (Dom.set_style "z-index" (Js.ToString (Js.Num (zIndex reg + 1))))
              this)
      else (reg, this)) by reflexivity.
  rewrite Hcases.
  destruct (Js.lt _ _) eqn:Hlt; [exact Hbumped|].
  unfold bringToFront. cbn [orb]. now rewrite Hlt.
Qed.

Lemma bringToFront_classed (force : bool) (reg : Registry) (this : N2Window)
    (names : string) (b : bool) :
  bringToFront force (reg, on_window (Dom.set_classed names b) this)
    = (fst (bringToFront force (reg, this)),
       on_window (Dom.set_classed names b) (snd (bringToFront force (reg, this)))).
Proof.
  unfold bringToFront. cbn [on_window _window].
  change (Dom.style "z-index" (Dom.set_classed names b (_window this)))
    with (Dom.style "z-index" (_window this)).
  destruct (force || _); reflexivity.
Qed.

Lemma set_hidden_again (hide : bool) (st : Registry * N2Window) :
  set_hidden hide (set_hidden hide st) = set_hidden hide st.
Proof.
  destruct st as [reg this]. unfold set_hidden.
  assert (Hidem : forall this0 : N2Window,
    on_window (Dom.set_classed "window-inactive" hide)
      (on_window (Dom.set_classed "window-inactive" hide) this0)
    = on_window (Dom.set_classed "window-inactive" hide) this0).
  { intros this0. unfold on_window.
    cbn [class_of id_attr _window _header _title _closeButton _footer contents
         resizers min active in_document].
    now rewrite set_classed_idem. }
  destruct hide; cbn [negb].
  - now rewrite Hidem.
  - destruct (bringToFront false (reg, this)) as [reg1 this1] eqn:H1.
    rewrite bringToFront_classed.
    pose proof (bringToFront_again false (reg, this)) as H2. rewrite H1 in H2.
    rewrite H2. cbn [fst snd]. now rewrite Hidem.
Qed.

(** X1. [show()] leaves the window not hidden and [hide()] leaves it
    hidden, whatever its state before. [hide()] changes nothing but the
    [class] attribute of the root: the registry, the styles of the window
    (its [z-index] among them) and the other windows are as before. *)
Theorem hidden_follows_show_and_hide (p : Process) (w : nat) (this : N2Window) :
  heap p !! w = Some this ->
  (exists this', heap (step p (AShow w)) !! w = Some this' /\ hidden this' = false) /\
  (exists this' cls,
     heap (step p (AHide w)) !! w = Some this' /\ hidden this' = true /\
     this' = on_window (Dom.with_class (fun _ => cls)) this) /\
  registry (step p (AHide w)) = registry p /\
  (forall w', w' <> w -> heap (step p (AHide w)) !! w' = heap p !! w').
Proof.
  intros Hw. cbn [step show hide snd]. split; [|split; [|split]].
  - rewrite (call_lookup _ _ _ _ Hw). cbn [heap]. rewrite lookup_insert_eq.
    eexists. split; [reflexivity|]. unfold set_hidden. cbn [negb].
    destruct (bringToFront false (registry p, this)) as [reg1 this1].
    cbn [snd]. unfold hidden. cbn [on_window _window].
    now apply classed_after_remove.
  - rewrite (call_lookup _ _ _ _ Hw). cbn [heap]. rewrite lookup_insert_eq.
    eexists. eexists. split; [reflexivity|]. split.
    + unfold set_hidden. cbn [negb snd]. unfold hidden. cbn [on_window _window].
      now apply classed_after_add.
    + reflexivity.
  - now rewrite (call_lookup _ _ _ _ Hw).
  - intros w' Hne. rewrite (call_lookup _ _ _ _ Hw). cbn [heap].
    now rewrite lookup_insert_ne by congruence.
Qed.

Lemma hidden_follows_show_and_hide_witness :
  heap sample_base !! 0%nat = Some sample_window /\
  exists this', heap (step sample_base (AHide 0%nat)) !! 0%nat = Some this' /\
                hidden this' = true.
Proof.
  assert (Hw : heap sample_base !! 0%nat = Some sample_window)
    by (vm_compute; reflexivity).
  split; [exact Hw|].
  destruct (proj1 (proj2 (hidden_follows_show_and_hide sample_base 0%nat sample_window Hw)))
    as (this' & cls & H1 & H2 & _).
  exists this'. split; [exact H1|exact H2].
Defined.

(** X2. Calling [show()] twice is calling it once, and so for [hide()]: the
    second call changes neither the window nor [N2Window.zIndex]. The same
    holds of [bringToFront()] without [force] right after any
    [bringToFront]: the window is at [N2Window.zIndex] already, or was not
    below it. *)
Theorem show_and_hide_are_idempotent (p : Process) (w : nat) (force : bool) :
  run p [AShow w; AShow w] = run p [AShow w] /\
  run p [AHide w; AHide w] = run p [AHide w] /\
  run p [ABringToFront w force; ABringToFront w false] = run p [ABringToFront w force].
Proof.
  unfold run. cbn [fold_left step show hide snd].
  split; [|split]; rewrite call_call; apply call_ext; intros st.
  - apply set_hidden_again.
  - apply set_hidden_again.
  - apply bringToFront_again.
Qed.

(** ** The counter, over every history *)

Lemma consecutive_bump (z : Z) (l : list Z) :
  l = map (fun i => z - Z.of_nat i) (seq 0 (length l)) ->
  z + 1 :: l
    = map (fun i => z + 1 - Z.of_nat i) (seq 0 (length (z + 1 :: l))).
Proof.
  intros H. cbn [length seq map]. f_equal; [lia|].
  rewrite <- seq_shift, map_map. rewrite H at 1.
  apply map_ext. intros i. lia.
Qed.

(** X3. After any history of the process, [N2Window.zIndex] is 10 plus the
    number of values [bringToFront] has written; those values are 11, 12,
    and so on up to [N2Window.zIndex], each one once ([assigned] lists them
    latest first); and every constructor call, method call or event
    delivered adds at most one, so that the counter is at most 10 plus the
    number of operations. *)
Theorem zIndex_counts_assignments (actions : list Action) :
  let reg := registry (run initial actions) in
  zIndex reg = 10 + Z.of_nat (length (assigned reg)) /\
  assigned reg = map (fun i => zIndex reg - Z.of_nat i) (seq 0 (length (assigned reg))) /\
  (length (assigned reg) <= length actions)%nat.
Proof.
  induction actions as [|a actions IH] using rev_ind.
  - cbn. repeat split; lia.
  - rewrite run_snoc. cbn zeta in *. destruct IH as (Hz & Hl & Hn).
    rewrite length_app. cbn [length].
    destruct (registry_step (run initial actions) a) as [-> | ->].
    + repeat split; [exact Hz|exact Hl|lia].
    + cbn [bump zIndex assigned]. split; [cbn [length]; lia|].
      split; [now apply consecutive_bump|cbn [length]; lia].
Qed.

(** ** The listeners on [window], over every history *)

Lemma no_listener_left (wl : gmap string Listener) :
  (forall type, type <> "mousemove" -> type <> "mouseup" -> wl !! type = None) ->
  delete "mouseup" (delete "mousemove" wl) = ∅.
Proof.
  intros Hother. apply map_eq. intros k. rewrite lookup_empty.
  destruct (decide (k = "mouseup")) as [-> | Hu]; [apply lookup_delete_eq|].
  rewrite lookup_delete_ne by congruence.
  destruct (decide (k = "mousemove")) as [-> | Hm]; [apply lookup_delete_eq|].
  rewrite lookup_delete_ne by congruence. now apply Hother.
Qed.

Lemma idle_no_listener (wl : gmap string Listener) :
  (forall type, type <> "mousemove" -> type <> "mouseup" -> wl !! type = None) ->
  wl !! "mousemove" = None -> wl !! "mouseup" = None -> wl = ∅.
Proof.
  intros Hother Hm Hu. apply map_eq. intros k. rewrite lookup_empty.
  destruct (decide (k = "mouseup")) as [-> | Hu']; [exact Hu|].
  destruct (decide (k = "mousemove")) as [-> | Hm']; [exact Hm|].
  now apply Hother.
Qed.

(** X4. After any history of the process, the listeners on [window] are
    those of at most one interaction: either there is none at all, or
    there are exactly the [mousemove] and the [mouseup] listener one
    pointer-down on a header registered, or exactly the two one
    pointer-down on a resizer registered; both refer to the same window,
    which exists, and in a resize the captured [dirs] are those of one of
    the eight handles and [startSize] is a geometry [_getPos] measured. *)
Theorem pointer_listeners_are_paired (actions : list Action) :
  let p := run initial actions in
  (forall type, type <> "mousemove" -> type <> "mouseup" ->
                window_listeners p !! type = None) /\
  (window_listeners p = ∅ \/
   (exists w dragStart newTrans,
      window_listeners p !! "mousemove" = Some (DragMouseMove w dragStart newTrans) /\
      window_listeners p !! "mouseup" = Some (DragMouseUp w) /\
      is_Some (heap p !! w)) \/
   (exists w name l0 dragStart newPos newSize,
      In name handles /\
      window_listeners p !! "mousemove"
        = Some (ResizeMouseMove w (Js.split "-" name) (_getPos l0) dragStart
                  newPos newSize) /\
      window_listeners p !! "mouseup" = Some (ResizeMouseUp w) /\
      is_Some (heap p !! w))).
Proof.
  intros p. destruct (wf_run actions) as [_ [Hother Hstate]]. fold p in Hother, Hstate.
  split; [exact Hother|].
  destruct Hstate as [[Hm Hu] | [(w & ds & ([nt Hm] & Hu & Hw)) | Hresize]].
  - left. now apply idle_no_listener.
  - right. left. exists w, ds, nt. auto.
  - right. right.
    destruct Hresize as (w & name & l0 & ds & np & ns & this & Hm & Hu & Hin & Hw & _).
    exists w, name, l0, ds, np, ns. repeat split; try assumption. eauto.
Qed.

Lemma pointer_listeners_are_paired_witness :
  "click" <> "mousemove" /\ "click" <> "mouseup" /\
  window_listeners sample_drag !! "click" = None.
Proof.
  split; [discriminate|]. split; [discriminate|].
  apply (proj1 (pointer_listeners_are_paired
                  [ ANew Draggable "myWin2" sample_template None None;
                    AShow 0%nat;
                    ADispatch (OnHeader 0%nat) "mousedown" (mouse_at 150 110)
                      sample_layout ])); discriminate.
Defined.

(** X5. After any history of the process, a [mouseup] delivered to
    [window] leaves no listener on [window]: pointer moves and further
    pointer-ups then change nothing. When it ends a resize, the [mouseup]
    writes nothing: the windows and the registry are as the last
    [mousemove] left them. *)
Theorem pointer_up_ends_interaction (actions : list Action)
    (event : Dom.MouseEvent) (l : Layout) :
  let p := run initial actions in
  let p' := step p (ADispatch OnWindow "mouseup" event l) in
  window_listeners p' = ∅ /\
  (forall type event' l', step p' (ADispatch OnWindow type event' l') = p') /\
  (forall w, window_listeners p !! "mouseup" = Some (ResizeMouseUp w) ->
             heap p' = heap p /\ registry p' = registry p).
Proof.
  intros p p'.
  assert (Hempty : window_listeners p' = ∅).
  { destruct (wf_run actions) as [_ [Hother Hstate]]. fold p in Hother, Hstate.
    subst p'. cbn [step listeners_of].
    destruct Hstate as [[Hm Hu] | [(w & ds & (_ & Hu & _)) | Hresize]].
    - rewrite Hu. now apply idle_no_listener.
    - rewrite Hu. cbn [invoke window_on window_listeners].
      rewrite !window_listeners_call_on. now apply no_listener_left.
    - destruct Hresize as (w & name & l0 & ds & np & ns & this & _ & Hu & _).
      rewrite Hu. cbn [invoke window_on window_listeners].
      now apply no_listener_left. }
  split; [exact Hempty|]. split.
  - intros type event' l'. cbn [step listeners_of]. rewrite Hempty.
    now rewrite lookup_empty.
  - intros w Hu. subst p'. cbn [step listeners_of]. rewrite Hu. cbn. auto.
Qed.

Lemma pointer_up_ends_interaction_witness :
  window_listeners low_resize !! "mouseup" = Some (ResizeMouseUp 0%nat) /\
  heap (step low_resize (ADispatch OnWindow "mouseup" (mouse_at 300 150) low_layout))
    = heap low_resize.
Proof.
  assert (Hu : window_listeners low_resize !! "mouseup" = Some (ResizeMouseUp 0%nat))
    by (vm_compute; reflexivity).
  split; [exact Hu|].
  exact (proj1 (proj2 (proj2 (pointer_up_ends_interaction _ (mouse_at 300 150) low_layout))
                  0%nat Hu)).
Defined.

(** ** Pointer-down *)

Lemma bringToFront_frame (force : bool) (reg : Registry) (this : N2Window) :
  exists f, snd (bringToFront force (reg, this)) = on_window f this /\
    forall e k, k <> "z-index" -> Dom.style_decl (f e) !! k = Dom.style_decl e !! k.
Proof.
  destruct (bringToFront_cases force reg this) as [-> | ->]; cbn [snd].
  - exists (fun e => e). split; [now destruct this|]. reflexivity.
  - eexists. split; [reflexivity|]. intros e k Hk. cbn.
    now rewrite lookup_insert_ne by congruence.
Qed.

Lemma listeners_of_header (p : Process) (w : nat) (type : string) (f : Listener) :
  holds (fun _ w this => wf_window w this) p ->
  listeners_of p (OnHeader w) !! type = Some f ->
  f = DragMouseDown w /\ is_Some (heap p !! w).
Proof.
  intros Hwf Hl. cbn [listeners_of] in Hl.
  destruct (heap p !! w) as [this|] eqn:Hw; [|now rewrite lookup_empty in Hl].
  destruct (Hwf _ _ Hw) as (_ & Hh & _). split; [exact (Hh _ _ Hl)|eauto].
Qed.

Lemma bringToFront_unforced (reg : Registry) (this : N2Window) :
  if Js.lt (Js.StringToNumber (Dom.style "z-index" (_window this))) (Js.Num (zIndex reg))
  then bringToFront false (reg, this)
       = (bump reg,
          on_window (Dom.set_style "z-index" (Js.ToString (Js.Num (zIndex reg + 1))))
            this)
  else bringToFront false (reg, this) = (reg, this).
Proof. unfold bringToFront. cbn [orb]. destruct (Js.lt _ _); reflexivity. Qed.

(** X6. After any history of the process, a [mousedown] delivered to a
    header that has a listener for it starts a drag of the window of that
    header, from the pointer position, with a translation of zero: the
    [mousemove] and [mouseup] listeners on [window] are those of this
    drag, replacing any that were there. The listener does to the window
    and to [N2Window.zIndex] what [bringToFront()] without [force] does,
    then gives the root and the header the cursor [grabbing], and nothing
    else: when the [z-index] of the window is below [N2Window.zIndex], the
    counter rises by one and becomes the [z-index]; when it is not, both
    stay as they are. The styles of the root other than [z-index] and
    [cursor] and the other windows are as before. *)
Theorem header_pointer_down_starts_drag (actions : list Action) (w : nat) (f : Listener)
    (event : Dom.MouseEvent) (l : Layout) :
  let p := run initial actions in
  listeners_of p (OnHeader w) !! "mousedown" = Some f ->
  let p' := step p (ADispatch (OnHeader w) "mousedown" event l) in
  window_listeners p' !! "mousemove"
    = Some (DragMouseMove w (Dom.pageX event, Dom.pageY event) (0, 0)) /\
  window_listeners p' !! "mouseup" = Some (DragMouseUp w) /\
  exists this this',
    heap p !! w = Some this /\ heap p' !! w = Some this' /\
    registry p' = fst (bringToFront false (registry p, this)) /\
    this' = on_header (Dom.set_style "cursor" "grabbing")
              (on_window (Dom.set_style "cursor" "grabbing")
                 (snd (bringToFront false (registry p, this)))) /\
    (if Js.lt (Js.StringToNumber (Dom.style "z-index" (_window this)))
              (Js.Num (zIndex (registry p)))
     then registry p' = bump (registry p) /\
          Dom.style_decl (_window this') !! "z-index"
            = Some (Js.ToString (Js.Num (zIndex (registry p) + 1)))
     else registry p' = registry p /\
          Dom.style_decl (_window this') !! "z-index"
            = Dom.style_decl (_window this) !! "z-index") /\
    Dom.style_decl (_window this') !! "cursor" = Some "grabbing" /\
    Dom.style_decl (_header this') !! "cursor" = Some "grabbing" /\
    (forall k, k <> "z-index" -> k <> "cursor" ->
       Dom.style_decl (_window this') !! k = Dom.style_decl (_window this) !! k) /\
    (forall w', w' <> w -> heap p' !! w' = heap p !! w').
Proof.
  intros p Hl p'.
  destruct (wf_run actions) as [Hwf _]. fold p in Hwf.
  destruct (listeners_of_header p w _ f Hwf Hl) as [-> [this Hw]].
  subst p'. cbn [step]. rewrite Hl. cbn [invoke].
  rewrite (call_lookup _ _ _ _ Hw).
  erewrite call_on_lookup by (cbn [heap]; apply lookup_insert_eq).
  cbn [window_on window_listeners heap registry].
  split; [rewrite lookup_insert_ne by discriminate; apply lookup_insert_eq|].
  split; [apply lookup_insert_eq|].
  exists this. eexists. split; [exact Hw|].
  split; [rewrite insert_insert_eq; apply lookup_insert_eq|].
  split; [reflexivity|]. split; [reflexivity|].
  cbn [on_header on_window _window _header Dom.set_style Dom.with_style Dom.style_decl].
  split.
  { pose proof (bringToFront_unforced (registry p) this) as Hb.
    destruct (Js.lt _ _); rewrite Hb; cbn [fst snd on_window _window Dom.set_style
                                            Dom.with_style Dom.style_decl];
      (split; [reflexivity|]); rewrite lookup_insert_ne by discriminate;
      [apply lookup_insert_eq|reflexivity]. }
  split; [apply lookup_insert_eq|]. split; [apply lookup_insert_eq|]. split.
  - intros k Hz Hc. rewrite lookup_insert_ne by congruence.
    destruct (bringToFront_frame false (registry p) this) as (g & -> & Hframe).
    cbn [on_window _window]. now apply Hframe.
  - intros w' Hne. rewrite insert_insert_eq. now rewrite lookup_insert_ne by congruence.
Qed.

Lemma header_pointer_down_starts_drag_witness :
  listeners_of (run initial [ANew Draggable "myWin2" sample_template None None])
    (OnHeader 0%nat) !! "mousedown" = Some (DragMouseDown 0%nat) /\
  window_listeners
    (step (run initial [ANew Draggable "myWin2" sample_template None None])
       (ADispatch (OnHeader 0%nat) "mousedown" (mouse_at 150 110) sample_layout))
    !! "mouseup" = Some (DragMouseUp 0%nat).
Proof.
  assert (Hl : listeners_of (run initial [ANew Draggable "myWin2" sample_template None None])
                 (OnHeader 0%nat) !! "mousedown" = Some (DragMouseDown 0%nat))
    by (vm_compute; reflexivity).
  split; [exact Hl|].
  exact (proj1 (proj2 (header_pointer_down_starts_drag _ 0%nat _ (mouse_at 150 110)
                         sample_layout Hl))).
Defined.

(** A pointer-down on the header of the lower of two windows raises it,
    and one on the header of the upper window leaves the counter alone. *)
Example scenario_pointer_down_raises :
  let p := run initial [ ANew Draggable "first" sample_template None None;
                         ANew Draggable "second" sample_template None None ] in
  let lower := step p (ADispatch (OnHeader 0%nat) "mousedown" (mouse_at 150 110)
                         sample_layout) in
  let upper := step p (ADispatch (OnHeader 1%nat) "mousedown" (mouse_at 150 110)
                         sample_layout) in
  zIndex (registry p) = 12 /\
  zIndex (registry lower) = 13 /\ z_index_of lower 0%nat = Some "13" /\
  zIndex (registry upper) = 12 /\ z_index_of upper 1%nat = Some "12".
Proof. vm_compute. repeat split. Qed.

(** X7. After any history of the process, a [mousedown] delivered to a
    resizer that has a listener for it starts a resize of the window of
    that resizer by that handle: the geometry [_getPos] measures at that
    moment and the pointer position are captured, the [mousemove] and
    [mouseup] listeners on [window] are those of this resize, and the
    window has its two minimum sizes. The listener does to the window and
    to [N2Window.zIndex] what [bringToFront()] without [force] does, and
    nothing else: when the [z-index] of the window is below
    [N2Window.zIndex], the counter rises by one and becomes the [z-index];
    when it is not, the window and the counter stay as they are. The
    other windows are as before. *)
Theorem resizer_pointer_down_starts_resize (actions : list Action) (w : nat)
    (name : string) (f : Listener) (event : Dom.MouseEvent) (l : Layout) :
  let p := run initial actions in
  listeners_of p (OnResizer w name) !! "mousedown" = Some f ->
  let p' := step p (ADispatch (OnResizer w name) "mousedown" event l) in
  In name handles /\
  window_listeners p' !! "mousemove"
    = Some (ResizeMouseMove w (Js.split "-" name) (_getPos l)
              (Dom.pageX event, Dom.pageY event) [Js.Num 0; Js.Num 0] ∅) /\
  window_listeners p' !! "mouseup" = Some (ResizeMouseUp w) /\
  exists this this' minWidth minHeight,
    heap p !! w = Some this /\ heap p' !! w = Some this' /\
    (registry p', this') = bringToFront false (registry p, this) /\
    (if Js.lt (Js.StringToNumber (Dom.style "z-index" (_window this)))
              (Js.Num (zIndex (registry p)))
     then registry p' = bump (registry p) /\
          this' = on_window
                    (Dom.set_style "z-index"
                       (Js.ToString (Js.Num (zIndex (registry p) + 1)))) this
     else registry p' = registry p /\ this' = this) /\
    min_is this minWidth minHeight /\ min_is this' minWidth minHeight /\
    (forall k, k <> "z-index" ->
       Dom.style_decl (_window this') !! k = Dom.style_decl (_window this) !! k) /\
    (forall w', w' <> w -> heap p' !! w' = heap p !! w').
Proof.
  intros p Hl p'.
  destruct (wf_run actions) as [Hwf _]. fold p in Hwf.
  destruct (listeners_of_resizer p w name _ f Hwf Hl) as (Hin & -> & this & Hw & Hr).
  destruct (Hwf _ _ Hw) as (_ & _ & _ & Hmin).
  destruct (Hmin Hr) as (mw & mh & Hmin').
  subst p'. cbn [step]. rewrite Hl. cbn [invoke].
  rewrite (call_lookup _ _ _ _ Hw).
  cbn [window_on window_listeners heap registry].
  split; [exact Hin|].
  split; [rewrite lookup_insert_ne by discriminate; apply lookup_insert_eq|].
  split; [apply lookup_insert_eq|].
  exists this, (snd (bringToFront false (registry p, this))), mw, mh.
  split; [exact Hw|]. split; [apply lookup_insert_eq|].
  split; [now destruct (bringToFront false (registry p, this))|].
  split.
  { pose proof (bringToFront_unforced (registry p) this) as Hb.
    destruct (Js.lt _ _); rewrite Hb; split; reflexivity. }
  destruct (bringToFront_frame false (registry p) this) as (g & -> & Hframe).
  split; [exact Hmin'|]. split; [exact Hmin'|].
  split.
  - intros k Hz. cbn [on_window _window]. now apply Hframe.
  - intros w' Hne. now rewrite lookup_insert_ne by congruence.
Qed.

Lemma resizer_pointer_down_starts_resize_witness :
  listeners_of sample_resizable (OnResizer 0%nat "top-left") !! "mousedown"
    = Some (ResizeMouseDown 0%nat ["top"; "left"]) /\
  window_listeners
    (step sample_resizable
       (ADispatch (OnResizer 0%nat "top-left") "mousedown" (mouse_at 100 100)
          sample_layout)) !! "mouseup" = Some (ResizeMouseUp 0%nat).
Proof.
  assert (Hl : listeners_of sample_resizable (OnResizer 0%nat "top-left") !! "mousedown"
               = Some (ResizeMouseDown 0%nat ["top"; "left"]))
    by (vm_compute; reflexivity).
  split; [exact Hl|].
  exact (proj1 (proj2 (proj2 (resizer_pointer_down_starts_resize
                                [ANew Resizable "myWin3" sample_template None None]
                                0%nat "top-left" _ (mouse_at 100 100) sample_layout Hl)))).
Defined.

(** ** The close button, over every history *)

Lemma close_click_keeps (m : N2Window -> N2Window) :
  (forall this, Dom.listeners (_closeButton (m this)) = Dom.listeners (_closeButton this)
                /\ in_document (m this) = in_document this) ->
  keeps (fun _ w this => close_click_ok w this) m.
Proof.
  intros Hm reg w this H. unfold close_click_ok in *.
  destruct (Hm this) as [-> ->]. exact H.
Qed.

Lemma close_click_set (opt val : string) (this : N2Window) :
  Dom.listeners (_closeButton (set opt val this)) = Dom.listeners (_closeButton this)
  /\ in_document (set opt val this) = in_document this.
Proof.
  unfold set, title, theme.
  destruct (String.eqb opt "title"); [destruct (Js.truthy _); split; reflexivity|].
  destruct (String.eqb opt "theme"); [destruct (Js.truthy _); split; reflexivity|].
  split; reflexivity.
Qed.

Lemma close_click_setList (options : list (string * string)) (this : N2Window) :
  Dom.listeners (_closeButton (setList options this)) = Dom.listeners (_closeButton this)
  /\ in_document (setList options this) = in_document this.
Proof.
  unfold setList. revert this. induction options as [|o options IH]; intros this.
  - split; reflexivity.
  - cbn [fold_left]. destruct (IH (set (fst o) (snd o) this)) as [-> ->].
    apply close_click_set.
Qed.

Lemma close_click__setPos (newPos : gmap string Js.number) (this : N2Window) :
  Dom.listeners (_closeButton (_setPos newPos this)) = Dom.listeners (_closeButton this)
  /\ in_document (_setPos newPos this) = in_document this.
Proof. rewrite _setPos_unfold. split; reflexivity. Qed.

Lemma close_click_close (w : nat) (this : N2Window) :
  close_click_ok w (close this) /\ in_document (close this) = false.
Proof.
  unfold close_click_ok, close, N2WindowDraggable_close, N2Window_close.
  destruct (class_of this); cbn; split; try reflexivity; apply lookup_delete_eq.
Qed.

Lemma close_click_bringToFront (self : nat) (force : bool) (p : Process) :
  holds (fun _ w this => close_click_ok w this) p ->
  holds (fun _ w this => close_click_ok w this) (call self (bringToFront force) p).
Proof.
  apply holds_bringToFront.
  - intros reg w this H. exact H.
  - intros reg w this H. exact H.
Qed.

Lemma close_click_invoke (f : Listener) (event : Dom.MouseEvent) (l : Layout)
    (p : Process) :
  holds (fun _ w this => close_click_ok w this) p ->
  holds (fun _ w this => close_click_ok w this) (invoke f event l p).
Proof.
  intros H. destruct f; cbn [invoke].
  - apply holds_call_on; [|exact H].
    intros reg w this _. apply (close_click_close w this).
  - do 2 apply holds_window_on. apply holds_call_on.
    + apply close_click_keeps. intros this. split; reflexivity.
    + now apply close_click_bringToFront.
  - apply holds_window_on, holds_call_on; [|exact H].
    apply close_click_keeps. intros this. split; reflexivity.
  - do 2 apply holds_window_on. apply holds_call_on.
    + apply close_click_keeps. intros this. split; reflexivity.
    + apply holds_call_on; [|exact H].
      apply close_click_keeps, close_click__setPos.
  - do 2 apply holds_window_on. now apply close_click_bringToFront.
  - destruct (heap p !! self); [|exact H].
    destruct (resize_newSize _ _ _ _ _ _); [|exact H].
    apply holds_window_on, holds_call_on; [|exact H].
    apply close_click_keeps, close_click__setPos.
  - exact H.
Qed.

Lemma close_click_step (p : Process) (a : Action) :
  holds (fun _ w this => close_click_ok w this) p ->
  holds (fun _ w this => close_click_ok w this) (step p a).
Proof.
  intros H. destruct a; cbn [step].
  - apply (holds_construct _ (fun _ => True)); [| |exact I|exact H].
    + intros reg w this Hq. exact Hq.
    + intros c0 self newId0 tpl0 mw mh reg _. unfold close_click_ok.
      destruct c0; cbn; apply lookup_insert_eq.
  - now apply close_click_bringToFront.
  - apply holds_set_hidden;
      [intros reg w0 this Hq; exact Hq | intros reg w0 this Hq; exact Hq
      |intros n b reg w0 this Hq; exact Hq | exact H].
  - apply holds_set_hidden;
      [intros reg w0 this Hq; exact Hq | intros reg w0 this Hq; exact Hq
      |intros n b reg w0 this Hq; exact Hq | exact H].
  - apply holds_call_on; [|exact H]. apply close_click_keeps. intros this.
    unfold title. destruct (Js.truthy _); split; reflexivity.
  - apply holds_call_on; [|exact H]. apply close_click_keeps. intros this.
    unfold theme. destruct (Js.truthy _); split; reflexivity.
  - apply holds_call_on; [|exact H]. apply close_click_keeps, close_click_set.
  - apply holds_call_on; [|exact H]. apply close_click_keeps, close_click_setList.
  - apply holds_call_on; [|exact H].
    intros reg w0 this _. apply (close_click_close w0 this).
  - apply holds_call_on; [|exact H]. apply close_click_keeps. intros this.
    split; reflexivity.
  - apply holds_call_on; [|exact H]. apply close_click_keeps. intros this.
    split; reflexivity.
  - apply holds_call_on; [|exact H]. apply close_click_keeps. intros this.
    split; reflexivity.
  - apply holds_call_on; [|exact H]. apply close_click_keeps. intros this.
    split; reflexivity.
  - apply holds_call_on; [|exact H]. apply close_click_keeps. intros this.
    unfold move. destruct (not_active this); cbn [snd]; [split; reflexivity|].
    apply close_click__setPos.
  - apply holds_call_on; [|exact H]. apply close_click_keeps. intros this.
    unfold sizeToContent. apply close_click_setList.
  - apply holds_call_on; [|exact H]. apply close_click_keeps. intros this.
    destruct (class_of this); split; reflexivity.
  - apply holds_call_on; [|exact H]. apply close_click_keeps. intros this.
    destruct (class_of this); split; reflexivity.
  - destruct (listeners_of p t !! type); [now apply close_click_invoke|exact H].
Qed.

Lemma close_click_run (actions : list Action) :
  holds (fun _ w this => close_click_ok w this) (run initial actions).
Proof.
  apply (run_invariant (holds (fun _ w this => close_click_ok w this)) (fun _ => True)).
  - unfold holds. cbn. apply map_Forall_empty.
  - intros p a _. apply close_click_step.
  - apply Forall_forall. trivial.
Qed.

(** X8. After any history of the process, a window that has not been
    closed has the [click] listener of its constructor on its close
    button, hidden or not, and a closed window has none. A [click]
    delivered to the close button of a window in the document does what
    [close()] does: the root is removed and the listener detached. A
    [click] on the close button of a closed window does nothing. *)
Theorem close_button_closes (actions : list Action) (w : nat) (this : N2Window)
    (event : Dom.MouseEvent) (l : Layout) :
  let p := run initial actions in
  heap p !! w = Some this ->
  let p' := step p (ADispatch (OnCloseButton w) "click" event l) in
  (in_document this = true ->
   p' = step p (AClose w) /\
   heap p' !! w = Some (close this) /\
   in_document (close this) = false /\
   listeners_of p' (OnCloseButton w) !! "click" = None) /\
  (in_document this = false -> p' = p).
Proof.
  intros p Hw p'. pose proof (close_click_run actions w this Hw) as Hq.
  cbn beta in Hq. unfold close_click_ok in Hq.
  subst p'. cbn [step listeners_of]. rewrite Hw. split; intros Hdoc; rewrite Hdoc in Hq.
  - rewrite Hq. cbn [invoke]. split; [reflexivity|].
    rewrite (call_on_lookup _ _ _ _ Hw). cbn [heap]. rewrite lookup_insert_eq.
    split; [reflexivity|].
    destruct (close_click_close w this) as [Hc Hd].
    split; [exact Hd|]. unfold close_click_ok in Hc. now rewrite Hd in Hc.
  - now rewrite Hq.
Qed.

Lemma close_button_closes_witness :
  heap sample_base !! 0%nat = Some sample_window /\
  in_document sample_window = true /\
  step sample_base (ADispatch (OnCloseButton 0%nat) "click" (mouse_at 0 0) sample_layout)
    = step sample_base (AClose 0%nat).
Proof.
  assert (Hw : heap sample_base !! 0%nat = Some sample_window)
    by (vm_compute; reflexivity).
  split; [exact Hw|]. split; [reflexivity|].
  exact (proj1 (proj1 (close_button_closes
                         [ANew Base "myWin" sample_template None None] 0%nat
                         sample_window (mouse_at 0 0) sample_layout Hw) eq_refl)).
Defined.

(** ** Construction *)

Lemma new_window (c : ClassTag) (self : nat) (newId : string) (tpl : Template)
    (minWidth minHeight : option Z) (reg : Registry) :
  let this := snd (new c self newId tpl minWidth minHeight reg) in
  class_of this = c /\ id_attr this = newId /\ in_document this = true /\
  Dom.style_decl (_window this) !! "z-index"
    = Some (Js.ToString (Js.Num (zIndex reg + 1))) /\
  Dom.listeners (_closeButton this) !! "click" = Some (CloseClick self).
Proof.
  destruct c; cbn; repeat split; apply lookup_insert_eq.
Qed.




(** X10. The object the constructor of [N2WindowResizable] builds has
    the two minimum sizes given (200 for one that is [undefined]), the
    draggable header with its [mousedown] listener, and one resizer for
    each of the eight handle names, in the order of [resizerClassNames],
    whose only listener is the [mousedown] listener that captures the
    directions of its name. The names are distinct; the directions of a
    name are one or two keys of [dirVals], distinct, and never two
    opposite ones. *)
Theorem resizable_has_eight_handles (self : nat) (newId : string) (tpl : Template)
    (minWidth minHeight : option Z) (reg : Registry) :
  let this := snd (N2WindowResizable_constructor self newId tpl minWidth minHeight reg) in
  get_minWidth this = Some (Js.Num (default 200 minWidth)) /\
  get_minHeight this = Some (Js.Num (default 200 minHeight)) /\
  Dom.classed "window-draggable-header" (_header this) = true /\
  Dom.listeners (_header this) !! "mousedown" = Some (DragMouseDown self) /\
  map fst (resizers this) = handles /\
  Forall (fun r => Dom.listeners (snd r)
                   = {["mousedown" := ResizeMouseDown self (Js.split "-" (fst r))]})
         (resizers this) /\
  length handles = 8%nat /\ List.NoDup handles /\
  Forall (fun name =>
            let dirs := Js.split "-" name in
            Forall (fun d => is_Some (dirVals !! d)) dirs /\
            List.NoDup dirs /\ (1 <= length dirs <= 2)%nat /\
            ~ (In "left" dirs /\ In "right" dirs) /\
            ~ (In "top" dirs /\ In "bottom" dirs))
         handles.
Proof.
  cbn zeta. unfold N2WindowResizable_constructor, N2WindowDraggable_constructor,
    N2Window_constructor. rewrite bringToFront_force.
  split; [reflexivity|]. split; [reflexivity|]. split.
  { unfold _setupResizers, _setupDrag. cbn [fold_left resizerClassNames].
    cbn [with_resizers with_min on_header on_closeButton on_window _header].
    now apply classed_after_add. }
  split; [apply lookup_insert_eq|].
  split; [reflexivity|]. split.
  { unfold _setupResizers. cbn [fold_left resizerClassNames with_resizers resizers app
                                fst snd].
    repeat (apply Forall_cons; split; [reflexivity|]). apply Forall_nil.
    exact I. }
  split; [reflexivity|]. split.
  { unfold handles. cbn [map fst resizerClassNames].
    repeat (apply List.NoDup_cons; [cbn; intuition discriminate|]). apply List.NoDup_nil. }
  unfold handles. cbn [map fst resizerClassNames].
  repeat (apply Forall_cons; split;
          [cbn zeta; vm_compute Js.split;
           split; [repeat (apply Forall_cons; split; [vm_compute; eauto|]); apply Forall_nil; exact I|];
           split; [repeat (apply List.NoDup_cons; [cbn; intuition discriminate|]);
                   apply List.NoDup_nil|];
           split; [cbn; lia|];
           split; cbn; intuition discriminate|]).
  apply Forall_nil. exact I.
Qed.

Lemma resizable_has_eight_handles_witness :
  ~ (In "left" (Js.split "-" "top-left") /\ In "right" (Js.split "-" "top-left")).
Proof.
  pose proof (resizable_has_eight_handles 0%nat "myWin3" sample_template None None
                (mkRegistry 10 [])) as H.
  cbn zeta in H. destruct H as (_ & _ & _ & _ & _ & _ & _ & _ & Hdirs).
  pose proof (proj1 (Forall_forall _ _) Hdirs "top-left") as Hd. cbn beta zeta in Hd.
  apply Hd. vm_compute. repeat constructor.
Defined.

(** ** The minimum sizes *)

(** A window with resizers is an [N2WindowResizable]. *)
Lemma resizers_class_run (actions : list Action) :
  holds (fun _ _ this => resizers this <> [] -> class_of this = Resizable)
        (run initial actions).
Proof.
  apply (holds_run (fun _ _ this => resizers this <> [] -> class_of this = Resizable)
           (fun _ => True) (fun _ => True));
    try (intros; intros ? ? ? Hq; exact Hq); try (intros ? ? ? Hq; exact Hq).
  - repeat constructor.
  - intros c self newId tpl mw mh reg _. destruct c.
    + intros Hne. exfalso. apply Hne. reflexivity.
    + intros Hne. exfalso. apply Hne. reflexivity.
    + intros _. reflexivity.
  - trivial.
  - apply every_action_allowed.
Qed.

Lemma resizing_set_min (p : Process) (w : nat) (name : string) (l0 : Layout)
    (dragStart : Z * Z) (minWidth minHeight : Z) (this : N2Window)
    (m : N2Window -> N2Window) (minWidth' minHeight' : Z) :
  resizing p w name l0 dragStart minWidth minHeight ->
  heap p !! w = Some this ->
  min_is (m this) minWidth' minHeight' ->
  resizing (call_on w m p) w name l0 dragStart minWidth' minHeight'.
Proof.
  intros (Hin & Hm & _) Hw Hmin. rewrite (call_on_lookup _ _ _ _ Hw).
  split; [exact Hin|]. split; [exact Hm|].
  exists (m this). cbn [heap]. split; [apply lookup_insert_eq|exact Hmin].
Qed.

(** X11. The setters [minWidth] and [minHeight] store the value that the
    getter of the same name then returns, and leave the other minimum as it
    is. The [mousemove] listener of a resize reads [this.min] on every
    move: after any history of the process, a minimum set while a resize is
    in progress decides the geometry the next [mousemove] writes. *)
Theorem min_setters_take_effect_at_once (actions : list Action) (w : nat)
    (dirs : list string) (startSize : gmap string Js.number) (dragStart : Z * Z)
    (newPos : list Js.number) (newSize : gmap string Js.number)
    (val : Z) (event : Dom.MouseEvent) (l : Layout) :
  let p := run initial actions in
  (forall this,
     get_minWidth (set_minWidth val this) = Some (Js.Num val) /\
     get_minHeight (set_minWidth val this) = get_minHeight this /\
     get_minHeight (set_minHeight val this) = Some (Js.Num val) /\
     get_minWidth (set_minHeight val this) = get_minWidth this) /\
  (window_listeners p !! "mousemove"
     = Some (ResizeMouseMove w dirs startSize dragStart newPos newSize) ->
   exists name l0 minWidth minHeight this1 this2,
     dirs = Js.split "-" name /\ startSize = _getPos l0 /\
     (exists this, heap p !! w = Some this /\ min_is this minWidth minHeight) /\
     heap (run p [ASetMinWidth w val; ADispatch OnWindow "mousemove" event l]) !! w
       = Some this1 /\
     written this1 (spec_resize name l0 val minHeight dragStart event) /\
     heap (run p [ASetMinHeight w val; ADispatch OnWindow "mousemove" event l]) !! w
       = Some this2 /\
     written this2 (spec_resize name l0 minWidth val dragStart event)).
Proof.
  intros p. split.
  { intros this. unfold get_minWidth, get_minHeight, set_minWidth, set_minHeight.
    cbn [with_min min]. rewrite !lookup_insert_eq.
    now rewrite !lookup_insert_ne by discriminate. }
  intros Hm.
  destruct (reachable_resizing actions w dirs startSize dragStart newPos newSize Hm)
    as (name & l0 & mw & mh & -> & -> & Hres).
  fold p in Hres. pose proof Hres as (Hin & _ & this & Hw & Hmw & Hmh).
  assert (Hclass : class_of this = Resizable).
  { destruct (wf_run actions) as [_ [_ Hstate]]. fold p in Hstate.
    destruct Hstate as [[Hidle _] | [(w' & ds & ([nt Hm'] & _)) | Hresize]];
      [congruence|congruence|].
    destruct Hresize as (w' & name' & l0' & ds & np & ns & this' & Hm' & _ & _ & Hw' & Hr).
    rewrite Hm in Hm'. injection Hm' as <- _ _ _ _ _.
    rewrite Hw in Hw'. injection Hw' as <-.
    exact (resizers_class_run actions w this Hw Hr). }
  unfold run. cbn [fold_left].
  assert (H1 : resizing (step p (ASetMinWidth w val)) w name l0 dragStart val mh).
  { cbn [step].
    apply (resizing_set_min p w name l0 dragStart mw mh this); [exact Hres|exact Hw|].
    rewrite Hclass. split; cbn [set_minWidth with_min min].
    - apply lookup_insert_eq.
    - now rewrite lookup_insert_ne by discriminate. }
  assert (H2 : resizing (step p (ASetMinHeight w val)) w name l0 dragStart mw val).
  { cbn [step].
    apply (resizing_set_min p w name l0 dragStart mw mh this); [exact Hres|exact Hw|].
    rewrite Hclass. split; cbn [set_minHeight with_min min].
    - now rewrite lookup_insert_ne by discriminate.
    - apply lookup_insert_eq. }
  destruct (resizing_mousemove _ w name l0 dragStart val mh event l H1)
    as (_ & this1 & Hw1 & Hwr1).
  destruct (resizing_mousemove _ w name l0 dragStart mw val event l H2)
    as (_ & this2 & Hw2 & Hwr2).
  exists name, l0, mw, mh, this1, this2.
  split; [reflexivity|]. split; [reflexivity|].
  split; [exists this; split; [exact Hw|split; assumption]|].
  split; [exact Hw1|]. split; [exact Hwr1|]. split; [exact Hw2|exact Hwr2].
Qed.

Lemma min_setters_take_effect_at_once_witness :
  window_listeners low_resize !! "mousemove"
    = Some (ResizeMouseMove 0%nat ["right"] (_getPos low_layout) (400, 150)
              [Js.Num 0; Js.Num 0] ∅) /\
  exists name l0 minHeight this1,
    ["right"] = Js.split "-" name /\ _getPos low_layout = _getPos l0 /\
    heap (run low_resize
            [ASetMinWidth 0%nat 250;
             ADispatch OnWindow "mousemove" (mouse_at 0 150) low_layout]) !! 0%nat
      = Some this1 /\
    written this1 (spec_resize name l0 250 minHeight (400, 150) (mouse_at 0 150)).
Proof.
  assert (Hm : window_listeners low_resize !! "mousemove"
               = Some (ResizeMouseMove 0%nat ["right"] (_getPos low_layout) (400, 150)
                         [Js.Num 0; Js.Num 0] ∅)) by (vm_compute; reflexivity).
  split; [exact Hm|].
  destruct (proj2 (min_setters_take_effect_at_once _ 0%nat _ _ _ _ _ 250
                     (mouse_at 0 150) low_layout) Hm)
    as (name & l0 & mw & mh & this1 & this2 & Hd & Hs & _ & Hw1 & Hwr1 & _).
  exists name, l0, mh, this1.
  exact (conj Hd (conj Hs (conj Hw1 Hwr1))).
Defined.

Example scenario_minimum_set_during_resize :
  let p := run low_resize
             [ASetMinWidth 0%nat 250;
              ADispatch OnWindow "mousemove" (mouse_at 0 150) low_layout] in
  style_of p 0%nat "width" = Some "250px" /\
  style_of p 0%nat "right" = Some "650px".
Proof. vm_compute. repeat split. Qed.

(** ** [theme] on a class list without a theme class *)

Lemma tokens_app_word (sp : ascii -> bool) (p : string) (c : ascii) (s : string) :
  Js.is_word sp p -> sp c = false ->
  Js.tokens sp (p +:+ String c s)
    = match Js.tokens sp (String c s) with
      | t :: r => (p +:+ t) :: r
      | [] => [p]
      end.
Proof.
  intros [Hne Hns] Hc. induction p as [|a p IH]; [congruence|].
  cbn in Hns. apply andb_prop in Hns as [Ha Hp]. apply negb_true_iff in Ha.
  destruct p as [|b p'].
  - change (String a "" +:+ String c s) with (String a (String c s)).
    change (Js.tokens sp (String a (String c s)))
      with (if sp a then Js.tokens sp (String c s)
            else if sp c then String a EmptyString :: Js.tokens sp (String c s)
                 else match Js.tokens sp (String c s) with
                      | t :: r => String a t :: r
                      | [] => [String a EmptyString]
                      end).
    rewrite Ha, Hc. destruct (Js.tokens sp (String c s)); reflexivity.
  - assert (Hb : sp b = false).
    { cbn in Hp. apply andb_prop in Hp as [Hb _]. now apply negb_true_iff. }
    specialize (IH ltac:(discriminate) Hp).
    change (Js.tokens sp (String a (String b p') +:+ String c s))
      with (if sp a then Js.tokens sp (String b p' +:+ String c s)
            else if sp b
                 then String a EmptyString :: Js.tokens sp (String b p' +:+ String c s)
                 else match Js.tokens sp (String b p' +:+ String c s) with
                      | t :: r => String a t :: r
                      | [] => [String a EmptyString]
                      end).
    rewrite Ha, Hb, IH. destruct (Js.tokens sp (String c s)); reflexivity.
Qed.

(** The tokens of a string after the first are tokens of the string with a
    word in front. *)
Lemma tokens_behind_word (sp : ascii -> bool) (p s : string) (c t : string)
    (cs : list string) :
  Js.is_word sp p -> Js.tokens sp s = c :: cs -> In t cs ->
  In t (Js.tokens sp (p +:+ s)).
Proof.
  intros Hp Hs Ht. destruct s as [|a s]; [discriminate|].
  destruct (sp a) eqn:Ha.
  - rewrite tokens_word_app; [|exact Hp|right; eauto].
    right. rewrite Hs. now right.
  - rewrite tokens_app_word by assumption. rewrite Hs. now right.
Qed.

Lemma contains_fold_remove (t : string) (l ts : list string) :
  Dom.contains t (fold_left Dom.remove_token l ts)
    = Dom.contains t ts && negb (Dom.contains t l).
Proof.
  revert ts. induction l as [|u l IH]; intros ts; cbn [fold_left].
  - cbn. now rewrite andb_true_r.
  - rewrite IH. cbn [Dom.contains existsb]. fold (Dom.contains t l).
    destruct (String.eqb_spec t u) as [-> | Hne].
    + rewrite contains_remove_token. cbn. now rewrite andb_false_r.
    + now rewrite contains_remove_other by exact Hne.
Qed.

Lemma fold_remove_words (sp : ascii -> bool) (l ts : list string) :
  Forall (Js.is_word sp) ts -> Forall (Js.is_word sp) (fold_left Dom.remove_token l ts).
Proof.
  revert ts. induction l as [|u l IH]; intros ts H; [exact H|].
  cbn [fold_left]. now apply IH, remove_token_words.
Qed.

(** After [classed(removed, false)] and [classed(added, true)], a class
    named in [removed] and not in [added] is not in the class list. *)
Lemma classed_after_remove_names (t removed added : string) (e : Dom.Element) :
  Js.is_word Js.is_space t ->
  In t (Js.tokens Js.is_space removed) ->
  ~ In t (Js.tokens Js.is_space added) ->
  Dom.classed t (Dom.set_classed added true (Dom.set_classed removed false e)) = false.
Proof.
  intros Ht Hin Hnot. rewrite classed_word by exact Ht.
  unfold Dom.set_classed, Dom.with_class. cbn [Dom.class_attr].
  rewrite contains_token_set_join.
  - rewrite contains_fold_add, contains_token_set_join.
    + rewrite contains_fold_remove.
      apply contains_In in Hin. rewrite Hin. cbn [negb]. rewrite andb_false_r.
      cbn [orb]. destruct (Dom.contains t (Js.tokens Js.is_space added)) eqn:Hc;
        [|reflexivity].
      apply contains_In in Hc. contradiction.
    + apply fold_remove_words, token_set_words.
  - apply fold_add_words.
    + eapply Forall_impl; [apply tokens_words|]. apply word_ascii.
    + apply token_set_words.
Qed.

(** X12. When the pattern of [theme] does not match the class list of the
    contents element (it has no theme class), [replace] returns the whole
    [class] attribute: that is what [theme()] returns, and [theme(newTheme)]
    passes it, with [window-theme-] in front, to [classed(..., false)],
    which removes every name in it. Every class of the attribute after the
    first is therefore removed from the element. *)
Theorem theme_without_theme_class_removes_classes (newTheme : string) (this : N2Window)
    (c t : string) (cs : list string) :
  let attr := Dom.class_attr (contents this) in
  replace_theme attr = attr ->
  Js.is_word Js.is_space newTheme ->
  Js.tokens Js.is_space attr = c :: cs ->
  In t cs -> t <> "window-theme-" +:+ newTheme ->
  fst (theme None this) = RString attr /\
  fst (theme (Some newTheme) this) = RThis /\
  Dom.classed t (contents (snd (theme (Some newTheme) this))) = false.
Proof.
  intros attr Hrep Hnew Hattr Hin Hne. unfold theme. fold attr. rewrite Hrep.
  assert (Htruthy : Js.truthy (Some newTheme) = true).
  { destruct Hnew as [Hnew _]. destruct newTheme; [congruence|reflexivity]. }
  rewrite Htruthy. cbn [Js.truthy fst snd default from_option id on_contents contents].
  split; [reflexivity|]. split; [reflexivity|].
  assert (Hprefix : Js.is_word Js.is_space "window-theme-") by (split; [discriminate|reflexivity]).
  apply classed_after_remove_names.
  - pose proof (tokens_words Js.is_space attr) as Hw. rewrite Hattr in Hw.
    inversion Hw as [|? ? _ Hcs]; subst.
    apply (proj1 (Forall_forall _ _) Hcs). now apply list_elem_of_In.
  - now apply (tokens_behind_word _ _ _ c t cs).
  - rewrite tokens_single.
    + intros [Heq | []]. congruence.
    + destruct Hnew as [Hn Hns]. split; [discriminate|].
      rewrite no_sep_app. now rewrite Hns.
Qed.

Lemma theme_without_theme_class_removes_classes_witness :
  let this := on_contents (Dom.with_class (fun _ => "window-contents scrollable"))
                sample_window in
  replace_theme "window-contents scrollable" = "window-contents scrollable" /\
  Dom.classed "scrollable" (contents this) = true /\
  fst (theme None this) = RString "window-contents scrollable" /\
  Dom.classed "scrollable" (contents (snd (theme (Some "dark") this))) = false.
Proof.
  cbn zeta. split; [vm_compute; reflexivity|]. split; [vm_compute; reflexivity|].
  destruct (theme_without_theme_class_removes_classes "dark"
              (on_contents (Dom.with_class (fun _ => "window-contents scrollable"))
                 sample_window)
              "window-contents" "scrollable" ["scrollable"]) as (H1 & _ & H3).
  - vm_compute. reflexivity.
  - split; [discriminate|reflexivity].
  - vm_compute. reflexivity.
  - left. reflexivity.
  - discriminate.
  - split; [exact H1|exact H3].
Defined.

(** ** [move] on a window that has been given [active] *)

(** X13. For a window whose property [active] is [true] (which only code
    outside the three classes can assign), [move(event, offset)] returns
    the window and writes a geometry with the measured width and height:
    with the pointer in the left half of the browser window, [left] is the
    pointer position plus [offset] (15 when it is [undefined]) and [right]
    is [left] plus the width; in the right half, [right] is the pointer
    position minus [offset] and [left] is [right] minus the width; and
    likewise for [top] and [bottom]. So [right - left] is the width and
    [bottom - top] the height, and the offsets add up with the dimensions
    to those of the container, as they do in what [_getPos] returns, only
    when [right] and [bottom] are half the width and half the height of
    the container. *)
Theorem move_of_active_window (event : Dom.MouseEvent) (offset : option Z) (l : Layout)
    (innerWidth innerHeight : Z) (this : N2Window) :
  active this = Some true ->
  let off := default 15 offset in
  let width := Dom.width (childPos l) in
  let height := Dom.height (childPos l) in
  let left_half := 2 * Dom.clientX event <? innerWidth in
  let top_half := 2 * Dom.clientY event <? innerHeight in
  let g :=
    mkGeometry
      (if top_half then Dom.pageY event + off else Dom.pageY event - off - height)
      (if left_half then Dom.pageX event + off + width else Dom.pageX event - off)
      (if top_half then Dom.pageY event + off + height else Dom.pageY event - off)
      (if left_half then Dom.pageX event + off else Dom.pageX event - off - width)
      width height in
  fst (move event offset l innerWidth innerHeight this) = RThis /\
  written (snd (move event offset l innerWidth innerHeight this)) g /\
  g_right g - g_left g = width /\ g_bottom g - g_top g = height /\
  (consistent (parentPos l) g <->
   Dom.width (parentPos l) = 2 * g_right g /\ Dom.height (parentPos l) = 2 * g_bottom g).
Proof.
  intros Hactive off width height left_half top_half g.
  unfold move, not_active. rewrite Hactive. cbn [fst snd].
  split; [reflexivity|]. split.
  - apply _setPos_written. subst g left_half top_half.
    destruct (2 * Dom.clientX event <? innerWidth),
             (2 * Dom.clientY event <? innerHeight);
      repeat split.
  - subst g. unfold consistent. cbn [g_top g_right g_bottom g_left g_width g_height].
    destruct left_half, top_half; repeat split; lia.
Qed.

Lemma move_of_active_window_witness :
  active (activated sample_window) = Some true /\
  written (snd (move (mouse_at 200 500) None sample_layout 1000 800
                  (activated sample_window)))
    (mkGeometry 185 515 485 215 300 300).
Proof.
  split; [reflexivity|].
  exact (proj1 (proj2 (move_of_active_window (mouse_at 200 500) None sample_layout
                         1000 800 (activated sample_window) eq_refl))).
Defined.

(** ** [set] and [setList] *)

Lemma set_commute (k1 v1 k2 v2 : string) (this : N2Window) :
  k1 <> k2 ->
  set k1 v1 (set k2 v2 this) = set k2 v2 (set k1 v1 this).
Proof.
  intros Hne. unfold set.
  destruct (String.eqb_spec k1 "title") as [-> | H1t];
    destruct (String.eqb_spec k2 "title") as [-> | H2t]; try congruence.
  - destruct (String.eqb_spec k2 "theme") as [-> | H2h].
    + unfold title, theme. destruct (Js.truthy (Some v1)), (Js.truthy (Some v2));
        reflexivity.
    + unfold title. destruct (Js.truthy (Some v1)); reflexivity.
  - destruct (String.eqb_spec k1 "theme") as [-> | H1h].
    + unfold title, theme. destruct (Js.truthy (Some v1)), (Js.truthy (Some v2));
        reflexivity.
    + unfold title. destruct (Js.truthy (Some v2)); reflexivity.
  - destruct (String.eqb_spec k1 "theme") as [-> | H1h];
      destruct (String.eqb_spec k2 "theme") as [-> | H2h]; try congruence.
    + unfold theme. destruct (Js.truthy (Some v1)); reflexivity.
    + unfold theme. destruct (Js.truthy (Some v2)); reflexivity.
    + unfold on_window, Dom.set_style, Dom.with_style.
      cbn [class_of id_attr _window _header _title _closeButton _footer contents
           resizers min active in_document Dom.style_decl Dom.sheet Dom.class_attr
           Dom.innerHTML Dom.listeners].
      f_equal. f_equal. now apply insert_insert_ne.
Qed.

(** X14. For an object [options] (its names are distinct) whose names
    are [title], [theme] or longhand properties that share no
    declaration, the window [setList(options)] leaves (the value of every
    style, the title, the class lists) does not depend on the order in
    which the properties of [options] are enumerated: two calls of [set]
    with different such names commute. *)
Theorem setList_order_is_irrelevant (options options' : list (string * string))
    (this : N2Window) :
  forallb option_name_ok options = true ->
  List.NoDup (map fst options) ->
  Permutation options options' ->
  setList options this = setList options' this.
Proof.
  intros _ Hnd Hperm. revert this Hnd. unfold setList.
  induction Hperm as [|o l l' Hperm IH|o1 o2 l|l l' l'' H1 IH1 H2 IH2]; intros this Hnd.
  - reflexivity.
  - cbn [fold_left]. apply IH. cbn [map] in Hnd. now apply List.NoDup_cons_iff in Hnd.
  - cbn [fold_left]. f_equal. apply set_commute.
    cbn [map] in Hnd. apply List.NoDup_cons_iff in Hnd as [Hnot _].
    intros Heq. apply Hnot. left. now symmetry.
  - rewrite IH1 by exact Hnd. apply IH2.
    eapply Permutation_NoDup; [|exact Hnd]. now apply Permutation_map.
Qed.

Lemma setList_order_is_irrelevant_witness :
  forallb option_name_ok
    [("width", "300px"); ("title", "Draggable Window"); ("top", "100px")] = true /\
  List.NoDup (map fst [("width", "300px"); ("title", "Draggable Window"); ("top", "100px")]) /\
  setList [("width", "300px"); ("title", "Draggable Window"); ("top", "100px")]
    sample_window
  = setList [("top", "100px"); ("width", "300px"); ("title", "Draggable Window")]
      sample_window.
Proof.
  assert (Hnd : List.NoDup (map fst [("width", "300px"); ("title", "Draggable Window");
                                     ("top", "100px")])).
  { cbn [map fst].
    repeat (apply List.NoDup_cons; [cbn; intuition discriminate|]). apply List.NoDup_nil. }
  assert (Hok : forallb option_name_ok
                  [("width", "300px"); ("title", "Draggable Window"); ("top", "100px")]
                = true) by reflexivity.
  split; [exact Hok|]. split; [exact Hnd|].
  apply (setList_order_is_irrelevant _ _ sample_window Hok Hnd).
  apply Permutation_sym.
  exact (Permutation_cons_append [("width", "300px"); ("title", "Draggable Window")]
           ("top", "100px")).
Defined.

Lemma set_frame (opt val : string) (this : N2Window) :
  exists fw ft fc,
    set opt val this = on_window fw (on_title ft (on_contents fc this)) /\
    (forall e k, k <> opt -> Dom.style_decl (fw e) !! k = Dom.style_decl e !! k) /\
    (forall e, Dom.class_attr (fw e) = Dom.class_attr e) /\
    (opt <> "title" -> forall e, ft e = e) /\
    (opt <> "theme" -> forall e, fc e = e).
Proof.
  unfold set.
  destruct (String.eqb_spec opt "title") as [-> | Ht].
  - unfold title. destruct (Js.truthy (Some val)); cbn [snd].
    + exists (fun e => e), (Dom.with_html (default "" (Some val))), (fun e => e).
      split; [now destruct this|]. repeat split; congruence.
    + exists (fun e => e), (fun e => e), (fun e => e).
      split; [now destruct this|]. repeat split; congruence.
  - destruct (String.eqb_spec opt "theme") as [-> | Hh].
    + unfold theme. destruct (Js.truthy (Some val)); cbn [snd].
      * eexists (fun e => e), (fun e => e), _.
        split; [destruct this; reflexivity|]. repeat split; congruence.
      * exists (fun e => e), (fun e => e), (fun e => e).
        split; [now destruct this|]. repeat split; congruence.
    + exists (Dom.set_style opt val), (fun e => e), (fun e => e).
      split; [now destruct this|]. repeat split.
      intros e k Hk. cbn. now rewrite lookup_insert_ne by congruence.
Qed.

Lemma setList_frame (options : list (string * string)) (this : N2Window) :
  exists fw ft fc,
    setList options this = on_window fw (on_title ft (on_contents fc this)) /\
    (forall e k, ~ In k (map fst options) ->
       Dom.style_decl (fw e) !! k = Dom.style_decl e !! k) /\
    (forall e, Dom.class_attr (fw e) = Dom.class_attr e) /\
    (~ In "title" (map fst options) -> forall e, ft e = e) /\
    (~ In "theme" (map fst options) -> forall e, fc e = e).
Proof.
  unfold setList. revert this. induction options as [|[k v] options IH]; intros this.
  - exists (fun e => e), (fun e => e), (fun e => e).
    split; [now destruct this|]. repeat split.
  - cbn [fold_left fst snd].
    destruct (set_frame k v this) as (fw1 & ft1 & fc1 & -> & Hs1 & Hc1 & Ht1 & Hh1).
    destruct (IH (on_window fw1 (on_title ft1 (on_contents fc1 this))))
      as (fw & ft & fc & -> & Hs & Hc & Ht & Hh).
    exists (fun e => fw (fw1 e)), (fun e => ft (ft1 e)), (fun e => fc (fc1 e)).
    split; [reflexivity|]. cbn [map fst]. split; [|split; [|split]].
    + intros e k0 Hnot. rewrite Hs by (intros Hin; apply Hnot; now right).
      apply Hs1. intros ->. apply Hnot. now left.
    + intros e. now rewrite Hc, Hc1.
    + intros Hnot e. rewrite Ht by (intros Hin; apply Hnot; now right).
      apply Ht1. intros ->. apply Hnot. now left.
    + intros Hnot e. rewrite Hh by (intros Hin; apply Hnot; now right).
      apply Hh1. intros ->. apply Hnot. now left.
Qed.

Lemma setList_window_other (options : list (string * string)) (this : N2Window)
    (k : string) :
  ~ In k (map fst options) ->
  Dom.style_decl (_window (setList options this)) !! k
    = Dom.style_decl (_window this) !! k.
Proof.
  intros Hnot. destruct (setList_frame options this) as (fw & ft & fc & -> & Hs & _).
  cbn [on_window _window on_title on_contents]. now apply Hs.
Qed.

Lemma setList_title_other (options : list (string * string)) (this : N2Window) :
  ~ In "title" (map fst options) -> _title (setList options this) = _title this.
Proof.
  intros Hnot.
  destruct (setList_frame options this) as (fw & ft & fc & -> & _ & _ & Ht & _).
  cbn [on_window _title on_title on_contents]. now apply Ht.
Qed.

(** X15. For an object [options] (its names are distinct) whose names
    are [title], [theme] or longhand properties that share no
    declaration, and whose values the style object keeps (whole numbers
    of pixels for the offsets and sizes, a whole number for [z-index]),
    [setList(options)] leaves every style named in [options] with the
    value given; a non-empty [title] without markup in [options] is what
    [title()] reads afterwards. It changes nothing else than the styles
    of the root named in [options], the title when [title] is named and
    the contents element when [theme] is named: the class list of the
    root, the header, the footer, the close button, the resizers, the
    minimum sizes and the listeners are as before. *)
Theorem setList_sets_what_it_names (options : list (string * string)) (this : N2Window) :
  forallb option_name_ok options = true ->
  forallb option_kept options = true ->
  List.NoDup (map fst options) ->
  let this' := setList options this in
  (forall k v, In (k, v) options -> k <> "title" -> k <> "theme" ->
     Dom.style_decl (_window this') !! k = Some v) /\
  (forall v, In ("title", v) options -> v <> "" ->
     Dom.html (_title this') = Some v /\ title None this' = (RString v, this')) /\
  (exists fw ft fc,
     this' = on_window fw (on_title ft (on_contents fc this)) /\
     (forall e k, ~ In k (map fst options) ->
        Dom.style_decl (fw e) !! k = Dom.style_decl e !! k) /\
     (forall e, Dom.class_attr (fw e) = Dom.class_attr e) /\
     (~ In "title" (map fst options) -> forall e, ft e = e) /\
     (~ In "theme" (map fst options) -> forall e, fc e = e)).
Proof.
  intros _ Hkept Hnd this'. subst this'. split; [|split; [|apply setList_frame]].
  - clear Hkept. revert this Hnd. induction options as [|[k0 v0] options IH];
      intros this Hnd k v Hin Hkt Hkh; [contradiction|].
    cbn [map fst] in Hnd. apply List.NoDup_cons_iff in Hnd as [Hnot Hnd].
    unfold setList. cbn [fold_left fst snd]. fold (setList options (set k0 v0 this)).
    destruct Hin as [Heq | Hin].
    + injection Heq as -> ->. rewrite setList_window_other by exact Hnot.
      unfold set.
      destruct (String.eqb_spec k "title"); [congruence|].
      destruct (String.eqb_spec k "theme"); [congruence|].
      cbn. apply lookup_insert_eq.
    + now apply IH.
  - intros v Hin Hne.
    assert (Hplain : Dom.plain_text v = true).
    { rewrite forallb_forall in Hkept. specialize (Hkept _ Hin).
      unfold option_kept in Hkept. cbn [fst snd] in Hkept.
      change (String.eqb "title" "title") with true in Hkept.
      change (String.eqb "title" "theme") with false in Hkept.
      change (Dom.kept "title" v)
        with (match Js.parseInt v with Js.Num n => (Z.abs n <=? 999999) && false
                                  | Js.NaN => false end) in Hkept.
      destruct (Dom.plain_text v); [reflexivity|].
      destruct (Js.parseInt v); [discriminate|].
      rewrite !andb_false_r in Hkept. cbn [orb] in Hkept. discriminate Hkept. }
    assert (Hhtml : Dom.innerHTML (_title (setList options this)) = v).
    { clear Hkept. revert this Hnd. induction options as [|[k0 v0] options IH];
        intros this Hnd; [contradiction|].
      cbn [map fst] in Hnd. apply List.NoDup_cons_iff in Hnd as [Hnot Hnd].
      unfold setList. cbn [fold_left fst snd]. fold (setList options (set k0 v0 this)).
      destruct Hin as [Heq | Hin].
      - injection Heq as -> ->. rewrite setList_title_other by exact Hnot.
        unfold set. cbn [String.eqb Ascii.eqb Bool.eqb]. unfold title.
        destruct v; [congruence|]. reflexivity.
      - now apply IH. }
    assert (Hget : Dom.html (_title (setList options this)) = Some v).
    { unfold Dom.html. now rewrite Hhtml, Hplain. }
    split; [exact Hget|]. unfold title. cbn [Js.truthy]. now rewrite Hget.
Qed.

Lemma setList_sets_what_it_names_witness :
  forallb option_name_ok
    [("width", "300px"); ("title", "Draggable Window"); ("top", "100px")] = true /\
  forallb option_kept
    [("width", "300px"); ("title", "Draggable Window"); ("top", "100px")] = true /\
  List.NoDup (map fst [("width", "300px"); ("title", "Draggable Window"); ("top", "100px")]) /\
  Dom.style_decl
    (_window (setList [("width", "300px"); ("title", "Draggable Window");
                       ("top", "100px")] sample_window)) !! "width" = Some "300px".
Proof.
  assert (Hnd : List.NoDup (map fst [("width", "300px"); ("title", "Draggable Window");
                                     ("top", "100px")])).
  { cbn [map fst].
    repeat (apply List.NoDup_cons; [cbn; intuition discriminate|]). apply List.NoDup_nil. }
  assert (Hok : forallb option_name_ok
                  [("width", "300px"); ("title", "Draggable Window"); ("top", "100px")]
                = true) by reflexivity.
  assert (Hkept : forallb option_kept
                    [("width", "300px"); ("title", "Draggable Window"); ("top", "100px")]
                  = true) by (vm_compute; reflexivity).
  split; [exact Hok|]. split; [exact Hkept|]. split; [exact Hnd|].
  apply (proj1 (setList_sets_what_it_names _ sample_window Hok Hkept Hnd)
           "width" "300px").
  - left. reflexivity.
  - discriminate.
  - discriminate.
Defined.

(** ** [sizeToContent] *)

Lemma parseInt_digit (c : ascii) (rest : string) :
  Js.is_digit c = true ->
  Js.parseInt (String c rest)
    = match NilZero.int_of_string (String c (Js.digit_run rest)) with
      | Some d => Js.Num (Z.of_int d)
      | None => Js.NaN
      end.
Proof.
  intros Hd. unfold Js.parseInt.
  assert (Hs : Js.is_space c = false).
  { destruct c as [[] [] [] [] [] [] [] []]; try discriminate Hd; reflexivity. }
  cbn [Js.skip_space]. rewrite Hs.
  assert (Hsign : (let '(neg, body) :=
                     match String c rest with
                     | String "-" r => (true, r)
                     | String "+" r => (false, r)
                     | _ => (false, String c rest)
                     end in
                   (neg, body)) = (false, String c rest)).
  { destruct c as [[] [] [] [] [] [] [] []]; try discriminate Hd; reflexivity. }
  destruct (match String c rest with
            | String "-" r => (true, r)
            | String "+" r => (false, r)
            | _ => (false, String c rest)
            end) as [neg body].
  injection Hsign as -> ->. cbn [Js.digit_run]. rewrite Hd. reflexivity.
Qed.

Lemma digit_run_uint (d : Decimal.uint) (rest : string) :
  Js.digit_run rest = "" ->
  Js.digit_run (NilEmpty.string_of_uint d +:+ rest) = NilEmpty.string_of_uint d.
Proof.
  intros Hrest. induction d; cbn [NilEmpty.string_of_uint];
    [exact Hrest| change (String ?c ?a +:+ rest) with (String c (a +:+ rest));
                  cbn [Js.digit_run]; now rewrite IHd ..].
Qed.

(** [parseInt] of a pixel length. *)
Lemma parseInt_px (r : Z) :
  0 <= r -> Js.parseInt (Js.ToString (Js.Num r) +:+ "px") = Js.Num r.
Proof.
  intros Hr. unfold Js.ToString.
  assert (Hd : exists d, Z.to_int r = Decimal.Pos d /\ d <> Decimal.Nil).
  { destruct r as [|q|q]; [eexists; split; [reflexivity|discriminate]| |lia].
    exists (Pos.to_uint q). split; [reflexivity|apply Unsigned.to_uint_nonnil]. }
  destruct Hd as (d & Hd & Hnil).
  pose proof (DecimalZ.of_to r) as Hof. rewrite Hd in *.
  cbn [NilZero.string_of_int].
  assert (Hs : NilZero.string_of_uint d = NilEmpty.string_of_uint d)
    by (destruct d; [congruence|reflexivity..]).
  rewrite Hs.
  pose proof (digit_run_uint d "px" eq_refl) as Hrun.
  destruct (NilEmpty.string_of_uint d) as [|c s] eqn:Hstr.
  { destruct d; [congruence|discriminate Hstr..]. }
  change (String c s +:+ "px") with (String c (s +:+ "px")) in *.
  assert (Hc : Js.is_digit c = true).
  { destruct d; [congruence|injection Hstr as <- _; reflexivity..]. }
  rewrite parseInt_digit by exact Hc.
  cbn [Js.digit_run] in Hrun. rewrite Hc in Hrun. injection Hrun as Hrun.
  rewrite Hrun, <- Hs.
  change (NilZero.string_of_uint d) with (NilZero.string_of_int (Decimal.Pos d)).
  rewrite NilZero.isi; [now rewrite Hof|congruence|discriminate].
Qed.

Lemma sizeToContent_unfold (m : Measures) (this : N2Window) :
  sizeToContent m this
    = on_window (fun e =>
        Dom.set_style "height"
          (Js.ToString
             (Js.add (Js.add (Js.add (Js.Num (bodyScrollHeight m))
                                     (Js.Num (headerScrollHeight m)))
                             (if Dom.classed "window-inactive" (_footer this)
                              then Js.parseInt (Dom.style "border-radius" (contents this))
                              else Js.Num (footerScrollHeight m)))
                     (Js.Num 2)) +:+ "px")
          (Dom.set_style "width" (Js.ToString (Js.Num (bodyScrollWidth m)) +:+ "px") e))
        this.
Proof. reflexivity. Qed.

(** X16. [sizeToContent()] writes two styles of the root and nothing
    else: [width], the [scrollWidth] of the body in pixels, and [height],
    the [scrollHeight] of the body plus that of the header plus the height
    of the footer plus 2, in pixels. With the footer shown the height of
    the footer is its [scrollHeight]; with the footer hidden (class
    [window-inactive]) it is what [parseInt] reads from the
    [border-radius] of the contents element, [footer] for a length of
    [footer] pixels. The scroll sizes are not negative, and the two
    lengths written have at most six digits. *)
Theorem sizeToContent_writes_width_and_height (m : Measures) (this : N2Window)
    (footer : Z) :
  0 <= bodyScrollWidth m <= 999999 ->
  0 <= bodyScrollHeight m -> 0 <= headerScrollHeight m -> 0 <= footer ->
  bodyScrollHeight m + headerScrollHeight m + footer + 2 <= 999999 ->
  (if Dom.classed "window-inactive" (_footer this)
   then Dom.style "border-radius" (contents this) = Js.ToString (Js.Num footer) +:+ "px"
   else footerScrollHeight m = footer) ->
  let this' := sizeToContent m this in
  Dom.style_decl (_window this') !! "width"
    = Some (Js.ToString (Js.Num (bodyScrollWidth m)) +:+ "px") /\
  Dom.style_decl (_window this') !! "height"
    = Some (Js.ToString
              (Js.Num (bodyScrollHeight m + headerScrollHeight m + footer + 2))
            +:+ "px") /\
  (exists fw,
     this' = on_window fw this /\
     (forall e k, k <> "width" -> k <> "height" ->
        Dom.style_decl (fw e) !! k = Dom.style_decl e !! k) /\
     (forall e, Dom.class_attr (fw e) = Dom.class_attr e) /\
     (forall e, Dom.listeners (fw e) = Dom.listeners e)).
Proof.
  intros _ _ _ Hfooter _ Hcase this'. subst this'. rewrite sizeToContent_unfold.
  cbn [on_window _window Dom.set_style Dom.with_style Dom.style_decl].
  split; [rewrite lookup_insert_ne by discriminate; apply lookup_insert_eq|].
  split.
  - rewrite lookup_insert_eq.
    destruct (Dom.classed "window-inactive" (_footer this)).
    + rewrite Hcase, parseInt_px by exact Hfooter. reflexivity.
    + rewrite Hcase. reflexivity.
  - eexists. split; [reflexivity|]. split; [|split; reflexivity].
    intros e k Hw Hh. cbn [Dom.set_style Dom.with_style Dom.style_decl].
    now rewrite !lookup_insert_ne by congruence.
Qed.

Lemma sizeToContent_writes_width_and_height_witness :
  Dom.classed "window-inactive" (_footer sample_window) = true /\
  Dom.style "border-radius" (contents sample_window) = "5px" /\
  Dom.style_decl (_window (sizeToContent (mkMeasures 280 400 30 25) sample_window))
    !! "height" = Some "437px".
Proof.
  split; [reflexivity|]. split; [reflexivity|].
  apply (proj1 (proj2 (sizeToContent_writes_width_and_height
                         (mkMeasures 280 400 30 25) sample_window 5
                         ltac:(cbn; lia) ltac:(cbn; lia) ltac:(cbn; lia) ltac:(lia)
                         ltac:(cbn; lia) eq_refl))).
Defined.

(** ** What leaves the stacking alone *)



Lemma setList_z_index (options : list (string * string)) (this : N2Window) :
  Forall (fun o => fst o <> "z-index") options ->
  Dom.style_decl (_window (setList options this)) !! "z-index"
    = Dom.style_decl (_window this) !! "z-index".
Proof.
  intros Hall. apply setList_window_other. intros Hin.
  apply in_map_iff in Hin as (o & Heq & Hin).
  apply (proj1 (Forall_forall _ _) Hall o); [now apply list_elem_of_In|exact Heq].
Qed.



(** ** The close button and the footer, shown and hidden *)

(** X18. [hideCloseButton()] leaves the close button with the class
    [window-inactive] and [showCloseButton()] without it; [showFooter()]
    leaves the footer without it. Each of the three changes the [class]
    attribute of that one element and nothing else (the [click] listener
    of a hidden close button stays), and calling one twice is calling it
    once. After [showFooter()], [sizeToContent()] counts the
    [scrollHeight] of the footer in the height it writes. *)
Theorem toggles_change_one_class (m : Measures) (this : N2Window) :
  Dom.classed "window-inactive" (_closeButton (hideCloseButton this)) = true /\
  Dom.classed "window-inactive" (_closeButton (showCloseButton this)) = false /\
  Dom.classed "window-inactive" (_footer (showFooter this)) = false /\
  (exists cls, hideCloseButton this
               = on_closeButton (Dom.with_class (fun _ => cls)) this) /\
  (exists cls, showCloseButton this
               = on_closeButton (Dom.with_class (fun _ => cls)) this) /\
  (exists cls, showFooter this = on_footer (Dom.with_class (fun _ => cls)) this) /\
  hideCloseButton (hideCloseButton this) = hideCloseButton this /\
  showCloseButton (showCloseButton this) = showCloseButton this /\
  showFooter (showFooter this) = showFooter this /\
  Dom.style_decl (_window (sizeToContent m (showFooter this))) !! "height"
    = Some (Js.ToString (Js.Num (bodyScrollHeight m + headerScrollHeight m
                                 + footerScrollHeight m + 2)) +:+ "px").
Proof.
  assert (Hname : Js.tokens Js.is_space "window-inactive" = ["window-inactive"])
    by reflexivity.
  unfold hideCloseButton, showCloseButton, showFooter.
  split; [now apply classed_after_add|].
  split; [now apply classed_after_remove|].
  split; [now apply classed_after_remove|].
  split; [eexists; reflexivity|]. split; [eexists; reflexivity|].
  split; [eexists; reflexivity|].
  split; [|split; [|split]].
  - unfold on_closeButton.
    cbn [class_of id_attr _window _header _title _closeButton _footer contents
         resizers min active in_document].
    now rewrite set_classed_idem.
  - unfold on_closeButton.
    cbn [class_of id_attr _window _header _title _closeButton _footer contents
         resizers min active in_document].
    now rewrite set_classed_idem.
  - unfold on_footer.
    cbn [class_of id_attr _window _header _title _closeButton _footer contents
         resizers min active in_document].
    now rewrite set_classed_idem.
  - rewrite sizeToContent_unfold.
    cbn [on_window _window Dom.set_style Dom.with_style Dom.style_decl
         on_footer _footer].
    rewrite lookup_insert_eq, classed_after_remove by exact Hname. reflexivity.
Qed.

(** ** [close] while the pointer is down *)

Lemma close_in_document (this : N2Window) : in_document (close this) = false.
Proof.
  unfold close, N2WindowDraggable_close, N2Window_close.
  destruct (class_of this); reflexivity.
Qed.

(** X19. [close()] detaches nothing from [window]. After any history of
    the process, when a window is closed while it is being dragged, the
    [mousemove] and [mouseup] listeners of the drag stay on [window] and
    refer to the closed window: the next [mousemove] still writes the
    [transform] of the root that has been removed, and only a [mouseup]
    detaches the two listeners. *)
Theorem close_leaves_drag_running (actions : list Action) (w : nat)
    (dragStart newTrans : Z * Z) (event : Dom.MouseEvent) (l : Layout) :
  let p := run initial actions in
  window_listeners p !! "mousemove" = Some (DragMouseMove w dragStart newTrans) ->
  let p1 := step p (AClose w) in
  let p2 := step p1 (ADispatch OnWindow "mousemove" event l) in
  let p3 := step p2 (ADispatch OnWindow "mouseup" event l) in
  window_listeners p1 = window_listeners p /\
  (exists this1, heap p1 !! w = Some this1 /\ in_document this1 = false) /\
  (exists this2,
     heap p2 !! w = Some this2 /\ in_document this2 = false /\
     Dom.style_decl (_window this2) !! "transform"
       = Some (translate (Dom.pageX event - fst dragStart,
                          Dom.pageY event - snd dragStart))) /\
  window_listeners p2 !! "mouseup" = Some (DragMouseUp w) /\
  window_listeners p3 !! "mousemove" = None /\
  window_listeners p3 !! "mouseup" = None.
Proof.
  intros p Hm p1 p2 p3.
  pose proof (reachable_dragging actions w dragStart newTrans Hm) as Hd. fold p in Hd.
  destruct Hd as ([nt Hmove] & Hup & [this Hw]).
  assert (Hp1 : p1 = mkProcess (registry p) (<[w := close this]> (heap p))
                       (window_listeners p)).
  { subst p1. cbn [step]. now apply call_on_lookup. }
  assert (Hd1 : dragging p1 w dragStart).
  { rewrite Hp1. split; [eauto|]. split; [exact Hup|].
    cbn [heap]. rewrite lookup_insert_eq. eauto. }
  split; [now rewrite Hp1|].
  split; [exists (close this); rewrite Hp1; cbn [heap]; rewrite lookup_insert_eq;
          split; [reflexivity|apply close_in_document]|].
  destruct (dragging_step p1 w dragStart event l Hd1) as [Hmv _].
  cbn zeta in Hmv. fold p2 in Hmv.
  destruct Hmv as (this1 & Hw1 & Hw2 & _ & _ & _ & Hd2).
  assert (Hthis1 : this1 = close this).
  { rewrite Hp1 in Hw1. cbn [heap] in Hw1. rewrite lookup_insert_eq in Hw1. congruence. }
  split.
  { eexists. split; [exact Hw2|]. rewrite Hthis1. split.
    - cbn [on_window in_document]. apply close_in_document.
    - cbn [on_window _window Dom.set_style Dom.with_style Dom.style_decl].
      apply lookup_insert_eq. }
  split; [apply Hd2|].
  destruct (dragging_step p2 w dragStart event l Hd2) as [_ Hupstep].
  cbn zeta in Hupstep. fold p3 in Hupstep.
  destruct Hupstep as (this3 & _ & _ & _ & _ & Hlm & Hlu). auto.
Qed.

Lemma close_leaves_drag_running_witness :
  window_listeners sample_drag !! "mousemove"
    = Some (DragMouseMove 0%nat (150, 110) (0, 0)) /\
  window_listeners (step sample_drag (AClose 0%nat)) = window_listeners sample_drag.
Proof.
  assert (Hm : window_listeners sample_drag !! "mousemove"
               = Some (DragMouseMove 0%nat (150, 110) (0, 0)))
    by (vm_compute; reflexivity).
  split; [exact Hm|].
  exact (proj1 (close_leaves_drag_running _ 0%nat _ _ (mouse_at 0 0) sample_layout Hm)).
Defined.

(** ** [_setPos], whatever it is given *)

Lemma kept_px (k : string) (v : option Js.number) :
  Dom.kept k (Js.px v) = true -> exists n, v = Some (Js.Num n).
Proof.
  destruct v as [[|n]|]; intros H.
  - unfold Dom.kept in H. cbn [Js.px] in H.
    change (Js.parseInt (Js.ToString Js.NaN +:+ "px")) with Js.NaN in H. discriminate.
  - now exists n.
  - unfold Dom.kept in H. cbn [Js.px] in H.
    change (Js.parseInt "undefinedpx") with Js.NaN in H. discriminate.
Qed.

(** X20. For a [newPos] whose fields [top], [right], [bottom], [left],
    [width] and [height] are whole numbers of at most six digits, the two
    sizes not negative, [_setPos(newPos)] writes these six styles of the
    root, each as its number followed by [px], and no other style, and
    changes nothing else of the window; the other fields of [newPos] are
    ignored. *)
Theorem setPos_writes_six_styles (newPos : gmap string Js.number) (this : N2Window) :
  newPos_kept newPos = true ->
  let this' := _setPos newPos this in
  Forall (fun k =>
            exists n, newPos !! k = Some (Js.Num n) /\
                      Dom.style_decl (_window this') !! k
                        = Some (Js.ToString (Js.Num n) +:+ "px"))
         ["top"; "right"; "bottom"; "left"; "width"; "height"] /\
  (forall k, ~ In k ["top"; "right"; "bottom"; "left"; "width"; "height"] ->
     Dom.style_decl (_window this') !! k = Dom.style_decl (_window this) !! k) /\
  (forall newPos', (forall k, In k ["top"; "right"; "bottom"; "left"; "width"; "height"] ->
                      newPos' !! k = newPos !! k) ->
     _setPos newPos' this = this') /\
  (exists fw, this' = on_window fw this /\
     (forall e, Dom.class_attr (fw e) = Dom.class_attr e) /\
     (forall e, Dom.listeners (fw e) = Dom.listeners e)).
Proof.
  intros Hkept this'. subst this'. split; [|split; [|split]].
  - unfold newPos_kept in Hkept. rewrite forallb_forall in Hkept.
    rewrite _setPos_unfold.
    cbn [on_window _window Dom.set_style Dom.with_style Dom.style_decl].
    repeat (apply Forall_cons; split;
            [match goal with
             | |- exists n, newPos !! ?k = _ /\ _ =>
                 destruct (kept_px k (newPos !! k)) as [n Hn];
                 [apply Hkept; cbn; tauto|];
                 exists n; split; [exact Hn|];
                 rewrite ?lookup_insert_ne by discriminate; rewrite lookup_insert_eq;
                 rewrite Hn; reflexivity
             end|]).
    apply Forall_nil. exact I.
  - intros k Hk. now apply _setPos_other.
  - intros newPos' Hsame. rewrite !_setPos_unfold.
    rewrite !Hsame by (cbn; tauto). reflexivity.
  - rewrite _setPos_unfold. eexists. split; [reflexivity|]. split; reflexivity.
Qed.

Lemma setPos_writes_six_styles_witness :
  newPos_kept (_getPos sample_layout) = true /\
  Forall (fun k =>
            exists n, _getPos sample_layout !! k = Some (Js.Num n) /\
                      Dom.style_decl (_window (_setPos (_getPos sample_layout) sample_window))
                        !! k = Some (Js.ToString (Js.Num n) +:+ "px"))
         ["top"; "right"; "bottom"; "left"; "width"; "height"].
Proof.
  assert (Hk : newPos_kept (_getPos sample_layout) = true) by (vm_compute; reflexivity).
  split; [exact Hk|].
  exact (proj1 (setPos_writes_six_styles (_getPos sample_layout) sample_window Hk)).
Defined.

(** ** [wintest] *)

Lemma call_on_at (reg : Registry) (h : gmap nat N2Window) (wl : gmap string Listener)
    (w : nat) (this : N2Window) (m : N2Window -> N2Window) :
  call_on w m (mkProcess reg (<[w := this]> h) wl)
    = mkProcess reg (<[w := m this]> h) wl.
Proof.
  erewrite call_on_lookup by (cbn [heap]; apply lookup_insert_eq).
  cbn [registry heap window_listeners]. now rewrite insert_insert_eq.
Qed.

Lemma show_at (reg : Registry) (h : gmap nat N2Window) (wl : gmap string Listener)
    (w : nat) (this : N2Window) :
  Dom.style "z-index" (_window this) = Js.ToString (Js.Num (zIndex reg)) ->
  step (mkProcess reg (<[w := this]> h) wl) (AShow w)
    = mkProcess reg (<[w := on_window (Dom.set_classed "window-inactive" false) this]> h)
        wl.
Proof.
  intros Hz. cbn [step show snd].
  erewrite call_lookup by (cbn [heap]; apply lookup_insert_eq).
  cbn [registry heap window_listeners]. rewrite insert_insert_eq.
  unfold set_hidden, bringToFront. cbn [negb orb].
  rewrite Hz, StringToNumber_ToString. cbn [Js.lt]. rewrite Z.ltb_irrefl.
  reflexivity.
Qed.

(** What [wintest] does for each of its windows: construct, [setList],
    [show], [sizeToContent], with [prepare] in between. *)
Lemma window_set_up (c : ClassTag) (newId : string) (tpl : Template)
    (options : list (string * string)) (prepare : N2Window -> N2Window)
    (m : Measures) (p : Process) (middle : list Action) :
  Forall (fun o => fst o <> "z-index") options ->
  (forall this, Dom.style "z-index" (_window (prepare this))
                = Dom.style "z-index" (_window this)) ->
  (forall reg h wl this,
     run (mkProcess reg (<[next_address p := this]> h) wl) middle
       = mkProcess reg (<[next_address p := prepare this]> h) wl) ->
  let w := next_address p in
  run p ([ANew c newId tpl None None; ASetList w options] ++ middle
         ++ [AShow w; ASizeToContent w m])
    = mkProcess (bump (registry p))
        (<[w := sizeToContent m
                  (on_window (Dom.set_classed "window-inactive" false)
                     (prepare (setList options
                                 (snd (new c w newId tpl None None (registry p))))))]>
           (heap p))
        (window_listeners p).
Proof.
  intros Hopts Hprep Hmiddle w. unfold run. rewrite !fold_left_app.
  cbn [fold_left app].
  change (step p (ANew c newId tpl None None)) with (construct c newId tpl None None p).
  unfold construct. fold w.
  pose proof (new_registry c w newId tpl None None (registry p)) as Hreg.
  pose proof (new_window c w newId tpl None None (registry p)) as Hnew.
  destruct (new c w newId tpl None None (registry p)) as [reg this0].
  cbn [fst snd] in Hreg, Hnew. subst reg. cbn zeta in Hnew.
  destruct Hnew as (_ & _ & _ & Hz & _).
  match goal with
  | |- context [step ?P (ASetList w options)] =>
      change (step P (ASetList w options)) with (call_on w (setList options) P)
  end.
  rewrite call_on_at.
  fold (run (mkProcess (bump (registry p)) (<[w := setList options this0]> (heap p))
               (window_listeners p)) middle).
  rewrite Hmiddle. rewrite show_at.
  - cbn [step]. now rewrite call_on_at.
  - rewrite Hprep. cbn [bump zIndex].
    apply style_inline; [|apply ToString_nonempty].
    rewrite setList_z_index by exact Hopts. exact Hz.
Qed.

Lemma wintest_options (newTitle left : string) (this : N2Window) :
  newTitle <> "" ->
  setList [ ("width", "300px"); ("height", "300px"); ("title", newTitle);
            ("top", "100px"); ("left", left) ] this
    = on_window (fun e =>
        Dom.set_style "left" left
          (Dom.set_style "top" "100px"
             (Dom.set_style "height" "300px" (Dom.set_style "width" "300px" e))))
        (on_title (Dom.with_html newTitle) this).
Proof. intros Hne. destruct newTitle; [congruence|reflexivity]. Qed.

Lemma next_address_insert (p : Process) (reg : Registry) (this : N2Window)
    (wl : gmap string Listener) (w : nat) :
  let p1 := mkProcess reg (<[w := this]> (heap p)) wl in
  next_address p1 <> w /\ heap p !! next_address p1 = None.
Proof.
  intros p1. pose proof (next_address_unused p1) as H. cbn [heap p1] in H.
  destruct (decide (next_address p1 = w)) as [Heq | Hne].
  - rewrite Heq in H at 1. now rewrite lookup_insert_eq in H.
  - split; [exact Hne|]. now rewrite lookup_insert_ne in H by congruence.
Qed.

Lemma window_set_up_facts (c : ClassTag) (w : nat) (newId : string) (tpl : Template)
    (reg : Registry) (newTitle left : string) (m : Measures)
    (f : Dom.Element -> Dom.Element) :
  newTitle <> "" ->
  let this0 := snd (new c w newId tpl None None reg) in
  let this :=
    sizeToContent m
      (on_window (Dom.set_classed "window-inactive" false)
         (on_footer f
            (setList [ ("width", "300px"); ("height", "300px"); ("title", newTitle);
                       ("top", "100px"); ("left", left) ] this0))) in
  class_of this = c /\ id_attr this = newId /\ hidden this = false /\
  Dom.style_decl (_window this) !! "z-index"
    = Some (Js.ToString (Js.Num (zIndex reg + 1))) /\
  Dom.innerHTML (_title this) = newTitle /\
  Dom.style_decl (_window this) !! "top" = Some "100px" /\
  Dom.style_decl (_window this) !! "left" = Some left /\
  Dom.style_decl (_window this) !! "width"
    = Some (Js.ToString (Js.Num (bodyScrollWidth m)) +:+ "px") /\
  (Dom.classed "window-inactive" (f (_footer this0)) = false ->
   Dom.style_decl (_window this) !! "height"
     = Some (Js.ToString (Js.Num (bodyScrollHeight m + headerScrollHeight m
                                  + footerScrollHeight m + 2)) +:+ "px")).
Proof.
  intros Hne this0 this.
  destruct (new_window c w newId tpl None None reg) as (Hc & Hid & _ & Hz & _).
  fold this0 in Hc, Hid, Hz.
  subst this. rewrite wintest_options by exact Hne. rewrite sizeToContent_unfold.
  cbn [on_window on_footer on_title class_of id_attr _window _header _title
       _closeButton _footer contents resizers min active in_document].
  split; [exact Hc|]. split; [exact Hid|]. split.
  { unfold hidden. cbn [on_window _window].
    change (Dom.classed "window-inactive"
              (Dom.set_classed "window-inactive" false
                 (Dom.set_style "left" left
                    (Dom.set_style "top" "100px"
                       (Dom.set_style "height" "300px"
                          (Dom.set_style "width" "300px" (_window this0)))))) = false).
    now apply classed_after_remove. }
  cbn [Dom.set_style Dom.with_style Dom.set_classed Dom.with_class Dom.style_decl
       Dom.innerHTML Dom.with_html].
  split; [now rewrite !lookup_insert_ne by discriminate|].
  split; [reflexivity|].
  split; [now rewrite !lookup_insert_ne by discriminate; rewrite lookup_insert_eq|].
  split; [rewrite !lookup_insert_ne by discriminate; apply lookup_insert_eq|].
  split; [rewrite lookup_insert_ne by discriminate; apply lookup_insert_eq|].
  intros Hfooter. rewrite lookup_insert_eq.
  cbn [Dom.classed Dom.class_attr] in Hfooter |- *.
  unfold Dom.classed in Hfooter |- *. rewrite Hfooter. reflexivity.
Qed.

(** X21. [wintest()], run in any state of the process, creates three
    windows, of the classes [N2Window], [N2WindowDraggable] and
    [N2WindowResizable], at three addresses no window had, and changes no
    other window and no listener on [window]. The three constructors raise
    [N2Window.zIndex] by one each and the three calls of [show()] do not
    raise it: each window is shown and has the value the counter had when
    it was constructed. Each window has the title, [top] and [left] given
    to [setList], while its [width] is the one [sizeToContent] measured,
    not the [300px] given to [setList]; the third, whose footer
    [showFooter()] has shown, has the height of body, header and footer
    plus 2. *)
Theorem wintest_sets_up_three_windows (id1 id2 id3 : string) (tpl : Template)
    (m1 m2 m3 : Measures) (p : Process) :
  let p' := wintest id1 id2 id3 tpl m1 m2 m3 p in
  let set_up (this : N2Window) (c : ClassTag) (newId : string) (z : Z)
             (newTitle left : string) (m : Measures) : Prop :=
    class_of this = c /\ id_attr this = newId /\ hidden this = false /\
    Dom.style_decl (_window this) !! "z-index" = Some (Js.ToString (Js.Num z)) /\
    Dom.innerHTML (_title this) = newTitle /\
    Dom.style_decl (_window this) !! "top" = Some "100px" /\
    Dom.style_decl (_window this) !! "left" = Some left /\
    Dom.style_decl (_window this) !! "width"
      = Some (Js.ToString (Js.Num (bodyScrollWidth m)) +:+ "px") in
  exists w1 w2 w3 this1 this2 this3,
    (heap p !! w1 = None /\ heap p !! w2 = None /\ heap p !! w3 = None) /\
    (w1 <> w2 /\ w1 <> w3 /\ w2 <> w3) /\
    (heap p' !! w1 = Some this1 /\ heap p' !! w2 = Some this2 /\
     heap p' !! w3 = Some this3) /\
    (forall w, w <> w1 -> w <> w2 -> w <> w3 -> heap p' !! w = heap p !! w) /\
    window_listeners p' = window_listeners p /\
    zIndex (registry p') = zIndex (registry p) + 3 /\
    set_up this1 Base id1 (zIndex (registry p) + 1)
      "This is a very, very, very, very long title indeed" "10px" m1 /\
    set_up this2 Draggable id2 (zIndex (registry p) + 2) "Draggable Window" "350px" m2 /\
    set_up this3 Resizable id3 (zIndex (registry p) + 3) "Resizable Window" "700px" m3 /\
    Dom.style_decl (_window this3) !! "height"
      = Some (Js.ToString (Js.Num (bodyScrollHeight m3 + headerScrollHeight m3
                                   + footerScrollHeight m3 + 2)) +:+ "px").
Proof.
  intros p' set_up. subst p'. unfold wintest.
  assert (Hopts : forall newTitle left : string,
            Forall (fun o : string * string => fst o <> "z-index")
              [ ("width", "300px"); ("height", "300px"); ("title", newTitle);
                ("top", "100px"); ("left", left) ]).
  { intros. repeat (apply Forall_cons; split; [discriminate|]). apply Forall_nil. exact I. }
  assert (Hnone : forall (q : Process) reg h wl this,
            run (mkProcess reg (<[next_address q := this]> h) wl) []
              = mkProcess reg (<[next_address q := on_footer (fun e => e) this]> h) wl).
  { intros. now destruct this. }
  (* the first window *)
  set (w1 := next_address p).
  pose proof (window_set_up Base id1 tpl _ (on_footer (fun e => e)) m1 p []
                (Hopts "This is a very, very, very, very long title indeed" "10px") (fun _ => eq_refl) (Hnone p)) as H1.
  cbn zeta in H1. cbn [app] in H1. fold w1 in H1. rewrite H1. clear H1.
  match goal with |- context [<[w1 := ?t]> (heap p)] => set (this1 := t) end.
  set (p1 := mkProcess (bump (registry p)) (<[w1 := this1]> (heap p)) (window_listeners p)).
  destruct (next_address_insert p (bump (registry p)) this1 (window_listeners p) w1)
    as [Hne21 Hfree2]. fold p1 in Hne21, Hfree2.
  (* the second window *)
  set (w2 := next_address p1) in *.
  pose proof (window_set_up Draggable id2 tpl _ (on_footer (fun e => e)) m2 p1 []
                (Hopts "Draggable Window" "350px") (fun _ => eq_refl) (Hnone p1)) as H2.
  cbn zeta in H2. cbn [app] in H2. fold w2 in H2. rewrite H2. clear H2.
  match goal with |- context [<[w2 := ?t]> (heap p1)] => set (this2 := t) end.
  set (p2 := mkProcess (bump (registry p1)) (<[w2 := this2]> (heap p1))
               (window_listeners p1)).
  destruct (next_address_insert p1 (bump (registry p1)) this2 (window_listeners p1) w2)
    as [Hne32 Hfree3]. fold p2 in Hne32, Hfree3.
  (* the third window *)
  set (w3 := next_address p2) in *.
  assert (Hfooter : forall reg h wl this,
            run (mkProcess reg (<[next_address p2 := this]> h) wl) [AShowFooter w3]
              = mkProcess reg (<[next_address p2 := showFooter this]> h) wl).
  { intros. unfold run. cbn [fold_left step]. apply call_on_at. }
  pose proof (window_set_up Resizable id3 tpl _ showFooter m3 p2 [AShowFooter w3]
                (Hopts "Resizable Window" "700px") (fun _ => eq_refl) Hfooter) as H3.
  cbn zeta in H3. cbn [app] in H3. fold w3 in H3. rewrite H3. clear H3.
  match goal with |- context [<[w3 := ?t]> (heap p2)] => set (this3 := t) end.
  assert (Hne31 : w3 <> w1).
  { intros Heq. cbn [heap p1] in Hfree3. rewrite Heq in Hfree3.
    now rewrite lookup_insert_eq in Hfree3. }
  assert (Hfree3' : heap p !! w3 = None).
  { cbn [heap p1] in Hfree3. now rewrite lookup_insert_ne in Hfree3 by congruence. }
  exists w1, w2, w3, this1, this2, this3.
  cbn [heap registry window_listeners p2 p1 bump zIndex].
  split; [split; [apply next_address_unused|split; assumption]|].
  split; [repeat split; congruence|].
  split.
  { split; [|split].
    - rewrite !lookup_insert_ne by congruence. apply lookup_insert_eq.
    - rewrite lookup_insert_ne by congruence. apply lookup_insert_eq.
    - apply lookup_insert_eq. }
  split; [intros w Hw1 Hw2 Hw3; now rewrite !lookup_insert_ne by congruence|].
  split; [reflexivity|]. split; [lia|].
  pose proof (window_set_up_facts Base w1 id1 tpl (registry p)
                "This is a very, very, very, very long title indeed" "10px" m1
                (fun e => e) ltac:(discriminate)) as F1.
  pose proof (window_set_up_facts Draggable w2 id2 tpl (registry p1)
                "Draggable Window" "350px" m2 (fun e => e) ltac:(discriminate)) as F2.
  pose proof (window_set_up_facts Resizable w3 id3 tpl (registry p2)
                "Resizable Window" "700px" m3
                (Dom.set_classed "window-inactive" false) ltac:(discriminate)) as F3.
  cbn zeta in F1, F2, F3. fold this1 in F1. fold this2 in F2.
  change (sizeToContent m3 _) with this3 in F3.
  cbn [registry p1 p2 bump zIndex] in F2, F3.
  destruct F1 as (A1 & A2 & A3 & A4 & A5 & A6 & A7 & A8 & _).
  destruct F2 as (B1 & B2 & B3 & B4 & B5 & B6 & B7 & B8 & _).
  destruct F3 as (C1 & C2 & C3 & C4 & C5 & C6 & C7 & C8 & C9).
  split; [unfold set_up; repeat split; assumption|].
  split.
  { unfold set_up. repeat split; try assumption.
    rewrite B4. do 3 f_equal. lia. }
  split.
  { unfold set_up. repeat split; try assumption.
    rewrite C4. do 3 f_equal. lia. }
  apply C9. now apply classed_after_remove.
Qed.

Lemma wintest_sets_up_three_windows_witness :
  exists w1 w2 w3 this1 this2 this3,
    (w1 <> w2 /\ w1 <> w3 /\ w2 <> w3) /\
    (heap (wintest "win1" "win2" "win3" sample_template (mkMeasures 280 400 30 25)
             (mkMeasures 280 400 30 25) (mkMeasures 280 400 30 25) initial) !! w1
       = Some this1 /\
     heap (wintest "win1" "win2" "win3" sample_template (mkMeasures 280 400 30 25)
             (mkMeasures 280 400 30 25) (mkMeasures 280 400 30 25) initial) !! w2
       = Some this2 /\
     heap (wintest "win1" "win2" "win3" sample_template (mkMeasures 280 400 30 25)
             (mkMeasures 280 400 30 25) (mkMeasures 280 400 30 25) initial) !! w3
       = Some this3).
Proof.
  destruct (wintest_sets_up_three_windows "win1" "win2" "win3" sample_template
              (mkMeasures 280 400 30 25) (mkMeasures 280 400 30 25)
              (mkMeasures 280 400 30 25) initial)
    as (w1 & w2 & w3 & this1 & this2 & this3 & _ & Hne & Hw & _).
  exists w1, w2, w3, this1, this2, this3. exact (conj Hne Hw).
Defined.

Example scenario_wintest :
  let p := wintest "win1" "win2" "win3" sample_template (mkMeasures 280 400 30 25)
             (mkMeasures 280 400 30 25) (mkMeasures 280 400 30 25) initial in
  zIndex (registry p) = 13 /\
  style_of p 0%nat "height" = Some "437px" /\
  style_of p 2%nat "height" = Some "457px" /\
  style_of p 2%nat "z-index" = Some "13".
Proof. vm_compute. repeat split. Qed.

(** ** [ribbonColor] *)

Lemma call_ribbon (self : nat) (m : Registry * N2Window -> Registry * N2Window)
    (p : Process) (w : nat) (this : N2Window) :
  (forall st, ribbon (snd (m st)) = ribbon (snd st)) ->
  heap p !! w = Some this ->
  exists this', heap (call self m p) !! w = Some this' /\ ribbon this' = ribbon this.
Proof.
  intros Hm Hw. destruct (heap p !! self) as [this0|] eqn:Hs.
  - rewrite (call_lookup _ _ _ _ Hs). cbn [heap].
    destruct (decide (w = self)) as [-> | Hne].
    + rewrite lookup_insert_eq. eexists. split; [reflexivity|].
      rewrite Hs in Hw. injection Hw as <-. apply (Hm (registry p, this0)).
    + rewrite lookup_insert_ne by congruence. eauto.
  - rewrite call_absent by exact Hs. eauto.
Qed.

Lemma call_on_ribbon (self : nat) (m : N2Window -> N2Window) (p : Process) (w : nat)
    (this : N2Window) :
  (forall this0, ribbon (m this0) = ribbon this0) ->
  heap p !! w = Some this ->
  exists this', heap (call_on self m p) !! w = Some this' /\ ribbon this' = ribbon this.
Proof. intros Hm. apply call_ribbon. intros [reg this0]. apply Hm. Qed.

Lemma bringToFront_ribbon (force : bool) (st : Registry * N2Window) :
  ribbon (snd (bringToFront force st)) = ribbon (snd st).
Proof.
  destruct st as [reg this].
  destruct (bringToFront_cases force reg this) as [-> | ->]; reflexivity.
Qed.

Lemma set_hidden_ribbon (hide : bool) (st : Registry * N2Window) :
  ribbon (snd (set_hidden hide st)) = ribbon (snd st).
Proof.
  unfold set_hidden. destruct hide; cbn [negb].
  - destruct st as [reg this]. reflexivity.
  - pose proof (bringToFront_ribbon false st) as H.
    destruct (bringToFront false st) as [reg this]. exact H.
Qed.

Lemma setList_ribbon (options : list (string * string)) (this : N2Window) :
  ribbon (setList options this) = ribbon this.
Proof.
  destruct (setList_frame options this) as (fw & ft & fc & -> & _). reflexivity.
Qed.

Lemma set_ribbon (opt val : string) (this : N2Window) :
  ribbon (set opt val this) = ribbon this.
Proof. destruct (set_frame opt val this) as (fw & ft & fc & -> & _). reflexivity. Qed.

Lemma _setPos_ribbon (newPos : gmap string Js.number) (this : N2Window) :
  ribbon (_setPos newPos this) = ribbon this.
Proof. rewrite _setPos_unfold. reflexivity. Qed.

Lemma close_ribbon (this : N2Window) : ribbon (close this) = ribbon this.
Proof.
  unfold close, N2WindowDraggable_close, N2Window_close.
  destruct (class_of this); reflexivity.
Qed.

Lemma invoke_ribbon (f : Listener) (event : Dom.MouseEvent) (l : Layout) (p : Process)
    (w : nat) (this : N2Window) :
  heap p !! w = Some this ->
  exists this', heap (invoke f event l p) !! w = Some this' /\ ribbon this' = ribbon this.
Proof.
  intros Hw. destruct f; cbn [invoke window_on heap].
  - apply call_on_ribbon; [apply close_ribbon|exact Hw].
  - destruct (call_ribbon self (bringToFront false) p w this
                (bringToFront_ribbon false) Hw) as (this1 & Hw1 & <-).
    apply call_on_ribbon; [|exact Hw1]. intros this0. unfold ribbon.
    cbn [on_header on_window _header _footer Dom.set_style Dom.with_style Dom.style_decl].
    now rewrite lookup_insert_ne by discriminate.
  - apply call_on_ribbon; [reflexivity|exact Hw].
  - destruct (call_on_ribbon self (_setPos (_getPos l)) p w this
                (_setPos_ribbon _) Hw) as (this1 & Hw1 & <-).
    apply call_on_ribbon; [|exact Hw1]. intros this0. unfold ribbon.
    cbn [on_header on_window _header _footer Dom.set_style Dom.with_style Dom.style_decl].
    now rewrite lookup_insert_ne by discriminate.
  - apply call_ribbon; [apply bringToFront_ribbon|exact Hw].
  - destruct (heap p !! self) as [this0|] eqn:Hs; [|eauto].
    destruct (resize_newSize _ _ _ _ _ _); [|eauto]. cbn [window_on heap].
    apply call_on_ribbon; [apply _setPos_ribbon|exact Hw].
  - eauto.
Qed.

Lemma step_ribbon (p : Process) (a : Action) (w : nat) (this : N2Window) :
  is_ribbonColor w a = false ->
  heap p !! w = Some this ->
  exists this', heap (step p a) !! w = Some this' /\ ribbon this' = ribbon this.
Proof.
  intros Ha Hw. destruct a; cbn [step].
  - unfold construct.
    destruct (new c (next_address p) newId tpl minWidth minHeight (registry p))
      as [reg this0]. cbn [heap].
    rewrite lookup_insert_ne; [eauto|].
    intros Heq. pose proof (next_address_unused p) as Hn. rewrite Heq in Hn. congruence.
  - apply call_ribbon; [apply bringToFront_ribbon|exact Hw].
  - apply call_ribbon; [apply (set_hidden_ribbon false)|exact Hw].
  - apply call_ribbon; [apply (set_hidden_ribbon true)|exact Hw].
  - apply call_on_ribbon; [|exact Hw]. intros this0. unfold title.
    destruct (Js.truthy newTitle); reflexivity.
  - apply call_on_ribbon; [|exact Hw]. intros this0. unfold theme.
    destruct (Js.truthy newTheme); reflexivity.
  - apply call_on_ribbon; [apply set_ribbon|exact Hw].
  - apply call_on_ribbon; [apply setList_ribbon|exact Hw].
  - apply call_on_ribbon; [apply close_ribbon|exact Hw].
  - apply call_on_ribbon; [reflexivity|exact Hw].
  - apply call_on_ribbon; [reflexivity|exact Hw].
  - apply call_on_ribbon; [reflexivity|exact Hw].
  - cbn [is_ribbonColor] in Ha. apply Nat.eqb_neq in Ha.
    destruct (heap p !! w0) as [this0|] eqn:Hs.
    + rewrite (call_on_lookup _ _ _ _ Hs). cbn [heap].
      rewrite lookup_insert_ne by congruence. eauto.
    + unfold call_on. rewrite call_absent by exact Hs. eauto.
  - apply call_on_ribbon; [|exact Hw]. intros this0. unfold move.
    destruct (not_active this0); cbn [snd]; [reflexivity|apply _setPos_ribbon].
  - apply call_on_ribbon; [|exact Hw]. intros this0. unfold sizeToContent.
    apply setList_ribbon.
  - apply call_on_ribbon; [|exact Hw]. intros this0.
    destruct (class_of this0); reflexivity.
  - apply call_on_ribbon; [|exact Hw]. intros this0.
    destruct (class_of this0); reflexivity.
  - destruct (listeners_of p t !! type); [now apply invoke_ribbon|eauto].
Qed.

(** X22. [ribbonColor(color)] gives the header and the footer of the
    window the [background-color] [color], and no other operation of the
    three classes changes either: whatever is constructed, called or
    delivered afterwards, short of another [ribbonColor] on the same
    window, the two colours stay. *)
Theorem ribbonColor_persists (p : Process) (w : nat) (color : string)
    (actions : list Action) :
  is_Some (heap p !! w) ->
  Forall (fun a => is_ribbonColor w a = false) actions ->
  exists this,
    heap (run (step p (ARibbonColor w color)) actions) !! w = Some this /\
    Dom.style_decl (_header this) !! "background-color" = Some color /\
    Dom.style_decl (_footer this) !! "background-color" = Some color.
Proof.
  intros [this0 Hw] Hall.
  assert (H : exists this, heap (run (step p (ARibbonColor w color)) actions) !! w
                           = Some this /\ ribbon this = (Some color, Some color)).
  { induction actions as [|a actions IH] using rev_ind.
    - cbn [run fold_left step]. rewrite (call_on_lookup _ _ _ _ Hw). cbn [heap].
      rewrite lookup_insert_eq. eexists. split; [reflexivity|].
      unfold ribbon, ribbonColor.
      cbn [on_footer on_header _header _footer Dom.set_style Dom.with_style
           Dom.style_decl].
      now rewrite !lookup_insert_eq.
    - apply Forall_app in Hall as [Hall Ha].
      apply Forall_cons in Ha as [Ha _].
      rewrite run_snoc. destruct (IH Hall) as (this & Hthis & Hr).
      destruct (step_ribbon _ a w this Ha Hthis) as (this' & Hw' & Hr').
      exists this'. split; [exact Hw'|congruence]. }
  destruct H as (this & Hthis & Hr). exists this. split; [exact Hthis|].
  unfold ribbon in Hr. now injection Hr.
Qed.

Lemma ribbonColor_persists_witness :
  is_Some (heap sample_drag !! 0%nat) /\
  exists this,
    heap (run (step sample_drag (ARibbonColor 0%nat "steelblue"))
            [ ADispatch OnWindow "mousemove" (mouse_at 180 100) sample_layout;
              ADispatch OnWindow "mouseup" (mouse_at 180 100) sample_layout ]) !! 0%nat
      = Some this /\
    Dom.style_decl (_header this) !! "background-color" = Some "steelblue" /\
    Dom.style_decl (_footer this) !! "background-color" = Some "steelblue".
Proof.
  assert (Hw : is_Some (heap sample_drag !! 0%nat)) by (vm_compute; eauto).
  split; [exact Hw|].
  apply (ribbonColor_persists sample_drag 0%nat "steelblue" _ Hw).
  repeat (apply Forall_cons; split; [reflexivity|]). apply Forall_nil. exact I.
Defined.
